(** * mini_transaction: the nested-transaction coordinator

    A shallow embedding of [transaction/manager.go], of the [transContext]
    node of package [transaction] and of [TransProvider] of package [db].

    Go pointers to [transContext] are addresses into a store of nodes, so
    that a root shared by several nested scopes is one mutable object.
    Code that can panic lives in a state monad whose outcome is either a
    normal return or a panic carrying its payload; a deferred function is a
    second computation that receives the outcome of the body.  The closures
    kept in the root registries are first-order data: the node they test
    and the user callback they guard.  User commit/rollback callbacks are
    opaque: calling one appends an event to the trace.  The code is
    embedded as it runs on one goroutine: the mutex of the root, which
    only orders concurrent registrations, has no counterpart here. *)

From stdpp Require Import base list strings gmap pretty.

(** ** Values *)

(** [*transContext]: an address in the node store. *)
Abbreviation addr := nat (only parsing).

(** Go [error] values, identified by their message. *)
Abbreviation error := string (only parsing).

(** The argument of [panic]: an [error] value or any other value, kept as
    its [%v] rendering. *)
Inductive payload :=
  | PError (e : error)
  | PValue (v : string).

(** [err, ok := e.(error); if !ok { err = fmt.Errorf("panic: %v", e) }] *)
Definition recovered (e : payload) : error :=
  match e with
  | PError err => err
  | PValue v => "panic: " +:+ v
  end.

(** What dereferencing a nil pointer panics with: a [runtime.Error], which
    is an [error] value. *)
Definition nil_dereference : payload :=
  PError "runtime error: invalid memory address or nil pointer dereference".

(** [*gorm.DB]: a connection pool, or a handle bound to an open physical
    transaction of that pool. *)
Inductive handle :=
  | Pool (name : string)
  | Tx (name : string).

(** Keys of [context.Context].  [transCtxKey] is a private type of package
    [db]: no key made elsewhere is equal to one of its values. *)
Inductive key :=
  | TransCtxKey (s : string)
  | UserKey (s : string).

#[global] Instance key_eq_dec : EqDecision key.
Proof. solve_decision. Defined.

(** Values stored in a context: nil, a [*transContext], or anything else. *)
Inductive value :=
  | VNil
  | VTransContext (t : addr)
  | VUser (s : string).

(** [context.Context]: an immutable chain of bindings, newest first. *)
Definition context := list (key * value).

Definition WithValue (ctx : context) (k : key) (v : value) : context :=
  (k, v) :: ctx.

Fixpoint Value (ctx : context) (k : key) : value :=
  match ctx with
  | [] => VNil
  | (k', v) :: parent => if decide (k' = k) then v else Value parent k
  end.

(** ** Closures held by the registries *)

(** [func(err error) { callback(m.cleanTransContext(ctx), err) }], built by
    the manager's [OnRollbacked]: user callback [id], captured [ctx]. *)
Record errfn := ErrFn { ef_id : nat; ef_ctx : context }.

(** [func()] values: the manager's wrapper of a user commit callback, and
    the two [callbackFunc] closures of the node, which capture the node
    [t] they were built on. *)
Inductive thunk :=
  | CallUser (id : nat) (ctx : context)
  | IfCommitted (t : addr) (callback : thunk)
  | IfRollbacked (t : addr) (callback : errfn).

(** ** The node *)

Record transContext := mkTransContext {
  onCommittedCallbacks : list thunk;
  onRollbackedCallbacks : list thunk;
  parent : option addr;
  db : handle;
  done : bool;
  panicked : bool;
  err : option error
}.

(** The variables [transCtx] and [ctx] of one [Transaction] call: both are
    captured and assigned by the closure handed to the provider, so they
    live in a cell of their own. *)
Record frame := mkFrame {
  f_transCtx : option addr;
  f_ctx : context
}.

(** ** Observable events *)

Inductive event :=
  | EvBegin (d : handle)
  | EvBeginFailed (d : handle) (e : error)
  | EvCommit (d : handle)
  | EvCommitFailed (d : handle) (e : error)
  | EvRollback (d : handle)
  | EvBind (d : handle) (ctx : context)
  | EvCommitted (id : nat) (ctx : context)
  | EvRollbacked (id : nat) (ctx : context) (e : error)
  | EvProbe (inside : list bool).

(** ** State and the panic monad *)

Record state := mkState {
  heap : list transContext;
  cells : list frame;
  trace : list event
}.

Inductive outcome (A : Type) :=
  | Normal (a : A)
  | Panicked (v : payload).

Arguments Normal {A} a.
Arguments Panicked {A} v.

Definition M (A : Type) : Type := state -> outcome A * state.

#[global] Instance M_ret : MRet M := fun A a s => (Normal a, s).

#[global] Instance M_bind : MBind M := fun A B f m s =>
  match m s with
  | (Normal a, s') => f a s'
  | (Panicked v, s') => (Panicked v, s')
  end.

Definition panic {A : Type} (v : payload) : M A := fun s => (Panicked v, s).

(** Leave with a given outcome: what a deferred function does when it
    returns without recovering. *)
Definition resume {A : Type} (r : outcome A) : M A := fun s => (r, s).

(** Run [m] and hand its outcome, normal or panic, to what follows: the
    view a deferred function has of the function body. *)
Definition observe {A : Type} (m : M A) : M (outcome A) :=
  fun s => let '(r, s') := m s in (Normal r, s').

Definition get_heap : M (list transContext) := fun s => (Normal (heap s), s).

Definition set_heap (h : list transContext) : M unit :=
  fun s => (Normal tt, mkState h (cells s) (trace s)).

Definition emit (e : event) : M unit :=
  fun s => (Normal tt, mkState (heap s) (cells s) (trace s ++ [e])).

Definition no_frame : frame := mkFrame None [].

Definition new_cell (f : frame) : M nat :=
  fun s => (Normal (length (cells s)), mkState (heap s) (cells s ++ [f]) (trace s)).

Definition load (c : nat) : M frame :=
  fun s => (Normal (default no_frame (cells s !! c)), s).

Definition store (c : nat) (f : frame) : M unit :=
  fun s => (Normal tt, mkState (heap s) (<[c := f]> (cells s)) (trace s)).

(** ** Field updates of a node *)

Definition with_onCommitted (l : list thunk) (n : transContext) : transContext :=
  mkTransContext l (onRollbackedCallbacks n) (parent n) (db n) (done n) (panicked n) (err n).

Definition with_onRollbacked (l : list thunk) (n : transContext) : transContext :=
  mkTransContext (onCommittedCallbacks n) l (parent n) (db n) (done n) (panicked n) (err n).

Definition with_done (b : bool) (n : transContext) : transContext :=
  mkTransContext (onCommittedCallbacks n) (onRollbackedCallbacks n) (parent n) (db n) b (panicked n) (err n).

Definition with_result (p : bool) (e : option error) (n : transContext) : transContext :=
  mkTransContext (onCommittedCallbacks n) (onRollbackedCallbacks n) (parent n) (db n) (done n) p e.

(** [h[t] = f h[t]]; nothing to do on an address that holds no node. *)
Definition update (t : addr) (f : transContext -> transContext)
    (h : list transContext) : list transContext :=
  match h !! t with
  | Some n => <[t := f n]> h
  | None => h
  end.

(** ** [transContext] methods *)

Module Node.

Definition isRoot (n : transContext) : bool :=
  match parent n with
  | None => true
  | Some _ => false
  end.

(** The walks toward the root follow [parent].  Every parent was
    allocated before its child, so [length h] steps are enough on a store
    built by [Start]: there each walk satisfies the equation of the method
    it embeds (lemmas [InTransaction_eq], [isCommitted_eq],
    [isRollbacked_eq], [OnCommitted_eq] and [OnRollbacked_eq]). *)
Fixpoint InTransaction_fuel (fuel : nat) (h : list transContext) (t : option addr) : bool :=
  match t with
  | None => false
  | Some a =>
      match fuel, h !! a with
      | S fuel', Some n =>
          if negb (isRoot n) then InTransaction_fuel fuel' h (parent n)
          else negb (done n)
      | _, _ => false
      end
  end.

Definition InTransaction (h : list transContext) (t : option addr) : bool :=
  InTransaction_fuel (length h) h t.

Fixpoint isCommitted_fuel (fuel : nat) (h : list transContext) (t : option addr) : bool :=
  match t with
  | None => true
  | Some a =>
      match fuel, h !! a with
      | S fuel', Some n =>
          if panicked n || bool_decide (err n <> None) then false
          else isCommitted_fuel fuel' h (parent n)
      | _, _ => false
      end
  end.

Definition isCommitted (h : list transContext) (t : option addr) : bool :=
  isCommitted_fuel (length h) h t.

Fixpoint isRollbacked_fuel (fuel : nat) (h : list transContext) (t : option addr) : option error :=
  match t with
  | None => None
  | Some a =>
      match fuel, h !! a with
      | S fuel', Some n =>
          match err n with
          | Some e => Some e
          | None => isRollbacked_fuel fuel' h (parent n)
          end
      | _, _ => None
      end
  end.

Definition isRollbacked (h : list transContext) (t : option addr) : option error :=
  isRollbacked_fuel (length h) h t.

Definition GetTransDB (h : list transContext) (t : addr) : option handle :=
  db <$> h !! t.

(** [&transContext{parent: t, db: db, panicked: true}] *)
Definition Start (t : option addr) (d : handle) : M addr :=
  fun s =>
    (Normal (length (heap s)),
     mkState (heap s ++ [mkTransContext [] [] t d false true None]) (cells s) (trace s)).

Fixpoint OnCommitted_fuel (fuel : nat) (h : list transContext) (t : addr)
    (callback : thunk) : list transContext :=
  match fuel, h !! t with
  | S fuel', Some n =>
      let callbackFunc := IfCommitted t callback in
      match parent n with
      | None => <[t := with_onCommitted (onCommittedCallbacks n ++ [callbackFunc]) n]> h
      | Some p => OnCommitted_fuel fuel' h p callbackFunc
      end
  | _, _ => h
  end.

Definition OnCommitted (t : addr) (callback : thunk) : M unit :=
  h ← get_heap; set_heap (OnCommitted_fuel (length h) h t callback).

Fixpoint OnRollbacked_fuel (fuel : nat) (h : list transContext) (t : addr)
    (callback : errfn) : list transContext :=
  match fuel, h !! t with
  | S fuel', Some n =>
      let callbackFunc := IfRollbacked t callback in
      match parent n with
      | None => <[t := with_onRollbacked (onRollbackedCallbacks n ++ [callbackFunc]) n]> h
      | Some p => OnRollbacked_fuel fuel' h p callback
      end
  | _, _ => h
  end.

Definition OnRollbacked (t : addr) (callback : errfn) : M unit :=
  h ← get_heap; set_heap (OnRollbacked_fuel (length h) h t callback).

Section Firing.
(** How the closures built by the manager reach the user callbacks. *)
Variable callCommitted : nat -> context -> M unit.
Variable callRollbacked : nat -> context -> error -> M unit.

(** Calling a registered [func()]. *)
Fixpoint call (f : thunk) : M unit :=
  match f with
  | CallUser id ctx => callCommitted id ctx
  | IfCommitted t callback =>
      h ← get_heap;
      if isCommitted h (Some t) then call callback else mret tt
  | IfRollbacked t callback =>
      h ← get_heap;
      match isRollbacked h (Some t) with
      | Some e => callRollbacked (ef_id callback) (ef_ctx callback) e
      | None => mret tt
      end
  end.

(** [for _, callback := range callbacks { callback() }] *)
Fixpoint call_each (callbacks : list thunk) : M unit :=
  match callbacks with
  | [] => mret tt
  | callback :: rest => call callback;; call_each rest
  end.

(** The registry is copied under the lock and the copy is called; the
    registry itself is not assigned. *)
Definition doOnCommittedCallbacks (t : addr) : M unit :=
  h ← get_heap;
  let callbacks := default [] (onCommittedCallbacks <$> h !! t) in
  call_each callbacks.

Definition doOnRollbackedCallbacks (t : addr) : M unit :=
  h ← get_heap;
  let callbacks := default [] (onRollbackedCallbacks <$> h !! t) in
  call_each callbacks.

Definition End (t : option addr) (p : bool) (e : option error) : M unit :=
  match t with
  | None => mret tt
  | Some a =>
      h ← get_heap;
      set_heap (update a (with_result p e) h);;
      h ← get_heap;
      match h !! a with
      | Some n =>
          if negb (isRoot n) then mret tt
          else doOnCommittedCallbacks a;; doOnRollbackedCallbacks a
      | None => mret tt
      end
  end.
End Firing.

End Node.

(** ** [manager] *)

Module Manager.

(** The argument [bind] of the provider's callback, [nil] or a function. *)
Definition bindfn := option (context -> M unit).

Section Manager.
(** The three fields of [manager], given to [NewManager].  A lookup reads
    the routing table: it returns a handle or nil, or panics, and leaves
    the nodes alone. *)
Variable ctxKeyF : context -> key.
Variable lookupDB : context -> outcome (option handle).
Variable transaction :
  context -> handle -> (handle -> bindfn -> M (option error)) -> M (option error).

(** The value bound to [m.ctxKeyF(ctx)], when it is a node pointer; a nil
    value fails the type assertion. *)
Definition findTransContext (ctx : context) : option addr :=
  match Value ctx (ctxKeyF ctx) with
  | VTransContext tc => Some tc
  | _ => None
  end.

Definition InTransaction (ctx : context) : M bool :=
  h ← get_heap; mret (Node.InTransaction h (findTransContext ctx)).

Definition setTransContext (ctx : context) (tc : addr) : context :=
  WithValue ctx (ctxKeyF ctx) (VTransContext tc).

Definition cleanTransContext (h : list transContext) (ctx : context) : context :=
  if negb (Node.InTransaction h (findTransContext ctx)) then ctx
  else WithValue ctx (ctxKeyF ctx) VNil.

(** The user callbacks, called with the context cleaned at the time of
    the call. *)
Definition callCommitted (id : nat) (ctx : context) : M unit :=
  h ← get_heap; emit (EvCommitted id (cleanTransContext h ctx)).

Definition callRollbacked (id : nat) (ctx : context) (e : error) : M unit :=
  h ← get_heap; emit (EvRollbacked id (cleanTransContext h ctx) e).

Definition End : option addr -> bool -> option error -> M unit :=
  Node.End callCommitted callRollbacked.

Definition findDBAndTransContext (ctx : context) : M (option addr * handle) :=
  h ← get_heap;
  let tc := findTransContext ctx in
  if Node.InTransaction h tc then
    match tc ≫= Node.GetTransDB h with
    | Some d => mret (tc, d)
    | None => panic nil_dereference
    end
  else
    d ← resume (lookupDB ctx);
    match d with
    | None => panic (PValue "matching database not found")
    | Some d => mret (None, d)
    end.

(** The closure handed to [m.transaction]; [c] is the cell of the
    captured variables [transCtx] and [ctx]. *)
Definition Transaction_callback (c : nat) (prevTransCtx : option addr)
    (callback : context -> M (option error))
    (d : handle) (bindCtx : bindfn) : M (option error) :=
  transCtx ← Node.Start prevTransCtx d;
  f ← load c;
  let ctx := setTransContext (f_ctx f) transCtx in
  store c (mkFrame (Some transCtx) ctx);;
  match bindCtx with
  | Some bind => bind ctx
  | None => mret tt
  end;;
  callback ctx.

(** The statements of [Transaction] after the [defer]. *)
Definition Transaction_body (c : nat) (ctx : context)
    (callback : context -> M (option error)) : M (option error) :=
  '(prevTransCtx, d) ← findDBAndTransContext ctx;
  e ← transaction ctx d (Transaction_callback c prevTransCtx callback);
  f ← load c;
  End (f_transCtx f) false e;;
  mret e.

(** The deferred function, run with the outcome [r] of the body. *)
Definition Transaction_deferred {A : Type} (c : nat) (r : outcome A) : M A :=
  f ← load c;
  match f_transCtx f with
  | None => resume r
  | Some transCtx =>
      h ← get_heap;
      set_heap (update transCtx (with_done true) h);;
      h ← get_heap;
      if bool_decide (length (default [] (onRollbackedCallbacks <$> h !! transCtx)) <= 0)
      then resume r
      else
        match r with
        | Panicked e =>
            End (Some transCtx) true (Some (recovered e));;
            panic e
        | Normal a => mret a
        end
  end.

Definition Transaction (ctx : context) (callback : context -> M (option error))
    : M (option error) :=
  c ← new_cell (mkFrame None ctx);
  r ← observe (Transaction_body c ctx callback);
  Transaction_deferred c r.

Definition MustTransaction (ctx : context) (callback : context -> M unit) : M unit :=
  e ← Transaction ctx (fun ctx => callback ctx;; mret None);
  match e with
  | Some e => panic (PError e)
  | None => mret tt
  end.

Definition EscapeTransaction (ctx : context) (callback : context -> M (option error))
    : M (option error) :=
  h ← get_heap; callback (cleanTransContext h ctx).

Definition OnCommitted (ctx : context) (callback : nat) : M bool :=
  h ← get_heap;
  let transCtx := findTransContext ctx in
  if negb (Node.InTransaction h transCtx) then mret false
  else
    match transCtx with
    | Some t => Node.OnCommitted t (CallUser callback ctx);; mret true
    | None => panic nil_dereference
    end.

Definition OnRollbacked (ctx : context) (callback : nat) : M bool :=
  match findTransContext ctx with
  | None => mret false
  | Some t => Node.OnRollbacked t (ErrFn callback ctx);; mret true
  end.
End Manager.

End Manager.

(** ** [TransProvider] of package [db] *)

Module Provider.

Section Provider.
(** The [Source]: the router of write and read databases. *)
Variable writeDBName : context -> string.
Variable writeDB : context -> option handle.
Variable readDB : context -> option handle.
Variable txSuffix : string.
(** What the driver answers when a physical transaction is begun or
    committed on a handle. *)
Variable beginErr : handle -> option error.
Variable commitErr : handle -> option error.

Definition getCtxKey (ctx : context) : key :=
  TransCtxKey (writeDBName ctx +:+ "." +:+ txSuffix).

(** [p.getWriteDB(ctx).Clauses(dbresolver.Write)] dereferences the
    handle: a router that finds no database makes it panic. *)
Definition lookupDB (ctx : context) (write : bool) : outcome (option handle) :=
  if write then
    match writeDB ctx with
    | Some d => Normal (Some d)
    | None => Panicked nil_dereference
    end
  else Normal (readDB ctx).

Definition isInTransaction (ctx : context) : M bool :=
  h ← get_heap;
  match Value ctx (getCtxKey ctx) with
  | VTransContext tc => mret (Node.InTransaction h (Some tc))
  | _ => mret false
  end.

(** [db.Statement.Context = ctx] *)
Definition bindCtx (d : handle) (ctx : context) : M unit := emit (EvBind d ctx).

Definition name_of (d : handle) : string :=
  match d with
  | Pool n => n
  | Tx n => n
  end.

(** [gorm.DB.Transaction] of the external gorm library, on a handle
    that is not yet in a physical transaction: begin, run [fc] on the
    new handle, commit when it returns nil; roll back when it returns an
    error, panics, or the commit fails. *)
Definition gorm_Transaction (d : handle) (fc : handle -> M (option error))
    : M (option error) :=
  match beginErr d with
  | Some e => emit (EvBeginFailed d e);; mret (Some e)
  | None =>
      emit (EvBegin d);;
      let tx := Tx (name_of d) in
      r ← observe (fc tx);
      match r with
      | Normal None =>
          match commitErr tx with
          | None => emit (EvCommit tx);; mret None
          | Some e => emit (EvCommitFailed tx e);; emit (EvRollback tx);; mret (Some e)
          end
      | Normal (Some e) => emit (EvRollback tx);; mret (Some e)
      | Panicked v => emit (EvRollback tx);; panic v
      end
  end.

Definition transaction (ctx : context) (d : handle)
    (callback : handle -> Manager.bindfn -> M (option error)) : M (option error) :=
  b ← isInTransaction ctx;
  if b : bool then callback d (Some (bindCtx d))
  else gorm_Transaction d (fun d => callback d (Some (bindCtx d))).

(** [p.Manager = transaction.NewManager(p.getCtxKey, lookupDB, p.transaction)] *)
Definition InTransaction : context -> M bool :=
  Manager.InTransaction getCtxKey.

Definition Transaction : context -> (context -> M (option error)) -> M (option error) :=
  Manager.Transaction getCtxKey (fun ctx => lookupDB ctx true) transaction.

Definition EscapeTransaction : context -> (context -> M (option error)) -> M (option error) :=
  Manager.EscapeTransaction getCtxKey.

Definition OnCommitted : context -> nat -> M bool :=
  Manager.OnCommitted getCtxKey.

Definition OnRollbacked : context -> nat -> M bool :=
  Manager.OnRollbacked getCtxKey.
End Provider.

End Provider.

(** ** Client code of the manager *)

Module Client.

(** What a callback given to [Transaction] does with the manager: return,
    panic, register callbacks, ask [InTransaction], open a nested
    transaction and go on with the error it returned. *)
Inductive prog :=
  | Ret (e : option error)
  | Panic (v : payload)
  | OnCommitted (id : nat) (k : prog)
  | OnRollbacked (id : nat) (k : prog)
  | Probe (k : prog)
  | Nested (body : prog) (k : option error -> prog).

Section Run.
Variable ctxKeyF : context -> key.
Variable lookupDB : context -> outcome (option handle).
Variable transaction :
  context -> handle -> (handle -> Manager.bindfn -> M (option error)) -> M (option error).

Fixpoint probe (ctxs : list context) : M (list bool) :=
  match ctxs with
  | [] => mret []
  | ctx :: rest =>
      b ← Manager.InTransaction ctxKeyF ctx;
      bs ← probe rest;
      mret (b :: bs)
  end.

(** The contexts the client was handed since the outermost call, whose
    cell is [c0]: the [ctx] variables of the calls made since then,
    whether they are still running or not. *)
Definition handed (c0 : nat) : M (list context) :=
  fun s => (Normal (f_ctx <$> drop c0 (cells s)), s).

(** [run p c0 ctx]: the callback [p] called with [ctx].  A probe asks
    [InTransaction] for every context handed to the client so far. *)
Fixpoint run (p : prog) (c0 : nat) (ctx : context) : M (option error) :=
  match p with
  | Ret e => mret e
  | Panic v => panic v
  | OnCommitted id k => Manager.OnCommitted ctxKeyF ctx id;; run k c0 ctx
  | OnRollbacked id k => Manager.OnRollbacked ctxKeyF ctx id;; run k c0 ctx
  | Probe k => ctxs ← handed c0; bs ← probe ctxs; emit (EvProbe bs);; run k c0 ctx
  | Nested body k =>
      e ← Manager.Transaction ctxKeyF lookupDB transaction ctx (run body c0);
      run (k e) c0 ctx
  end.

(** The outermost call. *)
Definition main (ctx : context) (p : prog) : M (option error) :=
  fun s => Manager.Transaction ctxKeyF lookupDB transaction ctx
             (run p (length (cells s))) s.
End Run.

End Client.


(** ** Package [db]: sources *)

Module Source.

(** The struct [source]: the names and the handles of the write and the
    read database, as functions of the context.  A handle may be nil. *)
Record source := mkSource {
  writeDBName : context -> string;
  writeDB : context -> option handle;
  readDBName : context -> string;
  readDB : context -> option handle
}.

Definition NewWriteReadSourceWithFunc
    (writeDBName : context -> string) (writeDB : context -> option handle)
    (readDBName : context -> string) (readDB : context -> option handle) : source :=
  mkSource writeDBName writeDB readDBName readDB.

Definition NewSourceWithFunc
    (name : context -> string) (db : context -> option handle) : source :=
  mkSource name db name db.

Definition NewWriteReadSource
    (writeDBName : string) (writeDB : option handle)
    (readDBName : string) (readDB : option handle) : source :=
  NewWriteReadSourceWithFunc
    (fun _ => writeDBName) (fun _ => writeDB) (fun _ => readDBName) (fun _ => readDB).

Definition NewSource (name : string) (db : option handle) : source :=
  NewWriteReadSource name db name db.

Definition getWriteDBName (s : source) (ctx : context) : string := writeDBName s ctx.

Definition getWriteDB (s : source) (ctx : context) : option handle := writeDB s ctx.

Definition getReadDBName (s : source) (ctx : context) : string := readDBName s ctx.

Definition getReadDB (s : source) (ctx : context) : option handle := readDB s ctx.

End Source.

(** ** Package [db]: options *)

Definition ErrWriteDBNotConfigured : error := "write database not configured".

(** A call that returns a value and an error is a sum: the callers here
    look at the value only when the error is nil. *)

Module Options.

Record t := mk {
  Host : string;
  Port : Z;
  DBName : string;
  UserName : string;
  Password : string;
  TimeoutInMills : N;
  ReadTimeoutInMills : N;
  WriteTimeoutInMills : N;
  MaxIdleConns : N;
  MaxOpenConns : N
}.

Section Open.
(** [gorm.Dialector] and [gorm.Config] values, the [Dialector] function
    given by the caller, [gorm.Open] and the empty [gorm.Config]. *)
Context {Dialector Config : Type}.
Variable dial : t -> Dialector + error.
Variable gorm_Open : Dialector -> Config -> handle + error.
Variable empty_Config : Config.

Definition openDB (o : t) : Dialector + error :=
  match dial o with
  | inr err => inr err
  | inl dl => inl dl
  end.

Definition OpenDB (o : t) (config : option Config) : handle + error :=
  let config := default empty_Config config in
  match openDB o with
  | inr err => inr err
  | inl dl => gorm_Open dl config
  end.
End Open.

(** [fmt.Sprintf] with the verbs [%s:%d/%s]; the receiver may be nil. *)
Definition fullName (o : option t) : string :=
  match o with
  | None => ""
  | Some o => Host o +:+ ":" +:+ pretty (Port o) +:+ "/" +:+ DBName o
  end.

Definition ToSource {Dialector Config : Type}
    (dial : t -> Dialector + error) (gorm_Open : Dialector -> Config -> handle + error)
    (empty_Config : Config) (o : t) (config : option Config) : Source.source + error :=
  match OpenDB dial gorm_Open empty_Config o config with
  | inr err => inr err
  | inl db => inl (Source.NewSource (fullName (Some o)) (Some db))
  end.

End Options.

Module RWOptions.

Record t := mk {
  Write : option Options.t;
  Read : option Options.t
}.

Section Open.
Context {Dialector Config : Type}.
Variable dial : Options.t -> Dialector + error.
Variable gorm_Open : Dialector -> Config -> handle + error.
Variable empty_Config : Config.
(** [db.Use] of the resolver plugin registered with the given replicas:
    the error it returns.  The handle stays the same object. *)
Variable Use : handle -> list Dialector -> option error.

Definition OpenDB (o : t) (config : option Config) : handle + error :=
  match Write o with
  | None => inr ErrWriteDBNotConfigured
  | Some w =>
      match Options.OpenDB dial gorm_Open empty_Config w config with
      | inr err => inr err
      | inl db =>
          match Read o with
          | None => inl db
          | Some r =>
              match Options.openDB dial r with
              | inr err => inr err
              | inl rd =>
                  match Use db [rd] with
                  | Some err => inr err
                  | None => inl db
                  end
              end
          end
      end
  end.
End Open.

End RWOptions.

(** [dbs[namef(ctx)]]: nil when the map has no such key. *)
Definition RouteWithKey (dbs : gmap string handle) (namef : context -> string)
    : context -> option handle :=
  fun ctx => dbs !! namef ctx.

Module MultiRWOptions.

(** [map[string]*RWOptions]: a key may be bound to nil. *)
Definition t := gmap string (option RWOptions.t).

Section Open.
Context {Dialector Config : Type}.
Variable dial : Options.t -> Dialector + error.
Variable gorm_Open : Dialector -> Config -> handle + error.
Variable empty_Config : Config.
Variable Use : handle -> list Dialector -> option error.
(** The entries of a map in the order a [range] loop visits them, which
    Go leaves open. *)
Variable range : t -> list (string * option RWOptions.t).

(** The loop of [OpenDBs] on the entries still to visit. *)
Fixpoint OpenDBs_loop (entries : list (string * option RWOptions.t))
    (config : option Config) (dbs : gmap string handle) : gmap string handle + error :=
  match entries with
  | [] => inl dbs
  | (key, opt) :: rest =>
      match opt with
      | None => OpenDBs_loop rest config dbs
      | Some opt =>
          match RWOptions.OpenDB dial gorm_Open empty_Config Use opt config with
          | inr err => inr err
          | inl db => OpenDBs_loop rest config (<[key := db]> dbs)
          end
      end
  end.

Definition OpenDBs (o : t) (config : option Config) : gmap string handle + error :=
  OpenDBs_loop (range o) config ∅.

Definition ToSource (o : t) (config : option Config) (router : context -> string)
    : Source.source + error :=
  match OpenDBs o config with
  | inr err => inr err
  | inl dbs => inl (Source.NewSourceWithFunc router (RouteWithKey dbs router))
  end.
End Open.

End MultiRWOptions.

(** ** [TransProvider]: construction and the methods on it *)

Module TransProvider.

Record t := mk {
  Source : Source.source;
  txSuffix : string;
  scopes : list (handle -> handle)
}.

(** [txSuffix] is [strconv.FormatInt(rand.Int63(), 10)]: the decimal
    digits of the number [rnd] that was drawn. *)
Definition NewProvider (source : Source.source) (scopes : list (handle -> handle))
    (rnd : N) : t :=
  mk source (pretty rnd) scopes.

Definition getCtxKey (p : t) : context -> key :=
  Provider.getCtxKey (Source.getWriteDBName (Source p)) (txSuffix p).

Definition lookupDB (p : t) : context -> bool -> outcome (option handle) :=
  Provider.lookupDB (Source.getWriteDB (Source p)) (Source.getReadDB (Source p)).

(** The handle of the transaction [ctx] is in, or nil. *)
Definition findTransDB (p : t) (ctx : context) : M (option handle) :=
  h ← get_heap;
  match Value ctx (getCtxKey p ctx) with
  | VTransContext tc =>
      if Node.InTransaction h (Some tc) then
        match Node.GetTransDB h tc with
        | Some d => mret (Some d)
        | None => panic nil_dereference
        end
      else mret None
  | _ => mret None
  end.

Definition isInTransaction (p : t) : context -> M bool :=
  Provider.isInTransaction (Source.getWriteDBName (Source p)) (txSuffix p).

Section Driver.
Variable beginErr commitErr : handle -> option error.

Definition transaction (p : t)
    : context -> handle -> (handle -> Manager.bindfn -> M (option error))
      -> M (option error) :=
  Provider.transaction (Source.getWriteDBName (Source p)) (txSuffix p) beginErr commitErr.

(** The methods of the embedded [Manager]. *)
Definition Transaction (p : t) : context -> (context -> M (option error)) -> M (option error) :=
  Manager.Transaction (getCtxKey p) (fun ctx => lookupDB p ctx true) (transaction p).

Definition MustTransaction (p : t) : context -> (context -> M unit) -> M unit :=
  Manager.MustTransaction (getCtxKey p) (fun ctx => lookupDB p ctx true) (transaction p).
End Driver.

End TransProvider.

(** ** Package [main] *)

Module Main.

Definition DriverName : string := "drive_name".

Definition Charset : string := "utf8mb4".

(** [time.Duration]: nanoseconds in a 64-bit signed integer. *)
Definition Millisecond : Z := 1000000.

Definition Second : Z := 1000000000.

(** The value of a 64-bit signed integer after wrap-around. *)
Definition int64 (z : Z) : Z := (z + 2 ^ 63) `mod` 2 ^ 64 - 2 ^ 63.

Definition DefaultTimeout : Z := 100 * Millisecond.

Definition DefaultReadTimeout : Z := 2 * Second.

Definition DefaultWriteTimeout : Z := 5 * Second.

(** [time.Duration(ms) * time.Millisecond] for [ms] of type [uint]. *)
Definition millis (ms : N) : Z := int64 (int64 (Z.of_N ms) * Millisecond).

Definition getTimeout (opts : Options.t) : Z :=
  if bool_decide (0 < Options.TimeoutInMills opts)%N
  then millis (Options.TimeoutInMills opts)
  else DefaultTimeout.

Definition getReadTimeout (opts : Options.t) : Z :=
  if bool_decide (0 < Options.ReadTimeoutInMills opts)%N
  then millis (Options.ReadTimeoutInMills opts)
  else DefaultReadTimeout.

Definition getWriteTimeout (opts : Options.t) : Z :=
  if bool_decide (0 < Options.WriteTimeoutInMills opts)%N
  then millis (Options.WriteTimeoutInMills opts)
  else DefaultWriteTimeout.

(** [fmt.Sprintf] with the verbs [%s.%s]. *)
Definition getDBKey (techID bussID : string) : string := techID +:+ "." +:+ bussID.

(** [Configs] and [MysqlProviderParams]: the options by [techID], then
    by [bussID]. *)
Record Configs := mkConfigs {
  Mysql : gmap string MultiRWOptions.t
}.

Record MysqlProviderParams := mkParams {
  Conf : Configs
}.

Section Provider.
Context {Dialector Config : Type}.
(** [time.Duration.String] and [mysql.New] on a driver name and a DSN. *)
Variable Duration_String : Z -> string.
Variable mysql_New : string -> string -> Dialector.
Variable gorm_Open : Dialector -> Config -> handle + error.
Variable empty_Config : Config.
Variable Use : handle -> list Dialector -> option error.
(** The orders in which the maps are ranged over: the flattened options
    by [OpenDBs], the configuration by the outer loop, and the options of
    each [techID] by the inner loop. *)
Variable range : MultiRWOptions.t -> list (string * option RWOptions.t).
Variable range_techs :
  gmap string MultiRWOptions.t -> list (string * MultiRWOptions.t).
Variable range_buss : string -> MultiRWOptions.t -> list (string * option RWOptions.t).
(** The number [rand.Int63] returns to [NewProvider]. *)
Variable rnd : N.

Definition toTcpDSN (opts : Options.t) : string :=
  Options.UserName opts +:+ ":" +:+ Options.Password opts +:+ "@tcp("
  +:+ Options.Host opts +:+ ":" +:+ pretty (Options.Port opts) +:+ ")/"
  +:+ Options.DBName opts +:+ "?charset=" +:+ Charset
  +:+ "&parseTime=true&loc=Local&timeout=" +:+ Duration_String (getTimeout opts)
  +:+ "&readTimeout=" +:+ Duration_String (getReadTimeout opts)
  +:+ "&writeTimeout=" +:+ Duration_String (getWriteTimeout opts).

Definition MyDialector (opts : Options.t) : Dialector + error :=
  inl (mysql_New DriverName (toTcpDSN opts)).

(** The inner loop: the options of one [techID] are assigned to
    [mysqlOpts]. *)
Definition mysqlOpts_buss (techID : string) (opts : list (string * option RWOptions.t))
    (mysqlOpts : MultiRWOptions.t) : MultiRWOptions.t :=
  foldl (fun m '(bussID, opt) => <[getDBKey techID bussID := opt]> m) mysqlOpts opts.

(** The variable [mysqlOpts] after the two loops. *)
Definition mysqlOpts (params : MysqlProviderParams) : MultiRWOptions.t :=
  foldl (fun m '(techID, opts) => mysqlOpts_buss techID (range_buss techID opts) m) ∅
    (range_techs (Mysql (Conf params))).

Definition router (ctx : context) : string := getDBKey "main" "default".

(** The scope given to [NewProvider] sets [PrepareStmt] in the handle
    and returns the same handle. *)
Definition newTransProvider (params : MysqlProviderParams) : outcome TransProvider.t :=
  match MultiRWOptions.ToSource MyDialector gorm_Open empty_Config Use range
          (mysqlOpts params) None router with
  | inr err => Panicked (PError err)
  | inl source => Normal (TransProvider.NewProvider source [fun g => g] rnd)
  end.

Definition NewTransProvider (params : MysqlProviderParams) : outcome TransProvider.t :=
  newTransProvider params.

Definition ToTransactionManager (tp : TransProvider.t) : TransProvider.t := tp.

Section Driver.
Variable beginErr commitErr : handle -> option error.

(** The body of [main] for the parameters [params]. *)
Definition run (params : MysqlProviderParams) : M unit :=
  provider ← resume (NewTransProvider params);
  let tm := ToTransactionManager provider in
  let ctx : context := [] in
  TransProvider.MustTransaction beginErr commitErr tm ctx (fun _ => mret tt).

(** [main] is written with an empty [Configs]. *)
Definition main : M unit := run (mkParams (mkConfigs ∅)).
End Driver.
End Provider.

End Main.
(** * Properties *)

(** ** Derived notions used in the statements *)

Section Derived.
Variable ctxKeyF : context -> key.

(** The events a registered closure produces when called on store [h]:
    [Node.call] only reads the store and appends these to the trace
    ([call_fire] below). *)
Fixpoint fire (h : list transContext) (f : thunk) : list event :=
  match f with
  | CallUser id ctx => [EvCommitted id (Manager.cleanTransContext ctxKeyF h ctx)]
  | IfCommitted t callback =>
      if Node.isCommitted h (Some t) then fire h callback else []
  | IfRollbacked t callback =>
      match Node.isRollbacked h (Some t) with
      | Some e => [EvRollbacked (ef_id callback)
                     (Manager.cleanTransContext ctxKeyF h (ef_ctx callback)) e]
      | None => []
      end
  end.

Definition fire_each (h : list transContext) (callbacks : list thunk) : list event :=
  flat_map (fire h) callbacks.
End Derived.

(** Which user callbacks a trace shows as called. *)
Definition committed_of (e : event) : option nat :=
  match e with
  | EvCommitted id _ => Some id
  | _ => None
  end.

Definition rollbacked_of (e : event) : option (nat * error) :=
  match e with
  | EvRollbacked id _ err => Some (id, err)
  | _ => None
  end.

Definition probe_of (e : event) : option (list bool) :=
  match e with
  | EvProbe inside => Some inside
  | _ => None
  end.

Definition fired_committed (tr : list event) : list nat := omap committed_of tr.

Definition fired_rollbacked (tr : list event) : list (nat * error) := omap rollbacked_of tr.

(** What [gorm.DB.Transaction] returns and logs once [fc] has returned [r]. *)
Definition gorm_outcome (commitErr : handle -> option error) (tx : handle)
    (r : option error) : option error * list event :=
  match r with
  | Some e => (Some e, [EvRollback tx])
  | None =>
      match commitErr tx with
      | None => (None, [EvCommit tx])
      | Some e => (Some e, [EvCommitFailed tx e; EvRollback tx])
      end
  end.


(** ** Runs in which every callback returns nil *)

Fixpoint all_nil (p : Client.prog) : Prop :=
  match p with
  | Client.Ret e => e = None
  | Client.Panic _ => False
  | Client.OnCommitted _ k => all_nil k
  | Client.OnRollbacked _ k => all_nil k
  | Client.Probe k => all_nil k
  | Client.Nested body k => all_nil body /\ all_nil (k None)
  end.

(** The commit callbacks such a run registers, in the order of the calls
    to [OnCommitted]. *)
Fixpoint committed_ids (p : Client.prog) : list nat :=
  match p with
  | Client.Ret _ => []
  | Client.Panic _ => []
  | Client.OnCommitted id k => id :: committed_ids k
  | Client.OnRollbacked _ k => committed_ids k
  | Client.Probe k => committed_ids k
  | Client.Nested body k => committed_ids body ++ committed_ids (k None)
  end.

(** ** Stores built by [Start] *)

(** Every parent was allocated before its child. *)
Definition ordered (h : list transContext) : Prop :=
  forall a n p, h !! a = Some n -> parent n = Some p -> p < a.

(** ** The tree of one root *)

(** A chain of [IfCommitted] tests around a user callback, all on nodes
    with addresses in [lo, hi). *)
Fixpoint guards (lo hi : addr) (f : thunk) : Prop :=
  match f with
  | CallUser _ _ => True
  | IfCommitted t callback => (lo <= t /\ t < hi) /\ guards lo hi callback
  | IfRollbacked _ _ => False
  end.

Fixpoint thunk_id (f : thunk) : nat :=
  match f with
  | CallUser id _ => id
  | IfCommitted _ callback => thunk_id callback
  | IfRollbacked _ callback => ef_id callback
  end.

Definition clean (n : transContext) : Prop := panicked n = false /\ err n = None.

Definition clean_from (a0 : addr) (h : list transContext) : Prop :=
  forall a n, a0 <= a -> h !! a = Some n -> clean n.

(** Events of client code inside a transaction that goes well: handles
    are bound, and every probe answers true for every context. *)
Definition quiet (e : event) : Prop :=
  match e with
  | EvBind _ _ => True
  | EvProbe inside => Forall (eq true) inside
  | _ => False
  end.

Section Invariants.
Variable ctxKeyF : context -> key.

(** [ctx] carries a node of the tree rooted at [r]. *)
Definition inside (r : addr) (h : list transContext) (ctx : context) : Prop :=
  exists t, Manager.findTransContext ctxKeyF ctx = Some t /\ r <= t /\ t < length h.

(** From address [r] on, the store is the tree of the root [r]: every
    later node has its parent in the tree and empty registries, and the
    registries of the root hold closures built on the root. *)
Record tree (r : addr) (h : list transContext) : Prop := mkTree {
  tree_root : exists n ks efs,
    h !! r = Some n /\ parent n = None /\
    onCommittedCallbacks n = map (IfCommitted r) ks /\
    Forall (guards r (length h)) ks /\
    onRollbackedCallbacks n = map (IfRollbacked r) efs;
  tree_desc : forall a n, r < a -> h !! a = Some n ->
    (exists p, parent n = Some p /\ r <= p /\ p < a) /\
    onCommittedCallbacks n = [] /\ onRollbackedCallbacks n = []
}.

Definition active (r : addr) (h : list transContext) : Prop :=
  exists n, h !! r = Some n /\ done n = false.

(** What client code running inside the tree of [r] may do to the
    state: add nodes, cells and quiet events, and add entries to the
    registries of the root. *)
Record grows (r : addr) (s s' : state) : Prop := mkGrows {
  grows_len : length (heap s) <= length (heap s');
  grows_old : forall a, a < length (heap s) -> a <> r -> heap s' !! a = heap s !! a;
  grows_root : forall n, heap s !! r = Some n ->
    exists cs rs,
      heap s' !! r
      = Some (with_onCommitted (onCommittedCallbacks n ++ cs)
                (with_onRollbacked (onRollbackedCallbacks n ++ rs) n));
  grows_cells : exists fs,
    cells s' = cells s ++ fs /\ Forall (fun f => inside r (heap s') (f_ctx f)) fs;
  grows_trace : exists evs, trace s' = trace s ++ evs /\ Forall quiet evs
}.

(** The commit registry of the root gained closures for exactly the
    user callbacks [ids], in this order. *)
Definition registered (r : addr) (s s' : state) (ids : list nat) : Prop :=
  exists ks, map thunk_id ks = ids /\
    forall n, heap s !! r = Some n ->
      exists n', heap s' !! r = Some n' /\
        onCommittedCallbacks n' = onCommittedCallbacks n ++ map (IfCommitted r) ks.
End Invariants.

(** ** A provider to run the code on *)

Module Demo.

(** One database, [main], whatever the context. *)
Definition router (ctx : context) : string := "main".

Definition pool (ctx : context) : option handle := Some (Pool "main").

Definition suffix : string := "42".

(** Drivers: one that never fails, one that always fails with [e]. *)
Definition never (d : handle) : option error := None.

Definition always (e : error) (d : handle) : option error := Some e.

Definition ctxKey : context -> key := Provider.getCtxKey router suffix.

Definition lookup (ctx : context) : outcome (option handle) :=
  Provider.lookupDB pool pool ctx true.

Definition Transaction (beginErr commitErr : handle -> option error)
    : context -> (context -> M (option error)) -> M (option error) :=
  Provider.Transaction router pool pool suffix beginErr commitErr.

Definition provider (beginErr commitErr : handle -> option error)
    : context -> handle -> (handle -> Manager.bindfn -> M (option error))
      -> M (option error) :=
  Provider.transaction router suffix beginErr commitErr.

Definition run (beginErr commitErr : handle -> option error)
    : Client.prog -> nat -> context -> M (option error) :=
  Client.run ctxKey lookup (provider beginErr commitErr).

Definition main (beginErr commitErr : handle -> option error)
    : context -> Client.prog -> M (option error) :=
  Client.main ctxKey lookup (provider beginErr commitErr).

(** [context.Background()] and the state before anything ran. *)
Definition background : context := [].

Definition start : state := mkState [] [] [].

(** The context the outermost callback receives, and the one a callback
    nested in it receives. *)
Definition ctx1 : context := [(TransCtxKey "main.42", VTransContext 0)].

Definition ctx2 : context := (TransCtxKey "main.42", VTransContext 1) :: ctx1.

(** A nested callback registers a rollback callback and returns an error,
    which the outer callback drops. *)
Definition nested_error_dropped : Client.prog :=
  Client.Nested (Client.OnRollbacked 7 (Client.Ret (Some "E1")))
    (fun _ => Client.Ret None).

(** The same nested callback, under an outer callback that returns an
    error of its own. *)
Definition nested_error_replaced : Client.prog :=
  Client.Nested (Client.OnRollbacked 7 (Client.Ret (Some "E1")))
    (fun _ => Client.Ret (Some "E2")).


(** A callback that registers a rollback callback and panics. *)
Definition register_and_panic : Client.prog :=
  Client.OnRollbacked 1 (Client.OnCommitted 2 (Client.Panic (PValue "boom"))).

(** Both kinds of callback registered, everything returns nil. *)
Definition register_both : Client.prog :=
  Client.OnCommitted 1 (Client.OnRollbacked 2 (Client.Ret None)).

(** [n] calls nested in the outermost one; each level registers a commit
    callback named after its depth and probes before and after the call
    it nests. *)
Fixpoint tower (n : nat) : Client.prog :=
  match n with
  | 0 => Client.OnCommitted 0 (Client.Probe (Client.Ret None))
  | S m =>
      Client.OnCommitted n
        (Client.Probe (Client.Nested (tower m) (fun e => Client.Probe (Client.Ret e))))
  end.

(** The state inside the outermost callback, after it registered one
    rollback callback. *)
Definition in_root : state :=
  mkState
    [mkTransContext [] [IfRollbacked 0 (ErrFn 1 ctx1)] None (Tx "main") false true None]
    [mkFrame (Some 0) ctx1]
    [EvBegin (Pool "main"); EvBind (Tx "main") ctx1].

(** The state after a transaction that was opened with [ctx1] has ended
    with a commit. *)
Definition ended : state :=
  mkState [mkTransContext [] [] None (Tx "main") true false None]
    [mkFrame (Some 0) ctx1]
    [EvBegin (Pool "main"); EvBind (Tx "main") ctx1; EvCommit (Tx "main")].

(** The root as the outermost callback leaves it when it has registered
    the rollback callback 1 and the commit callback 2: not yet ended. *)
Definition panic_root : transContext :=
  mkTransContext [IfCommitted 0 (CallUser 2 ctx1)] [IfRollbacked 0 (ErrFn 1 ctx1)]
    None (Tx "main") false true None.

(** A lookup that routes nothing. *)
Definition no_lookup (ctx : context) : outcome (option handle) := Normal None.

Definition ok (ctx : context) : M (option error) := mret None.

End Demo.

(** ** Notions used in the statements about whole runs *)

(** The context a user callback was called with. *)
Definition event_ctx (e : event) : option context :=
  match e with
  | EvCommitted _ ctx => Some ctx
  | EvRollbacked _ ctx _ => Some ctx
  | _ => None
  end.

(** Calls of user commit and rollback callbacks. *)
Definition is_callback (e : event) : Prop :=
  match e with
  | EvCommitted _ _ => True
  | EvRollbacked _ _ _ => True
  | _ => False
  end.

(** Events of client code that runs on the handle [d]: every context is
    bound to [d]; nothing is begun, committed or rolled back and no
    callback is called. *)
Definition bound_to (d : handle) (e : event) : Prop :=
  match e with
  | EvBind d' _ => d' = d
  | EvProbe _ => True
  | _ => False
  end.

(** Every node from address [r] on holds the handle [d]. *)
Definition shares (r : addr) (d : handle) (h : list transContext) : Prop :=
  forall a n, r <= a -> h !! a = Some n -> db n = d.

(** The root above a node: the end of its chain of parents. *)
Fixpoint root_fuel (fuel : nat) (h : list transContext) (t : addr) : option addr :=
  match fuel, h !! t with
  | S fuel', Some n =>
      match parent n with
      | None => Some t
      | Some p => root_fuel fuel' h p
      end
  | _, _ => None
  end.

Definition root_of (h : list transContext) (t : addr) : option addr :=
  root_fuel (length h) h t.

(** The nodes from [t] up to its root, [t] first. *)
Fixpoint chain_fuel (fuel : nat) (h : list transContext) (t : addr)
    : list transContext :=
  match fuel, h !! t with
  | S fuel', Some n =>
      n :: match parent n with
           | None => []
           | Some p => chain_fuel fuel' h p
           end
  | _, _ => []
  end.

Definition chain (h : list transContext) (t : addr) : list transContext :=
  chain_fuel (length h) h t.

(** [ordered], as a test: the nodes of [h] are at addresses [a], [a + 1], ... *)
Fixpoint ordered_from (a : addr) (h : list transContext) : bool :=
  match h with
  | [] => true
  | n :: rest =>
      match parent n with
      | Some p => bool_decide (p < a)
      | None => true
      end && ordered_from (S a) rest
  end.

(** Stores and contexts to evaluate the walks on. *)
Module Example.

(** A committed root and a nested node that ended with the error [E1]. *)
Definition two_nodes : list transContext :=
  [mkTransContext [] [] None (Tx "main") false false None;
   mkTransContext [] [] (Some 0) (Tx "main") true false (Some "E1")].

(** A world to open databases in: a dialector is the host or the DSN it
    dials, the host [down] refuses connections, and the maps are ranged
    over in the order of [map_to_list]. *)
Definition dial (o : Options.t) : string + error := inl (Options.Host o).

Definition gorm_Open (dl : string) (config : unit) : handle + error :=
  if decide (dl = "down") then inr "connection refused" else inl (Pool dl).

Definition Use (d : handle) (replicas : list string) : option error := None.

Definition options (host : string) : Options.t :=
  Options.mk host 3306 "app" "user" "secret" 0 250 0 0 0.

Definition primary : RWOptions.t := RWOptions.mk (Some (options "db1")) None.

Definition configured : MultiRWOptions.t :=
  {[ "main.default" := Some primary; "spare" := None ]}.

Definition params : Main.MysqlProviderParams :=
  Main.mkParams (Main.mkConfigs {[ "main" := {[ "default" := Some primary ]} ]}).

Definition router (ctx : context) : string := "main.default".

Definition OpenDB : RWOptions.t -> option unit -> handle + error :=
  RWOptions.OpenDB dial gorm_Open () Use.

Definition OpenDBs : MultiRWOptions.t -> option unit -> gmap string handle + error :=
  MultiRWOptions.OpenDBs dial gorm_Open () Use map_to_list.

Definition source : Source.source :=
  Source.NewSourceWithFunc router (RouteWithKey {[ "main.default" := Pool "db1" ]} router).

Definition provider : TransProvider.t := TransProvider.NewProvider source [] 7.

(** The source [Options.ToSource] makes from [options "db1"]. *)
Definition single : Source.source := Source.NewSource "db1:3306/app" (Some (Pool "db1")).

(** The same databases behind a router that names a key bound to nil. *)
Definition spare_router (ctx : context) : string := "spare".

Definition spare_source : Source.source :=
  Source.NewSourceWithFunc spare_router
    (RouteWithKey {[ "main.default" := Pool "db1" ]} spare_router).

Definition spare_provider : TransProvider.t := TransProvider.NewProvider spare_source [] 7.

Definition nanoseconds (d : Z) : string := pretty d +:+ "ns".

Definition mysql_New (driver dsn : string) : string := dsn.

Definition mysqlOpts : Main.MysqlProviderParams -> MultiRWOptions.t :=
  Main.mysqlOpts map_to_list (fun _ => map_to_list).

Definition run : Main.MysqlProviderParams -> M unit :=
  Main.run nanoseconds mysql_New gorm_Open () Use map_to_list map_to_list
    (fun _ => map_to_list) 7 Demo.never Demo.never.

Definition main : M unit :=
  Main.main nanoseconds mysql_New gorm_Open () Use map_to_list map_to_list
    (fun _ => map_to_list) 7 Demo.never Demo.never.

(** The DSN [toTcpDSN] makes from [options "db1"], and the provider the
    program makes from [params]. *)
Definition dsn : string :=
  "user:secret@tcp(db1:3306)/app?charset=utf8mb4&parseTime=true&loc=Local"
  +:+ "&timeout=100000000ns&readTimeout=250000000ns&writeTimeout=5000000000ns".

Definition made : TransProvider.t :=
  TransProvider.NewProvider
    (Source.NewSourceWithFunc Main.router
       (RouteWithKey {[ "main.default" := Pool dsn ]} Main.router))
    [fun g => g] 7.

End Example.

(** ** Strings without a dot *)

Fixpoint dot_free (s : string) : bool :=
  match s with
  | EmptyString => true
  | String c rest => negb (String.eqb (String c "") ".") && dot_free rest
  end.

(** ** Registries that lose no entry *)

(** Every node of [h] is still there in [h'], and each of its two
    registries begins with the entries it held in [h]. *)
Definition kept (h h' : list transContext) : Prop :=
  forall a n, h !! a = Some n ->
    exists n', h' !! a = Some n' /\
      onCommittedCallbacks n `prefix_of` onCommittedCallbacks n' /\
      onRollbackedCallbacks n `prefix_of` onRollbackedCallbacks n'.

(** A computation that, however it ends, leaves a store in which the
    registries have lost no entry. *)
Definition keeps {A : Type} (m : M A) : Prop :=
  forall s, kept (heap s) (heap (m s).2).

(** ** Places in a client program *)

(** A place that is reached whenever the program is run inside a
    transaction: after registrations and probes, and inside the callbacks
    of nested calls. *)
Inductive place :=
  | Here
  | AfterOnCommitted (id : nat) (E : place)
  | AfterOnRollbacked (id : nat) (E : place)
  | AfterProbe (E : place)
  | InNested (E : place) (k : option error -> Client.prog).

(** The program that runs [q] at the place [E]. *)
Fixpoint plug (E : place) (q : Client.prog) : Client.prog :=
  match E with
  | Here => q
  | AfterOnCommitted id E => Client.OnCommitted id (plug E q)
  | AfterOnRollbacked id E => Client.OnRollbacked id (plug E q)
  | AfterProbe E => Client.Probe (plug E q)
  | InNested E k => Client.Nested (plug E q) k
  end.

(** The number of nested calls the place is in. *)
Fixpoint nesting (E : place) : nat :=
  match E with
  | Here => 0
  | AfterOnCommitted _ E => nesting E
  | AfterOnRollbacked _ E => nesting E
  | AfterProbe E => nesting E
  | InNested E _ => S (nesting E)
  end.

(** Callbacks and states to evaluate the cascade on. *)
Module Reentrant.

(** User callbacks that register again when they are called: each one
    kept the context it was registered with and, once called with the
    cleaned context, registers a commit and a rollback callback with the
    context it kept. *)
Definition callCommitted (id : nat) (ctx : context) : M unit :=
  Manager.callCommitted Demo.ctxKey id ctx;;
  Manager.OnCommitted Demo.ctxKey ctx (id + 100);;
  Manager.OnRollbacked Demo.ctxKey ctx (id + 200);;
  mret tt.

Definition callRollbacked (id : nat) (ctx : context) (e : error) : M unit :=
  Manager.callRollbacked Demo.ctxKey id ctx e;;
  Manager.OnRollbacked Demo.ctxKey ctx (id + 200);;
  mret tt.

(** The state in which the outermost call reaches [End] when its callback
    registered the commit callback 2 and the rollback callback 1 and
    returned nil, and the commit was made. *)
Definition before_End : state :=
  mkState [Demo.panic_root] [mkFrame (Some 0) Demo.ctx1]
    [EvBegin (Pool "main"); EvBind (Tx "main") Demo.ctx1; EvCommit (Tx "main")].

End Reentrant.

(** The place of the innermost probe of [Demo.tower 2]. *)
Definition tower_place : place :=
  AfterOnCommitted 2 (AfterProbe (InNested
    (AfterOnCommitted 1 (AfterProbe (InNested
       (AfterOnCommitted 0 Here)
       (fun e => Client.Probe (Client.Ret e)))))
    (fun e => Client.Probe (Client.Ret e)))).

(** * Basic facts *)

Arguments Node.InTransaction : simpl never.
Arguments Node.isCommitted : simpl never.
Arguments Node.isRollbacked : simpl never.
Arguments update : simpl never.
Arguments Manager.End : simpl never.
Arguments Manager.cleanTransContext : simpl never.
Arguments fire_each : simpl never.
Arguments Manager.Transaction_deferred : simpl never.

Ltac munfold :=
  unfold mbind, mret, M_bind, M_ret, observe, resume, panic, get_heap, set_heap,
    emit, new_cell, load, store in *.

Lemma bind_eq {A B : Type} (m : M A) (f : A -> M B) (s : state) :
  (m ≫= f) s = match m s with
               | (Normal a, s') => f a s'
               | (Panicked v, s') => (Panicked v, s')
               end.
Proof. reflexivity. Qed.

Lemma state_eta s : mkState (heap s) (cells s) (trace s) = s.
Proof. by destruct s. Qed.

Lemma lookup_snoc {A : Type} (l : list A) (x : A) : (l ++ [x]) !! length l = Some x.
Proof. by apply list_lookup_middle. Qed.

Lemma update_lookup t f h n : h !! t = Some n -> update t f h = <[t := f n]> h.
Proof. intros H. unfold update. by rewrite H. Qed.

(** ** Calling the registered closures *)

Section FiringEq.
Variable ctxKeyF : context -> key.

Local Abbreviation call :=
  (Node.call (Manager.callCommitted ctxKeyF) (Manager.callRollbacked ctxKeyF)).
Local Abbreviation call_each :=
  (Node.call_each (Manager.callCommitted ctxKeyF) (Manager.callRollbacked ctxKeyF)).
Local Abbreviation End := (Manager.End ctxKeyF).

Lemma call_fire f s :
  call f s = (Normal tt, mkState (heap s) (cells s) (trace s ++ fire ctxKeyF (heap s) f)).
Proof.
  induction f as [id ctx|t f IH|t f]; cbn.
  - reflexivity.
  - rewrite bind_eq. cbn. destruct (Node.isCommitted _ _); [apply IH|].
    cbn. by rewrite app_nil_r, state_eta.
  - rewrite bind_eq. cbn. destruct (Node.isRollbacked _ _); [done|].
    cbn. by rewrite app_nil_r, state_eta.
Qed.

Lemma call_each_fire l s :
  call_each l s
  = (Normal tt, mkState (heap s) (cells s) (trace s ++ fire_each ctxKeyF (heap s) l)).
Proof.
  revert s. induction l as [|f l IH]; intros s; cbn.
  - by rewrite app_nil_r, state_eta.
  - rewrite bind_eq, call_fire, IH. cbn. by rewrite <- app_assoc.
Qed.

(** [End] on a node: the two fields are written; on a root the two
    registries are then called, in this order, on the updated store. *)
Lemma End_eq a p e s n :
  heap s !! a = Some n ->
  End (Some a) p e s
  = (Normal tt,
     let h := <[a := with_result p e n]> (heap s) in
     mkState h (cells s)
       (trace s ++
        if Node.isRoot n
        then fire_each ctxKeyF h (onCommittedCallbacks n)
             ++ fire_each ctxKeyF h (onRollbackedCallbacks n)
        else [])).
Proof.
  intros Hn. unfold Manager.End, Node.End.
  rewrite bind_eq. cbn. rewrite bind_eq. cbn. rewrite bind_eq. cbn.
  rewrite (update_lookup _ _ _ _ Hn).
  rewrite list_lookup_insert_eq by (by eapply lookup_lt_Some).
  change (Node.isRoot (with_result p e n)) with (Node.isRoot n).
  destruct (Node.isRoot n); cbn.
  - unfold Node.doOnCommittedCallbacks, Node.doOnRollbackedCallbacks.
    rewrite bind_eq. cbn. rewrite bind_eq. cbn.
    rewrite list_lookup_insert_eq by (by eapply lookup_lt_Some). cbn.
    rewrite call_each_fire. cbn. rewrite bind_eq. cbn.
    rewrite list_lookup_insert_eq by (by eapply lookup_lt_Some). cbn.
    rewrite call_each_fire. cbn. by rewrite <- app_assoc.
  - by rewrite app_nil_r.
Qed.

Lemma End_nil p e s : End None p e s = (Normal tt, s).
Proof. reflexivity. Qed.
End FiringEq.

(** ** The manager *)

Section ManagerFacts.
Variable ctxKeyF : context -> key.
Variable lookupDB : context -> outcome (option handle).
Variable transaction :
  context -> handle -> (handle -> Manager.bindfn -> M (option error)) -> M (option error).

Local Abbreviation findTransContext := (Manager.findTransContext ctxKeyF).
Local Abbreviation Transaction := (Manager.Transaction ctxKeyF lookupDB transaction).
Local Abbreviation findDBAndTransContext :=
  (Manager.findDBAndTransContext ctxKeyF lookupDB).
Local Abbreviation Transaction_body :=
  (Manager.Transaction_body ctxKeyF lookupDB transaction).
Local Abbreviation Transaction_deferred := (Manager.Transaction_deferred ctxKeyF).
Local Abbreviation End := (Manager.End ctxKeyF).

Lemma Transaction_eq ctx callback s :
  Transaction ctx callback s
  = let c := length (cells s) in
    let '(r, s1) := Transaction_body c ctx callback
                      (mkState (heap s) (cells s ++ [mkFrame None ctx]) (trace s)) in
    Transaction_deferred c r s1.
Proof.
  unfold Manager.Transaction. munfold. cbn.
  by destruct (Manager.Transaction_body _ _ _ _ _ _ _) as [r s1].
Qed.

Lemma findDBAndTransContext_outside ctx s :
  Node.InTransaction (heap s) (findTransContext ctx) = false ->
  findDBAndTransContext ctx s
  = match lookupDB ctx with
    | Normal (Some d) => (Normal (None, d), s)
    | Normal None => (Panicked (PValue "matching database not found"), s)
    | Panicked v => (Panicked v, s)
    end.
Proof.
  intros Hout. unfold Manager.findDBAndTransContext. munfold. cbn.
  rewrite Hout. by destruct (lookupDB ctx) as [[d|]|v].
Qed.

Lemma findDBAndTransContext_inside ctx s t n :
  findTransContext ctx = Some t -> heap s !! t = Some n ->
  Node.InTransaction (heap s) (Some t) = true ->
  findDBAndTransContext ctx s = (Normal (Some t, db n), s).
Proof.
  intros Ht Hn Hin. unfold Manager.findDBAndTransContext. munfold. cbn.
  rewrite Ht, Hin. cbn. unfold Node.GetTransDB. by rewrite Hn.
Qed.

(** The deferred function when the callback was never entered. *)
Lemma Transaction_deferred_nil {A : Type} c (r : outcome A) s ctx :
  cells s !! c = Some (mkFrame None ctx) ->
  Transaction_deferred c r s = (r, s).
Proof.
  intros Hc. unfold Manager.Transaction_deferred. munfold. cbn.
  by rewrite Hc.
Qed.

(** The deferred function once [transCtx] is set. *)
Lemma Transaction_deferred_some {A : Type} c (r : outcome A) s t ctx n :
  cells s !! c = Some (mkFrame (Some t) ctx) ->
  heap s !! t = Some n ->
  Transaction_deferred c r s
  = let s1 := mkState (<[t := with_done true n]> (heap s)) (cells s) (trace s) in
    if bool_decide (length (onRollbackedCallbacks n) <= 0) then (r, s1)
    else match r with
         | Normal a => (Normal a, s1)
         | Panicked v =>
             (Panicked v, (End (Some t) true (Some (recovered v)) s1).2)
         end.
Proof.
  intros Hc Hn. unfold Manager.Transaction_deferred.
  rewrite bind_eq. unfold load at 1. rewrite Hc. cbn.
  rewrite bind_eq. cbn. rewrite bind_eq. cbn. rewrite bind_eq. cbn.
  rewrite (update_lookup _ _ _ _ Hn).
  rewrite list_lookup_insert_eq by (by eapply lookup_lt_Some). cbn.
  destruct (bool_decide _); [done|].
  destruct r as [a|v]; [done|].
  rewrite bind_eq.
  erewrite End_eq by (cbn; apply list_lookup_insert_eq; by eapply lookup_lt_Some).
  reflexivity.
Qed.
End ManagerFacts.

(** ** Walks that stop at the first node *)

Lemma fuel_pos {A : Type} (h : list A) t n : h !! t = Some n -> exists k, length h = S k.
Proof.
  intros H. apply lookup_lt_Some in H. destruct (length h); [lia|eauto].
Qed.

Lemma isCommitted_dirty h t n :
  h !! t = Some n -> panicked n = true \/ err n <> None ->
  Node.isCommitted h (Some t) = false.
Proof.
  intros Hn Hd. destruct (fuel_pos _ _ _ Hn) as [k Hk].
  unfold Node.isCommitted. rewrite Hk. cbn. rewrite Hn.
  destruct Hd as [->|He]; [done|].
  rewrite (bool_decide_eq_true_2 _ He). by rewrite orb_true_r.
Qed.

Lemma isRollbacked_err h t n e :
  h !! t = Some n -> err n = Some e -> Node.isRollbacked h (Some t) = Some e.
Proof.
  intros Hn He. destruct (fuel_pos _ _ _ Hn) as [k Hk].
  unfold Node.isRollbacked. rewrite Hk. cbn. by rewrite Hn, He.
Qed.

Lemma isRollbacked_root h t n :
  h !! t = Some n -> parent n = None -> Node.isRollbacked h (Some t) = err n.
Proof.
  intros Hn Hp. destruct (fuel_pos _ _ _ Hn) as [k Hk].
  unfold Node.isRollbacked. rewrite Hk. cbn. rewrite Hn, Hp.
  destruct (err n); [done|]. by destruct k.
Qed.

Lemma InTransaction_root h t n :
  h !! t = Some n -> parent n = None -> Node.InTransaction h (Some t) = negb (done n).
Proof.
  intros Hn Hp. destruct (fuel_pos _ _ _ Hn) as [k Hk].
  unfold Node.InTransaction, Node.isRoot. rewrite Hk. cbn.
  unfold Node.isRoot. by rewrite Hn, Hp.
Qed.

Section FiringFacts.
Variable ctxKeyF : context -> key.

Local Abbreviation cleanTransContext := (Manager.cleanTransContext ctxKeyF).

Lemma fire_each_committed_dirty h t n ks :
  h !! t = Some n -> panicked n = true \/ err n <> None ->
  fire_each ctxKeyF h (map (IfCommitted t) ks) = [].
Proof.
  intros Hn Hd. induction ks as [|k ks IH]; [done|].
  unfold fire_each in *. cbn. by rewrite (isCommitted_dirty _ _ _ Hn Hd).
Qed.

Lemma fire_each_rollbacked h t e efs :
  Node.isRollbacked h (Some t) = e ->
  fire_each ctxKeyF h (map (IfRollbacked t) efs)
  = match e with
    | Some e =>
        map (fun cb => EvRollbacked (ef_id cb) (cleanTransContext h (ef_ctx cb)) e) efs
    | None => []
    end.
Proof.
  intros He. induction efs as [|cb efs IH]; cbn.
  - by destruct e.
  - unfold fire_each in *. cbn. rewrite He, IH. by destruct e.
Qed.
End FiringFacts.

(** ** The walks follow the source *)

Lemma ordered_nil : ordered [].
Proof. intros a n p Hn. by rewrite lookup_nil in Hn. Qed.

Lemma ordered_alloc h t d :
  ordered h -> (forall p, t = Some p -> p < length h) ->
  ordered (h ++ [mkTransContext [] [] t d false true None]).
Proof.
  intros Ho Ht a n p Hn Hp. destruct (decide (a < length h)) as [Ha|Ha].
  - rewrite lookup_app_l in Hn by done. eauto.
  - apply lookup_lt_Some in Hn as Hlt. rewrite length_app in Hlt. cbn in Hlt.
    assert (a = length h) as -> by lia.
    rewrite lookup_snoc in Hn. injection Hn as <-. cbn in Hp. auto.
Qed.

Lemma ordered_insert h a n n' :
  ordered h -> h !! a = Some n -> parent n' = parent n -> ordered (<[a := n']> h).
Proof.
  intros Ho Ha Hp b m p Hm Hpm. destruct (decide (a = b)) as [->|Hne].
  - rewrite list_lookup_insert_eq in Hm by (by eapply lookup_lt_Some).
    injection Hm as <-. rewrite Hp in Hpm. eauto.
  - rewrite list_lookup_insert_ne in Hm by done. eauto.
Qed.

Lemma InTransaction_fuel_S f h t :
  Node.InTransaction_fuel (S f) h (Some t)
  = match h !! t with
    | Some n =>
        if negb (Node.isRoot n) then Node.InTransaction_fuel f h (parent n)
        else negb (done n)
    | None => false
    end.
Proof. reflexivity. Qed.

Lemma isCommitted_fuel_S f h t :
  Node.isCommitted_fuel (S f) h (Some t)
  = match h !! t with
    | Some n =>
        if panicked n || bool_decide (err n <> None) then false
        else Node.isCommitted_fuel f h (parent n)
    | None => false
    end.
Proof. reflexivity. Qed.

Lemma isRollbacked_fuel_S f h t :
  Node.isRollbacked_fuel (S f) h (Some t)
  = match h !! t with
    | Some n =>
        match err n with
        | Some e => Some e
        | None => Node.isRollbacked_fuel f h (parent n)
        end
    | None => None
    end.
Proof. reflexivity. Qed.

Lemma OnCommitted_fuel_S f h t callback :
  Node.OnCommitted_fuel (S f) h t callback
  = match h !! t with
    | Some n =>
        match parent n with
        | None =>
            <[t := with_onCommitted
                     (onCommittedCallbacks n ++ [IfCommitted t callback]) n]> h
        | Some p => Node.OnCommitted_fuel f h p (IfCommitted t callback)
        end
    | None => h
    end.
Proof. reflexivity. Qed.

Lemma OnRollbacked_fuel_S f h t callback :
  Node.OnRollbacked_fuel (S f) h t callback
  = match h !! t with
    | Some n =>
        match parent n with
        | None =>
            <[t := with_onRollbacked
                     (onRollbackedCallbacks n ++ [IfRollbacked t callback]) n]> h
        | Some p => Node.OnRollbacked_fuel f h p callback
        end
    | None => h
    end.
Proof. reflexivity. Qed.

Section Ordered.
Variable h : list transContext.
Hypothesis Hordered : ordered h.

Lemma InTransaction_fuel_enough f1 f2 t :
  t < f1 -> t < f2 ->
  Node.InTransaction_fuel f1 h (Some t) = Node.InTransaction_fuel f2 h (Some t).
Proof.
  revert f2 t. induction f1 as [|f1 IH]; intros [|f2] t H1 H2; try lia.
  cbn. destruct (h !! t) as [n|] eqn:Hn; [|done].
  unfold Node.isRoot. destruct (parent n) as [p|] eqn:Hp; [|done].
  cbn. pose proof (Hordered t n p Hn Hp). apply IH; lia.
Qed.

Lemma isCommitted_fuel_enough f1 f2 t :
  t < f1 -> t < f2 ->
  Node.isCommitted_fuel f1 h (Some t) = Node.isCommitted_fuel f2 h (Some t).
Proof.
  revert f2 t. induction f1 as [|f1 IH]; intros [|f2] t H1 H2; try lia.
  cbn. destruct (h !! t) as [n|] eqn:Hn; [|done].
  destruct (panicked n || bool_decide (err n <> None)); [done|].
  destruct (parent n) as [p|] eqn:Hp.
  - pose proof (Hordered t n p Hn Hp). apply IH; lia.
  - by destruct f1, f2.
Qed.

Lemma isRollbacked_fuel_enough f1 f2 t :
  t < f1 -> t < f2 ->
  Node.isRollbacked_fuel f1 h (Some t) = Node.isRollbacked_fuel f2 h (Some t).
Proof.
  revert f2 t. induction f1 as [|f1 IH]; intros [|f2] t H1 H2; try lia.
  cbn. destruct (h !! t) as [n|] eqn:Hn; [|done].
  destruct (err n); [done|].
  destruct (parent n) as [p|] eqn:Hp.
  - pose proof (Hordered t n p Hn Hp). apply IH; lia.
  - by destruct f1, f2.
Qed.

Lemma OnCommitted_fuel_enough f1 f2 t callback :
  t < f1 -> t < f2 ->
  Node.OnCommitted_fuel f1 h t callback = Node.OnCommitted_fuel f2 h t callback.
Proof.
  revert f2 t callback. induction f1 as [|f1 IH]; intros [|f2] t callback H1 H2; try lia.
  cbn. destruct (h !! t) as [n|] eqn:Hn; [|done].
  destruct (parent n) as [p|] eqn:Hp; [|done].
  pose proof (Hordered t n p Hn Hp). apply IH; lia.
Qed.

Lemma OnRollbacked_fuel_enough f1 f2 t callback :
  t < f1 -> t < f2 ->
  Node.OnRollbacked_fuel f1 h t callback = Node.OnRollbacked_fuel f2 h t callback.
Proof.
  revert f2 t. induction f1 as [|f1 IH]; intros [|f2] t H1 H2; try lia.
  cbn. destruct (h !! t) as [n|] eqn:Hn; [|done].
  destruct (parent n) as [p|] eqn:Hp; [|done].
  pose proof (Hordered t n p Hn Hp). apply IH; lia.
Qed.

(** The bodies of the five recursive methods. *)
Lemma InTransaction_eq t n :
  h !! t = Some n ->
  Node.InTransaction h (Some t)
  = if negb (Node.isRoot n) then Node.InTransaction h (parent n) else negb (done n).
Proof.
  intros Hn. destruct (fuel_pos _ _ _ Hn) as [k Hk].
  pose proof (lookup_lt_Some _ _ _ Hn) as Hlt.
  unfold Node.InTransaction. rewrite Hk, InTransaction_fuel_S, Hn.
  unfold Node.isRoot. destruct (parent n) as [p|] eqn:Hp; [|done]. cbn [negb].
  pose proof (Hordered t n p Hn Hp). apply InTransaction_fuel_enough; lia.
Qed.

Lemma isCommitted_eq t n :
  h !! t = Some n ->
  Node.isCommitted h (Some t)
  = if panicked n || bool_decide (err n <> None) then false
    else Node.isCommitted h (parent n).
Proof.
  intros Hn. destruct (fuel_pos _ _ _ Hn) as [k Hk].
  pose proof (lookup_lt_Some _ _ _ Hn) as Hlt.
  unfold Node.isCommitted. rewrite Hk, isCommitted_fuel_S, Hn.
  destruct (panicked n || bool_decide (err n <> None)); [done|].
  destruct (parent n) as [p|] eqn:Hp.
  - pose proof (Hordered t n p Hn Hp). apply isCommitted_fuel_enough; lia.
  - by destruct k.
Qed.

Lemma isRollbacked_eq t n :
  h !! t = Some n ->
  Node.isRollbacked h (Some t)
  = match err n with
    | Some e => Some e
    | None => Node.isRollbacked h (parent n)
    end.
Proof.
  intros Hn. destruct (fuel_pos _ _ _ Hn) as [k Hk].
  pose proof (lookup_lt_Some _ _ _ Hn) as Hlt.
  unfold Node.isRollbacked. rewrite Hk, isRollbacked_fuel_S, Hn.
  destruct (err n); [done|].
  destruct (parent n) as [p|] eqn:Hp.
  - pose proof (Hordered t n p Hn Hp). apply isRollbacked_fuel_enough; lia.
  - by destruct k.
Qed.

Lemma OnCommitted_eq t n callback :
  h !! t = Some n ->
  Node.OnCommitted_fuel (length h) h t callback
  = match parent n with
    | None =>
        <[t := with_onCommitted (onCommittedCallbacks n ++ [IfCommitted t callback]) n]> h
    | Some p => Node.OnCommitted_fuel (length h) h p (IfCommitted t callback)
    end.
Proof.
  intros Hn. pose proof (lookup_lt_Some _ _ _ Hn) as Hlt.
  destruct (length h) as [|k]; [lia|].
  rewrite (OnCommitted_fuel_S k h t callback), Hn.
  destruct (parent n) as [p|] eqn:Hp; [|done].
  pose proof (Hordered t n p Hn Hp). apply OnCommitted_fuel_enough; lia.
Qed.

Lemma OnRollbacked_eq t n callback :
  h !! t = Some n ->
  Node.OnRollbacked_fuel (length h) h t callback
  = match parent n with
    | None =>
        <[t := with_onRollbacked
                 (onRollbackedCallbacks n ++ [IfRollbacked t callback]) n]> h
    | Some p => Node.OnRollbacked_fuel (length h) h p callback
    end.
Proof.
  intros Hn. pose proof (lookup_lt_Some _ _ _ Hn) as Hlt.
  destruct (length h) as [|k]; [lia|].
  rewrite (OnRollbacked_fuel_S k h t callback), Hn.
  destruct (parent n) as [p|] eqn:Hp; [|done].
  pose proof (Hordered t n p Hn Hp). apply OnRollbacked_fuel_enough; lia.
Qed.
End Ordered.

(** A walk sees only the nodes allocated before its start. *)
Lemma InTransaction_prefix h h' t :
  ordered h -> t < length h -> length h <= length h' ->
  (forall a, a < length h -> h' !! a = h !! a) ->
  Node.InTransaction h' (Some t) = Node.InTransaction h (Some t).
Proof.
  intros Ho Ht Hle Hsame. unfold Node.InTransaction.
  assert (forall f1 f2 a, a < length h -> a < f1 -> a < f2 ->
            Node.InTransaction_fuel f1 h' (Some a) = Node.InTransaction_fuel f2 h (Some a))
    as Hfuel; [|apply Hfuel; lia].
  induction f1 as [|f1 IH]; intros [|f2] a Ha H1 H2; try lia.
  cbn. rewrite Hsame by done. destruct (h !! a) as [n|] eqn:Hn; [|done].
  unfold Node.isRoot. destruct (parent n) as [p|] eqn:Hp; [|done]. cbn.
  pose proof (Ho a n p Hn Hp). apply IH; lia.
Qed.

(** ** The provider *)

Lemma insert_snoc {A : Type} (l : list A) (x y : A) : <[length l := y]> (l ++ [x]) = l ++ [y].
Proof.
  rewrite insert_app_r_alt by lia. by rewrite Nat.sub_diag.
Qed.

Lemma InTransaction_None h : Node.InTransaction h None = false.
Proof. unfold Node.InTransaction. by destruct (length h). Qed.

Section ProviderFacts.
Variable writeDBName : context -> string.
Variable writeDB readDB : context -> option handle.
Variable txSuffix : string.
Variable beginErr commitErr : handle -> option error.

(** The router does not see the bindings the manager adds. *)
Hypothesis router_stable :
  forall ctx k v, writeDBName (WithValue ctx (TransCtxKey k) v) = writeDBName ctx.

Local Abbreviation K := (Provider.getCtxKey writeDBName txSuffix).
Local Abbreviation find := (Manager.findTransContext K).
Local Abbreviation lookup := (fun ctx => Provider.lookupDB writeDB readDB ctx true).
Local Abbreviation ptransaction :=
  (Provider.transaction writeDBName txSuffix beginErr commitErr).
Local Abbreviation Transaction :=
  (Provider.Transaction writeDBName writeDB readDB txSuffix beginErr commitErr).
Local Abbreviation set := (Manager.setTransContext K).

Lemma key_stable ctx v : K (WithValue ctx (K ctx) v) = K ctx.
Proof. unfold Provider.getCtxKey. by rewrite router_stable. Qed.

Lemma find_set ctx t : find (set ctx t) = Some t.
Proof.
  unfold Manager.findTransContext, Manager.setTransContext.
  rewrite key_stable. cbn. by rewrite decide_True.
Qed.

Lemma find_clean ctx : find (WithValue ctx (K ctx) VNil) = None.
Proof.
  unfold Manager.findTransContext. rewrite key_stable. cbn. by rewrite decide_True.
Qed.

Lemma isInTransaction_eq ctx s :
  Provider.isInTransaction writeDBName txSuffix ctx s
  = (Normal (Node.InTransaction (heap s) (find ctx)), s).
Proof.
  unfold Provider.isInTransaction, Manager.findTransContext.
  rewrite bind_eq. cbn.
  destruct (Value ctx _); try reflexivity; by rewrite InTransaction_None.
Qed.

Lemma transaction_inside ctx d callback s :
  Node.InTransaction (heap s) (find ctx) = true ->
  ptransaction ctx d callback s = callback d (Some (Provider.bindCtx d)) s.
Proof.
  intros Hin. unfold Provider.transaction.
  by rewrite bind_eq, isInTransaction_eq, Hin.
Qed.

Lemma transaction_outside ctx d callback s :
  Node.InTransaction (heap s) (find ctx) = false ->
  ptransaction ctx d callback s
  = Provider.gorm_Transaction beginErr commitErr d
      (fun d => callback d (Some (Provider.bindCtx d))) s.
Proof.
  intros Hin. unfold Provider.transaction.
  by rewrite bind_eq, isInTransaction_eq, Hin.
Qed.

(** The closure handed to the provider, called with the provider's
    [bind]: a node is made, the cell and the handle's context are set,
    and the user callback runs. *)
Lemma Transaction_callback_eq c prev callback d s f :
  cells s !! c = Some f ->
  Manager.Transaction_callback K c prev callback d (Some (Provider.bindCtx d)) s
  = let t := length (heap s) in
    let ctx := set (f_ctx f) t in
    callback ctx
      (mkState (heap s ++ [mkTransContext [] [] prev d false true None])
         (<[c := mkFrame (Some t) ctx]> (cells s))
         (trace s ++ [EvBind d ctx])).
Proof.
  intros Hc. unfold Manager.Transaction_callback.
  rewrite bind_eq. cbn. rewrite bind_eq. unfold load at 1. cbn. rewrite Hc. cbn.
  reflexivity.
Qed.

(** A nested call, given what the callback left behind. *)
Lemma Transaction_nested ctx callback s t n r s2 n' :
  find ctx = Some t -> heap s !! t = Some n ->
  Node.InTransaction (heap s) (Some t) = true ->
  let c := length (cells s) in
  let t' := length (heap s) in
  let ctx' := set ctx t' in
  callback ctx'
    (mkState (heap s ++ [mkTransContext [] [] (Some t) (db n) false true None])
       (cells s ++ [mkFrame (Some t') ctx'])
       (trace s ++ [EvBind (db n) ctx'])) = (r, s2) ->
  cells s2 !! c = Some (mkFrame (Some t') ctx') ->
  heap s2 !! t' = Some n' ->
  Node.isRoot n' = false ->
  onRollbackedCallbacks n' = [] ->
  Transaction ctx callback s
  = match r with
    | Normal e =>
        (Normal e,
         mkState (<[t' := with_done true (with_result false e n')]> (heap s2))
           (cells s2) (trace s2))
    | Panicked v =>
        (Panicked v, mkState (<[t' := with_done true n']> (heap s2)) (cells s2) (trace s2))
    end.
Proof.
  intros Ht Hn Hin c t' ctx' Hcb Hc Hn' Hroot Hreg. subst c t' ctx'.
  unfold Provider.Transaction. rewrite Transaction_eq. cbn.
  unfold Manager.Transaction_body. rewrite bind_eq.
  erewrite findDBAndTransContext_inside by (cbn; eauto). cbn.
  rewrite bind_eq, transaction_inside by (cbn; by rewrite Ht).
  erewrite Transaction_callback_eq by (cbn; apply lookup_snoc).
  cbn. rewrite insert_snoc, Hcb.
  destruct r as [e|v].
  - rewrite bind_eq. unfold load at 1. cbn. rewrite Hc. cbn.
    rewrite bind_eq. rewrite (End_eq _ _ _ _ _ _ Hn'). cbn. rewrite Hroot.
    rewrite app_nil_r.
    erewrite Transaction_deferred_some
      by (cbn; first [eassumption|apply list_lookup_insert_eq; by eapply lookup_lt_Some]).
    cbn. rewrite Hreg. cbn. by rewrite list_insert_insert_eq.
  - erewrite Transaction_deferred_some by eassumption.
    cbn. by rewrite Hreg.
Qed.

Lemma gorm_Transaction_refused d fc s e :
  beginErr d = Some e ->
  Provider.gorm_Transaction beginErr commitErr d fc s
  = (Normal (Some e), mkState (heap s) (cells s) (trace s ++ [EvBeginFailed d e])).
Proof. intros Hb. unfold Provider.gorm_Transaction. by rewrite Hb. Qed.

Lemma gorm_Transaction_begun d fc s r s2 :
  beginErr d = None ->
  let tx := Tx (Provider.name_of d) in
  fc tx (mkState (heap s) (cells s) (trace s ++ [EvBegin d])) = (r, s2) ->
  Provider.gorm_Transaction beginErr commitErr d fc s
  = match r with
    | Normal r =>
        let '(e, evs) := gorm_outcome commitErr tx r in
        (Normal e, mkState (heap s2) (cells s2) (trace s2 ++ evs))
    | Panicked v => (Panicked v, mkState (heap s2) (cells s2) (trace s2 ++ [EvRollback tx]))
    end.
Proof.
  intros Hb tx Hfc. unfold Provider.gorm_Transaction. rewrite Hb.
  rewrite bind_eq. cbn. rewrite bind_eq. unfold observe at 1. fold tx. rewrite Hfc.
  destruct r as [[e|]|v]; cbn; try reflexivity.
  unfold gorm_outcome. destruct (commitErr tx); [|done].
  repeat (rewrite bind_eq; cbn). by rewrite <- app_assoc.
Qed.

Lemma Transaction_root_returns ctx callback s d r s2 n' :
  Node.InTransaction (heap s) (find ctx) = false ->
  writeDB ctx = Some d -> beginErr d = None ->
  let tx := Tx (Provider.name_of d) in
  let c := length (cells s) in
  let t' := length (heap s) in
  let ctx' := set ctx t' in
  callback ctx'
    (mkState (heap s ++ [mkTransContext [] [] None tx false true None])
       (cells s ++ [mkFrame (Some t') ctx'])
       (trace s ++ [EvBegin d; EvBind tx ctx'])) = (Normal r, s2) ->
  cells s2 !! c = Some (mkFrame (Some t') ctx') ->
  heap s2 !! t' = Some n' ->
  parent n' = None ->
  Transaction ctx callback s
  = let '(e, evs) := gorm_outcome commitErr tx r in
    let h := <[t' := with_result false e n']> (heap s2) in
    (Normal e,
     mkState (<[t' := with_done true (with_result false e n')]> (heap s2)) (cells s2)
       (trace s2 ++ evs ++ fire_each K h (onCommittedCallbacks n')
                 ++ fire_each K h (onRollbackedCallbacks n'))).
Proof.
  intros Hout Hd Hb tx c t' ctx' Hcb Hc Hn' Hroot. subst tx c t' ctx'.
  unfold Provider.Transaction. rewrite Transaction_eq. cbn.
  unfold Manager.Transaction_body. rewrite bind_eq.
  rewrite findDBAndTransContext_outside by done. cbn. rewrite Hd. cbn.
  rewrite bind_eq, transaction_outside by done.
  erewrite gorm_Transaction_begun; [|done|].
  2:{ erewrite Transaction_callback_eq by (cbn; apply lookup_snoc).
      cbn. rewrite insert_snoc, <- app_assoc. cbn. apply Hcb. }
  cbn. destruct (gorm_outcome commitErr _ r) as [e evs]. cbn.
  rewrite bind_eq. unfold load at 1. cbn. rewrite Hc. cbn.
  rewrite bind_eq. erewrite End_eq by (cbn; eassumption). cbn.
  unfold Node.isRoot. rewrite Hroot. cbn.
  erewrite Transaction_deferred_some
    by (cbn; first [eassumption|apply list_lookup_insert_eq; by eapply lookup_lt_Some]).
  cbn. rewrite list_insert_insert_eq, <- !app_assoc.
  by destruct (bool_decide _).
Qed.

Lemma Transaction_root_panics ctx callback s d v s2 n' :
  Node.InTransaction (heap s) (find ctx) = false ->
  writeDB ctx = Some d -> beginErr d = None ->
  let tx := Tx (Provider.name_of d) in
  let c := length (cells s) in
  let t' := length (heap s) in
  let ctx' := set ctx t' in
  callback ctx'
    (mkState (heap s ++ [mkTransContext [] [] None tx false true None])
       (cells s ++ [mkFrame (Some t') ctx'])
       (trace s ++ [EvBegin d; EvBind tx ctx'])) = (Panicked v, s2) ->
  cells s2 !! c = Some (mkFrame (Some t') ctx') ->
  heap s2 !! t' = Some n' ->
  parent n' = None ->
  Transaction ctx callback s
  = (Panicked v,
     match onRollbackedCallbacks n' with
     | [] => mkState (<[t' := with_done true n']> (heap s2)) (cells s2)
               (trace s2 ++ [EvRollback tx])
     | _ :: _ =>
         let h := <[t' := with_result true (Some (recovered v)) (with_done true n')]>
                    (heap s2) in
         mkState h (cells s2)
           (trace s2 ++ [EvRollback tx] ++ fire_each K h (onCommittedCallbacks n')
                     ++ fire_each K h (onRollbackedCallbacks n'))
     end).
Proof.
  intros Hout Hd Hb tx c t' ctx' Hcb Hc Hn' Hroot. subst tx c t' ctx'.
  unfold Provider.Transaction. rewrite Transaction_eq. cbn.
  unfold Manager.Transaction_body. rewrite bind_eq.
  rewrite findDBAndTransContext_outside by done. cbn. rewrite Hd. cbn.
  rewrite bind_eq, transaction_outside by done.
  erewrite gorm_Transaction_begun; [|done|].
  2:{ erewrite Transaction_callback_eq by (cbn; apply lookup_snoc).
      cbn. rewrite insert_snoc, <- app_assoc. cbn. apply Hcb. }
  cbn. erewrite Transaction_deferred_some by (cbn; eassumption).
  cbn. destruct (onRollbackedCallbacks n') as [|f l] eqn:Hreg; [done|].
  cbn. erewrite End_eq by (cbn; apply list_lookup_insert_eq; by eapply lookup_lt_Some).
  cbn. unfold Node.isRoot. cbn. rewrite Hroot, Hreg.
  by rewrite list_insert_insert_eq, <- !app_assoc.
Qed.

Lemma Transaction_root_refused ctx callback s d e :
  Node.InTransaction (heap s) (find ctx) = false ->
  writeDB ctx = Some d -> beginErr d = Some e ->
  Transaction ctx callback s
  = (Normal (Some e),
     mkState (heap s) (cells s ++ [mkFrame None ctx]) (trace s ++ [EvBeginFailed d e])).
Proof.
  intros Hout Hd Hb.
  unfold Provider.Transaction. rewrite Transaction_eq. cbn.
  unfold Manager.Transaction_body. rewrite bind_eq.
  rewrite findDBAndTransContext_outside by done. cbn. rewrite Hd. cbn.
  rewrite bind_eq, transaction_outside by done.
  rewrite (gorm_Transaction_refused _ _ _ _ Hb). cbn.
  rewrite bind_eq. unfold load at 1. cbn. rewrite lookup_snoc. cbn.
  rewrite bind_eq, End_nil. cbn.
  erewrite Transaction_deferred_nil; [done|]. cbn. apply lookup_snoc.
Qed.

Lemma Transaction_root_unrouted ctx callback s :
  Node.InTransaction (heap s) (find ctx) = false ->
  writeDB ctx = None ->
  Transaction ctx callback s
  = (Panicked nil_dereference,
     mkState (heap s) (cells s ++ [mkFrame None ctx]) (trace s)).
Proof.
  intros Hout Hd.
  unfold Provider.Transaction. rewrite Transaction_eq. cbn.
  unfold Manager.Transaction_body. rewrite bind_eq.
  rewrite findDBAndTransContext_outside by done. cbn. rewrite Hd. cbn.
  erewrite Transaction_deferred_nil; [done|]. cbn. apply lookup_snoc.
Qed.
End ProviderFacts.

(** ** Walks inside the tree of a root *)

Section TreeWalks.
Variables (r : addr) (h : list transContext) (nr : transContext).
Hypothesis Htree : tree r h.
Hypothesis Hr : h !! r = Some nr.

Lemma tree_root_parent : parent nr = None.
Proof.
  destruct (tree_root _ _ Htree) as (n & ks & efs & Hn & Hp & _).
  rewrite Hr in Hn. by injection Hn as <-.
Qed.

Lemma tree_node a : r < a -> a < length h ->
  exists n p, h !! a = Some n /\ parent n = Some p /\ r <= p /\ p < a.
Proof.
  intros Hra Ha. destruct (lookup_lt_is_Some_2 h a Ha) as [n Hn].
  destruct (tree_desc _ _ Htree a n Hra Hn) as [(p & Hp & ?) _]. eauto.
Qed.

Lemma tree_InTransaction_fuel fuel t :
  r <= t -> t < length h -> t - r < fuel ->
  Node.InTransaction_fuel fuel h (Some t) = negb (done nr).
Proof.
  revert t. induction fuel as [|fuel IH]; intros t Hrt Ht Hfuel; [lia|].
  destruct (decide (t = r)) as [->|Hne].
  - cbn. rewrite Hr. unfold Node.isRoot. by rewrite tree_root_parent.
  - destruct (tree_node t) as (n & p & Hn & Hp & Hrp & Hpt); [lia..|].
    cbn. rewrite Hn. unfold Node.isRoot. rewrite Hp. cbn.
    apply IH; lia.
Qed.

Lemma tree_InTransaction t :
  r <= t -> t < length h -> Node.InTransaction h (Some t) = negb (done nr).
Proof. intros. apply tree_InTransaction_fuel; lia. Qed.

Lemma tree_isCommitted_fuel fuel t :
  clean_from r h -> r <= t -> t < length h -> t - r < fuel ->
  Node.isCommitted_fuel fuel h (Some t) = true.
Proof.
  intros Hclean. revert t. induction fuel as [|fuel IH]; intros t Hrt Ht Hfuel; [lia|].
  destruct (decide (t = r)) as [->|Hne].
  - cbn. rewrite Hr. destruct (Hclean r nr ltac:(lia) Hr) as [-> ->].
    rewrite tree_root_parent. cbn. by destruct fuel.
  - destruct (tree_node t) as (n & p & Hn & Hp & Hrp & Hpt); [lia..|].
    cbn. rewrite Hn. destruct (Hclean t n Hrt Hn) as [-> ->]. cbn.
    rewrite Hp. apply IH; lia.
Qed.

Lemma tree_isCommitted t :
  clean_from r h -> r <= t -> t < length h -> Node.isCommitted h (Some t) = true.
Proof. intros. apply tree_isCommitted_fuel; auto; lia. Qed.

Lemma tree_OnCommitted_fuel fuel t callback :
  r <= t -> t < length h -> t - r < fuel -> guards r (length h) callback ->
  exists k,
    Node.OnCommitted_fuel fuel h t callback
    = <[r := with_onCommitted (onCommittedCallbacks nr ++ [IfCommitted r k]) nr]> h
    /\ guards r (length h) k /\ thunk_id k = thunk_id callback.
Proof.
  revert t callback.
  induction fuel as [|fuel IH]; intros t callback Hrt Ht Hfuel Hg; [lia|].
  destruct (decide (t = r)) as [->|Hne].
  - exists callback. cbn. rewrite Hr, tree_root_parent. done.
  - destruct (tree_node t) as (n & p & Hn & Hp & Hrp & Hpt); [lia..|].
    cbn. rewrite Hn, Hp.
    destruct (IH p (IfCommitted t callback)) as (k & Hk & Hgk & Hid); [lia..| |].
    { cbn. split; [lia|done]. }
    exists k. by rewrite Hk.
Qed.

Lemma tree_OnRollbacked_fuel fuel t callback :
  r <= t -> t < length h -> t - r < fuel ->
  Node.OnRollbacked_fuel fuel h t callback
  = <[r := with_onRollbacked (onRollbackedCallbacks nr ++ [IfRollbacked r callback]) nr]> h.
Proof.
  revert t.
  induction fuel as [|fuel IH]; intros t Hrt Ht Hfuel; [lia|].
  destruct (decide (t = r)) as [->|Hne].
  - cbn. by rewrite Hr, tree_root_parent.
  - destruct (tree_node t) as (n & p & Hn & Hp & Hrp & Hpt); [lia..|].
    cbn. rewrite Hn, Hp. apply IH; lia.
Qed.
End TreeWalks.

(** ** Stores that keep the tree *)

Lemma guards_mono lo hi hi' f : hi <= hi' -> guards lo hi f -> guards lo hi' f.
Proof.
  intros Hle. induction f as [id ctx|t f IH|t f]; cbn; [done| |done].
  intros [[? ?] ?]. split; [lia|auto].
Qed.

Lemma tree_alloc r h t d :
  tree r h -> r <= t -> t < length h ->
  tree r (h ++ [mkTransContext [] [] (Some t) d false true None]).
Proof.
  intros [Hroot Hdesc] Hrt Ht. split.
  - destruct Hroot as (n & ks & efs & Hn & Hp & Hc & Hg & Hrb).
    exists n, ks, efs. split_and!; try done.
    + rewrite lookup_app_l; [done|by eapply lookup_lt_Some].
    + eapply Forall_impl; [exact Hg|]. intros f. apply guards_mono.
      rewrite length_app. lia.
  - intros a n Hra Hn. destruct (decide (a < length h)) as [Ha|Ha].
    + rewrite lookup_app_l in Hn by done. eauto.
    + apply lookup_lt_Some in Hn as Hlt. rewrite length_app in Hlt. cbn in Hlt.
      assert (a = length h) as -> by lia.
      rewrite lookup_snoc in Hn. injection Hn as <-. cbn.
      split; [|done]. exists t. split_and!; [done|lia..].
Qed.

(** Writes to [done], [panicked] and [err] of any node. *)
Lemma tree_insert_fields r h a n n' :
  tree r h -> h !! a = Some n ->
  parent n' = parent n ->
  onCommittedCallbacks n' = onCommittedCallbacks n ->
  onRollbackedCallbacks n' = onRollbackedCallbacks n ->
  tree r (<[a := n']> h).
Proof.
  intros [Hroot Hdesc] Ha Hp Hc Hrb.
  assert (Hlt : a < length h) by (by eapply lookup_lt_Some).
  split.
  - destruct Hroot as (nr & ks & efs & Hn & Hpr & Hcr & Hg & Hrr).
    destruct (decide (a = r)) as [->|Hne].
    + rewrite Hn in Ha. injection Ha as <-. exists n', ks, efs.
      rewrite list_lookup_insert_eq, length_insert by done.
      split_and!; congruence.
    + exists nr, ks, efs. rewrite list_lookup_insert_ne, length_insert by done. done.
  - intros b nb Hrb' Hb. destruct (decide (a = b)) as [->|Hne].
    + rewrite list_lookup_insert_eq in Hb by done. injection Hb as <-.
      rewrite Hp, Hc, Hrb. eauto.
    + rewrite list_lookup_insert_ne in Hb by done. eauto.
Qed.

Lemma tree_register_commit r h nr k :
  tree r h -> h !! r = Some nr -> guards r (length h) k ->
  tree r (<[r := with_onCommitted (onCommittedCallbacks nr ++ [IfCommitted r k]) nr]> h).
Proof.
  intros [Hroot Hdesc] Hr Hk.
  assert (Hlt : r < length h) by (by eapply lookup_lt_Some).
  split.
  - destruct Hroot as (n & ks & efs & Hn & Hpr & Hcr & Hg & Hrr).
    rewrite Hr in Hn. injection Hn as <-.
    exists (with_onCommitted (onCommittedCallbacks nr ++ [IfCommitted r k]) nr),
      (ks ++ [k]), efs.
    rewrite list_lookup_insert_eq, length_insert by done. cbn.
    split_and!; try done.
    + by rewrite Hcr, map_app.
    + apply Forall_app. split; [done|]. by apply Forall_singleton.
  - intros b nb Hrb Hb. rewrite list_lookup_insert_ne in Hb by lia. eauto.
Qed.

Lemma tree_register_rollback r h nr cb :
  tree r h -> h !! r = Some nr ->
  tree r (<[r := with_onRollbacked (onRollbackedCallbacks nr ++ [IfRollbacked r cb]) nr]> h).
Proof.
  intros [Hroot Hdesc] Hr.
  assert (Hlt : r < length h) by (by eapply lookup_lt_Some).
  split.
  - destruct Hroot as (n & ks & efs & Hn & Hpr & Hcr & Hg & Hrr).
    rewrite Hr in Hn. injection Hn as <-.
    exists (with_onRollbacked (onRollbackedCallbacks nr ++ [IfRollbacked r cb]) nr),
      ks, (efs ++ [cb]).
    rewrite list_lookup_insert_eq, length_insert by done. cbn.
    split_and!; try done. by rewrite Hrr, map_app.
  - intros b nb Hrb Hb. rewrite list_lookup_insert_ne in Hb by lia. eauto.
Qed.

(** A tree that is new: only its root. *)
Lemma tree_new h d :
  tree (length h) (h ++ [mkTransContext [] [] None d false true None]).
Proof.
  split.
  - exists (mkTransContext [] [] None d false true None), [], [].
    rewrite lookup_snoc. by split_and!.
  - intros a n Ha Hn. apply lookup_lt_Some in Hn. rewrite length_app in Hn.
    cbn in Hn. lia.
Qed.

(** ** Client steps inside the tree *)

Lemma with_registries_id n :
  with_onCommitted (onCommittedCallbacks n ++ [])
    (with_onRollbacked (onRollbackedCallbacks n ++ []) n) = n.
Proof. destruct n. cbn. by rewrite !app_nil_r. Qed.

Section Steps.
Variable ctxKeyF : context -> key.

Local Abbreviation find := (Manager.findTransContext ctxKeyF).
Local Abbreviation inside := (inside ctxKeyF).
Local Abbreviation grows := (grows ctxKeyF).

Lemma inside_mono r h h' ctx :
  length h <= length h' -> inside r h ctx -> inside r h' ctx.
Proof. intros Hle (t & Ht & ? & ?). exists t. split_and!; [done|lia..]. Qed.

Lemma active_InTransaction r h ctx :
  tree r h -> active r h -> inside r h ctx ->
  exists t, find ctx = Some t /\ r <= t /\ t < length h /\
    Node.InTransaction h (Some t) = true.
Proof.
  intros Htree (n & Hn & Hd) (t & Ht & Hrt & Hlt). exists t. split_and!; try done.
  rewrite (tree_InTransaction r h n) by done. by rewrite Hd.
Qed.

Lemma grows_refl r s : grows r s s.
Proof.
  split; [done|done| | |].
  - intros n Hn. exists [], []. by rewrite with_registries_id.
  - exists []. by rewrite app_nil_r.
  - exists []. by rewrite app_nil_r.
Qed.

Lemma grows_trans r s1 s2 s3 : grows r s1 s2 -> grows r s2 s3 -> grows r s1 s3.
Proof.
  intros [Hl1 Ho1 Hr1 (fs1 & Hc1 & Hf1) (ev1 & Ht1 & Hq1)]
         [Hl2 Ho2 Hr2 (fs2 & Hc2 & Hf2) (ev2 & Ht2 & Hq2)].
  split.
  - lia.
  - intros a Ha Hne. rewrite Ho2 by lia. by apply Ho1.
  - intros n Hn. destruct (Hr1 n Hn) as (cs1 & rs1 & Hn1).
    destruct (Hr2 _ Hn1) as (cs2 & rs2 & Hn2).
    exists (cs1 ++ cs2), (rs1 ++ rs2). rewrite Hn2. cbn.
    by rewrite !app_assoc.
  - exists (fs1 ++ fs2). split; [by rewrite Hc2, Hc1, app_assoc|].
    apply Forall_app. split; [|done].
    eapply Forall_impl; [exact Hf1|]. intros f. by apply inside_mono.
  - exists (ev1 ++ ev2). split; [by rewrite Ht2, Ht1, app_assoc|].
    by apply Forall_app.
Qed.

Lemma grows_emit r s e :
  quiet e -> grows r s (mkState (heap s) (cells s) (trace s ++ [e])).
Proof.
  intros He. split; cbn; [done|done| | |].
  - intros n Hn. exists [], []. by rewrite with_registries_id.
  - exists []. by rewrite app_nil_r.
  - exists [e]. split; [done|]. by apply Forall_singleton.
Qed.

Lemma grows_register_commit r s nr f :
  heap s !! r = Some nr ->
  grows r s
    (mkState (<[r := with_onCommitted (onCommittedCallbacks nr ++ [f]) nr]> (heap s))
       (cells s) (trace s)).
Proof.
  intros Hr. assert (Hlt : r < length (heap s)) by (by eapply lookup_lt_Some).
  split; cbn.
  - by rewrite length_insert.
  - intros a Ha Hne. by rewrite list_lookup_insert_ne.
  - intros n Hn. rewrite Hr in Hn. injection Hn as <-. exists [f], [].
    rewrite list_lookup_insert_eq by done. destruct nr. cbn. by rewrite app_nil_r.
  - exists []. by rewrite app_nil_r.
  - exists []. by rewrite app_nil_r.
Qed.

Lemma grows_register_rollback r s nr f :
  heap s !! r = Some nr ->
  grows r s
    (mkState (<[r := with_onRollbacked (onRollbackedCallbacks nr ++ [f]) nr]> (heap s))
       (cells s) (trace s)).
Proof.
  intros Hr. assert (Hlt : r < length (heap s)) by (by eapply lookup_lt_Some).
  split; cbn.
  - by rewrite length_insert.
  - intros a Ha Hne. by rewrite list_lookup_insert_ne.
  - intros n Hn. rewrite Hr in Hn. injection Hn as <-. exists [], [f].
    rewrite list_lookup_insert_eq by done. destruct nr. cbn. by rewrite app_nil_r.
  - exists []. by rewrite app_nil_r.
  - exists []. by rewrite app_nil_r.
Qed.

Lemma grows_active r s s' : grows r s s' -> active r (heap s) -> active r (heap s').
Proof.
  intros Hg (n & Hn & Hd). destruct (grows_root _ _ _ _ Hg n Hn) as (cs & rs & Hn').
  eexists. split; [exact Hn'|done].
Qed.

(** [OnCommitted] on a context of the tree: registered on the root,
    under a chain of tests that stays in the tree. *)
Lemma OnCommitted_inside r s ctx id nr :
  tree r (heap s) -> active r (heap s) -> heap s !! r = Some nr ->
  inside r (heap s) ctx ->
  exists k,
    Manager.OnCommitted ctxKeyF ctx id s
    = (Normal true,
       mkState (<[r := with_onCommitted
                         (onCommittedCallbacks nr ++ [IfCommitted r k]) nr]> (heap s))
         (cells s) (trace s))
    /\ guards r (length (heap s)) k /\ thunk_id k = id.
Proof.
  intros Htree Hact Hr Hin.
  destruct (active_InTransaction _ _ _ Htree Hact Hin) as (t & Ht & Hrt & Hlt & HinT).
  destruct (tree_OnCommitted_fuel r (heap s) nr Htree Hr (length (heap s)) t
              (CallUser id ctx)) as (k & Hk & Hg & Hid); [lia..|done|].
  exists k. split; [|done].
  unfold Manager.OnCommitted. rewrite bind_eq. cbn. rewrite Ht, HinT. cbn.
  unfold Node.OnCommitted. rewrite bind_eq. cbn. rewrite bind_eq. cbn.
  by rewrite Hk.
Qed.

Lemma OnRollbacked_inside r s ctx id nr :
  tree r (heap s) -> heap s !! r = Some nr -> inside r (heap s) ctx ->
  Manager.OnRollbacked ctxKeyF ctx id s
  = (Normal true,
     mkState (<[r := with_onRollbacked
                       (onRollbackedCallbacks nr ++ [IfRollbacked r (ErrFn id ctx)]) nr]>
                (heap s))
       (cells s) (trace s)).
Proof.
  intros Htree Hr (t & Ht & Hrt & Hlt).
  unfold Manager.OnRollbacked. rewrite Ht.
  unfold Node.OnRollbacked. rewrite bind_eq. cbn. rewrite bind_eq. cbn.
  by rewrite (tree_OnRollbacked_fuel r (heap s) nr Htree Hr) by lia.
Qed.

Lemma handed_app {A : Type} (P : A -> Prop) c0 (l l' : list A) :
  Forall P (drop c0 l) -> Forall P l' -> Forall P (drop c0 (l ++ l')).
Proof.
  intros Hl Hl'. rewrite skipn_app. apply Forall_app. split; [done|].
  by apply Forall_drop.
Qed.

(** Contexts handed to the client stay in the tree while it grows. *)
Lemma handed_grows r s s' c0 :
  grows r s s' ->
  Forall (fun f => inside r (heap s) (f_ctx f)) (drop c0 (cells s)) ->
  Forall (fun f => inside r (heap s') (f_ctx f)) (drop c0 (cells s')).
Proof.
  intros Hg Hin. destruct (grows_cells _ _ _ _ Hg) as (fs & -> & Hfs).
  apply handed_app; [|done].
  eapply Forall_impl; [exact Hin|]. intros f. apply inside_mono.
  apply (grows_len _ _ _ _ Hg).
Qed.

Lemma probe_inside r s ctxs :
  tree r (heap s) -> active r (heap s) -> Forall (inside r (heap s)) ctxs ->
  exists bs, Client.probe ctxKeyF ctxs s = (Normal bs, s) /\ Forall (eq true) bs.
Proof.
  intros Htree Hact. induction 1 as [|ctx ctxs Hin _ (bs & IH & Hbs)].
  - by exists [].
  - destruct (active_InTransaction _ _ _ Htree Hact Hin) as (t & Ht & _ & _ & HinT).
    exists (true :: bs). split; [|by constructor].
    cbn. rewrite bind_eq. unfold Manager.InTransaction. rewrite bind_eq. cbn.
    rewrite Ht, HinT. rewrite bind_eq, IH. done.
Qed.
End Steps.

(** ** Registrations along a run *)

Lemma registered_refl r s : registered r s s [].
Proof.
  exists []. split; [done|]. intros n Hn. exists n. by rewrite app_nil_r.
Qed.

Lemma registered_same r s s' :
  heap s' !! r = heap s !! r -> registered r s s' [].
Proof.
  intros Heq. exists []. split; [done|]. intros n Hn. exists n.
  by rewrite Heq, app_nil_r.
Qed.

Lemma registered_trans r s1 s2 s3 ids1 ids2 :
  registered r s1 s2 ids1 -> registered r s2 s3 ids2 ->
  registered r s1 s3 (ids1 ++ ids2).
Proof.
  intros (ks1 & Hid1 & H1) (ks2 & Hid2 & H2). exists (ks1 ++ ks2).
  split; [by rewrite map_app, Hid1, Hid2|].
  intros n Hn. destruct (H1 n Hn) as (n2 & Hn2 & Hc2).
  destruct (H2 n2 Hn2) as (n3 & Hn3 & Hc3). exists n3. split; [done|].
  by rewrite Hc3, Hc2, map_app, app_assoc.
Qed.

Lemma clean_from_end h : clean_from (length h) h.
Proof.
  intros a n Ha Hn. apply lookup_lt_Some in Hn. lia.
Qed.

Section Nested.
Variable writeDBName : context -> string.
Variable writeDB readDB : context -> option handle.
Variable txSuffix : string.
Variable beginErr commitErr : handle -> option error.
Hypothesis router_stable :
  forall ctx k v, writeDBName (WithValue ctx (TransCtxKey k) v) = writeDBName ctx.

Local Abbreviation K := (Provider.getCtxKey writeDBName txSuffix).
Local Abbreviation find := (Manager.findTransContext K).
Local Abbreviation set := (Manager.setTransContext K).
Local Abbreviation inside := (inside K).
Local Abbreviation grows := (grows K).
Local Abbreviation Transaction :=
  (Provider.Transaction writeDBName writeDB readDB txSuffix beginErr commitErr).

(** A nested call: a child node is added to the tree, the callback runs
    on the new context, and the child is ended and marked done. *)
Lemma nested_step r s ctx t n callback o s2 :
  tree r (heap s) -> active r (heap s) ->
  find ctx = Some t -> r <= t -> heap s !! t = Some n ->
  let t' := length (heap s) in
  let ctx' := set ctx t' in
  let s_in :=
    mkState (heap s ++ [mkTransContext [] [] (Some t) (db n) false true None])
      (cells s ++ [mkFrame (Some t') ctx'])
      (trace s ++ [EvBind (db n) ctx']) in
  callback ctx' s_in = (o, s2) ->
  tree r (heap s2) -> grows r s_in s2 ->
  exists s3,
    Transaction ctx callback s = (o, s3) /\
    tree r (heap s3) /\ grows r s s3 /\
    (o = Normal None -> clean_from (S t') (heap s2) -> clean_from t' (heap s3)) /\
    (forall ids, registered r s_in s2 ids -> registered r s s3 ids).
Proof.
  intros Htree Hact Ht Hrt Hn t' ctx' s_in Hcb Htree2 Hg.
  assert (Hlt : t < t') by (by eapply lookup_lt_Some).
  destruct Hact as (nr & Hr & Hdone).
  assert (HinT : Node.InTransaction (heap s) (Some t) = true).
  { rewrite (tree_InTransaction r (heap s) nr) by done. by rewrite Hdone. }
  set (n0 := mkTransContext [] [] (Some t) (db n) false true None).
  assert (Hn0 : heap s2 !! t' = Some n0).
  { rewrite (grows_old _ _ _ _ Hg) by (cbn; rewrite ?length_app; cbn; lia).
    cbn. apply lookup_snoc. }
  assert (Hc : cells s2 !! length (cells s) = Some (mkFrame (Some t') ctx')).
  { destruct (grows_cells _ _ _ _ Hg) as (fs & -> & _). cbn.
    rewrite lookup_app_l by (rewrite length_app; cbn; lia). apply lookup_snoc. }
  pose proof (Transaction_nested writeDBName writeDB readDB txSuffix beginErr commitErr
                ctx callback s t n o s2 n0 Ht Hn HinT Hcb Hc Hn0
                eq_refl eq_refl) as HT.
  assert (exists n3, Transaction ctx callback s
            = (o, mkState (<[t' := n3]> (heap s2)) (cells s2) (trace s2))
          /\ parent n3 = parent n0
          /\ onCommittedCallbacks n3 = [] /\ onRollbackedCallbacks n3 = []
          /\ (o = Normal None -> clean n3)) as (n3 & HT3 & Hp3 & Hc3 & Hr3 & Hclean3).
  { destruct o as [e|v].
    - exists (with_done true (with_result false e n0)). split_and!; try done.
      by intros [= ->].
    - exists (with_done true n0). by split_and!. }
  eexists. split; [exact HT3|]. cbn.
  assert (Hlen : S t' <= length (heap s2)).
  { pose proof (grows_len _ _ _ _ Hg) as Hl. cbn in Hl.
    rewrite length_app in Hl. cbn in Hl. lia. }
  split_and!.
  - eapply tree_insert_fields; eauto.
  - split; cbn.
    + rewrite length_insert. lia.
    + intros a Ha Hne. rewrite list_lookup_insert_ne by lia.
      rewrite (grows_old _ _ _ _ Hg) by (cbn; rewrite ?length_app; cbn; lia).
      cbn. by rewrite lookup_app_l.
    + intros m Hm. rewrite Hr in Hm. injection Hm as <-.
      destruct (grows_root _ _ _ _ Hg nr) as (cs & rs & Hnr').
      { cbn. rewrite lookup_app_l; [done|by eapply lookup_lt_Some]. }
      exists cs, rs. rewrite list_lookup_insert_ne by lia. done.
    + destruct (grows_cells _ _ _ _ Hg) as (fs & Hfs & Hin). cbn in Hfs.
      exists (mkFrame (Some t') ctx' :: fs). split; [by rewrite Hfs, <- app_assoc|].
      constructor.
      * exists t'. cbn. rewrite length_insert. split_and!; [|lia..].
        by apply find_set.
      * eapply Forall_impl; [exact Hin|]. intros f. apply inside_mono.
        by rewrite length_insert.
    + destruct (grows_trace _ _ _ _ Hg) as (evs & Hevs & Hq). cbn in Hevs.
      exists (EvBind (db n) ctx' :: evs). split; [by rewrite Hevs, <- app_assoc|].
      by constructor.
  - intros Ho Hcl a m Ha Hm. destruct (decide (a = t')) as [->|Hne].
    + rewrite list_lookup_insert_eq in Hm by lia. injection Hm as <-. auto.
    + rewrite list_lookup_insert_ne in Hm by done. apply (Hcl a m); [lia|done].
  - intros ids (ks & Hid & Hreg). exists ks. split; [done|].
    intros m Hm. destruct (Hreg m) as (m' & Hm' & Hcm').
    { cbn. rewrite lookup_app_l; [done|by eapply lookup_lt_Some]. }
    exists m'. split; [|done]. cbn.
    assert (r < t') by lia. by rewrite list_lookup_insert_ne by lia.
Qed.
End Nested.

Section RunFacts.
Variable writeDBName : context -> string.
Variable writeDB readDB : context -> option handle.
Variable txSuffix : string.
Variable beginErr commitErr : handle -> option error.
Hypothesis router_stable :
  forall ctx k v, writeDBName (WithValue ctx (TransCtxKey k) v) = writeDBName ctx.

Local Abbreviation K := (Provider.getCtxKey writeDBName txSuffix).
Local Abbreviation find := (Manager.findTransContext K).
Local Abbreviation set := (Manager.setTransContext K).
Local Abbreviation inside := (inside K).
Local Abbreviation grows := (grows K).
Local Abbreviation Transaction :=
  (Provider.Transaction writeDBName writeDB readDB txSuffix beginErr commitErr).
Local Abbreviation run :=
  (Client.run K (fun ctx => Provider.lookupDB writeDB readDB ctx true)
     (Provider.transaction writeDBName txSuffix beginErr commitErr)).

(** Client code that runs inside the tree of an active root keeps the
    tree, only adds to the state, and logs only quiet events.  When all
    its callbacks return nil it returns nil, every node it made is
    clean, and the root holds one more closure per call to
    [OnCommitted]. *)
Lemma run_spec p : forall r c0 ctx s,
  tree r (heap s) -> active r (heap s) ->
  inside r (heap s) ctx ->
  Forall (fun f => inside r (heap s) (f_ctx f)) (drop c0 (cells s)) ->
  exists o s',
    run p c0 ctx s = (o, s') /\ tree r (heap s') /\ grows r s s' /\
    (all_nil p ->
     o = Normal None /\ clean_from (length (heap s)) (heap s') /\
     registered r s s' (committed_ids p)).
Proof.
  induction p as [e|v|id k IH|id k IH|k IH|body IHbody k IHk];
    intros r c0 ctx s Htree Hact Hin Hhanded.
  - exists (Normal e), s. split_and!; [done|done|apply grows_refl|].
    intros ->. split_and!; [done|apply clean_from_end|apply registered_refl].
  - exists (Panicked v), s. split_and!; [done|done|apply grows_refl|done].
  - destruct Hact as (nr & Hr & Hdone).
    destruct (OnCommitted_inside K r s ctx id nr) as (f & Hreg & Hg & Hid);
      [done|by exists nr|done..|].
    set (s1 := mkState _ _ _) in Hreg.
    assert (Hlen : length (heap s1) = length (heap s)) by (cbn; by rewrite length_insert).
    assert (Hgrow1 : grows r s s1) by (by apply grows_register_commit).
    destruct (IH r c0 ctx s1) as (o & s' & Hrun & Htree' & Hgrow & Hnil).
    { cbn. by apply tree_register_commit. }
    { eapply grows_active; [exact Hgrow1|by exists nr]. }
    { eapply inside_mono; [|done]. by rewrite Hlen. }
    { by eapply handed_grows. }
    exists o, s'. split_and!; [|done| |].
    + cbn. by rewrite bind_eq, Hreg.
    + by eapply grows_trans.
    + intros Hk. destruct (Hnil Hk) as (Ho & Hcl & Hrg). split_and!; [done|by rewrite <- Hlen|].
      cbn. change (id :: committed_ids k) with ([id] ++ committed_ids k).
      eapply registered_trans; [|done].
      exists [f]. split; [by rewrite <- Hid|].
      intros m Hm. rewrite Hr in Hm. injection Hm as <-. eexists. split.
      * cbn. apply list_lookup_insert_eq. by eapply lookup_lt_Some.
      * done.
  - destruct Hact as (nr & Hr & Hdone).
    pose proof (OnRollbacked_inside K r s ctx id nr Htree Hr Hin) as Hreg.
    set (s1 := mkState _ _ _) in Hreg.
    assert (Hlen : length (heap s1) = length (heap s)) by (cbn; by rewrite length_insert).
    assert (Hgrow1 : grows r s s1) by (by apply grows_register_rollback).
    destruct (IH r c0 ctx s1) as (o & s' & Hrun & Htree' & Hgrow & Hnil).
    { cbn. by apply tree_register_rollback. }
    { eapply grows_active; [exact Hgrow1|by exists nr]. }
    { eapply inside_mono; [|done]. by rewrite Hlen. }
    { by eapply handed_grows. }
    exists o, s'. split_and!; [|done| |].
    + cbn. by rewrite bind_eq, Hreg.
    + by eapply grows_trans.
    + intros Hk. destruct (Hnil Hk) as (Ho & Hcl & Hrg). split_and!; [done|by rewrite <- Hlen|].
      cbn. change (committed_ids k) with ([] ++ committed_ids k).
      eapply registered_trans; [|done].
      exists []. split; [done|].
      intros m Hm. rewrite Hr in Hm. injection Hm as <-. eexists. split.
      * cbn. apply list_lookup_insert_eq. by eapply lookup_lt_Some.
      * cbn. by rewrite app_nil_r.
  - destruct (probe_inside K r s (f_ctx <$> drop c0 (cells s))) as (bs & Hprobe & Hbs);
      [done|done|by apply Forall_fmap|].
    set (s1 := mkState (heap s) (cells s) (trace s ++ [EvProbe bs])).
    destruct (IH r c0 ctx s1) as (o & s' & Hrun & Htree' & Hgrow & Hnil); [done..|].
    exists o, s'. split_and!; [|done| |].
    + change (run (Client.Probe k) c0 ctx s)
        with ((Client.handed c0 ≫= fun ctxs =>
               Client.probe K ctxs ≫= fun bs =>
               emit (EvProbe bs) ≫= fun _ => run k c0 ctx) s).
      rewrite bind_eq. unfold Client.handed at 1. rewrite bind_eq, Hprobe.
      by rewrite bind_eq.
    + eapply grows_trans; [|done]. by apply grows_emit.
    + intros Hk. destruct (Hnil Hk) as (Ho & Hcl & Hrg). split_and!; [done..|].
      destruct Hrg as (ks & ? & Hks). by exists ks.
  - destruct (active_InTransaction K r (heap s) ctx Htree Hact Hin)
      as (t & Ht & Hrt & Hlt & HinT).
    destruct (lookup_lt_is_Some_2 _ _ Hlt) as [n Hn].
    set (t' := length (heap s)). set (ctx' := set ctx t').
    set (s_in := mkState (heap s ++ [mkTransContext [] [] (Some t) (db n) false true None])
                   (cells s ++ [mkFrame (Some t') ctx'])
                   (trace s ++ [EvBind (db n) ctx'])).
    assert (Hlen_in : length (heap s_in) = S t').
    { cbn. rewrite length_app. cbn. lia. }
    assert (Hin' : inside r (heap s_in) ctx').
    { exists t'. split_and!; [by apply find_set|lia|lia]. }
    destruct (IHbody r c0 ctx' s_in)
      as (o & s2 & Hbody & Htree2 & Hgrow2 & Hnil2).
    { cbn. by apply tree_alloc. }
    { destruct Hact as (nr & Hr & Hdone). exists nr. split; [|done].
      cbn. rewrite lookup_app_l; [done|by eapply lookup_lt_Some]. }
    { done. }
    { apply (handed_app _ c0 (cells s) [mkFrame (Some t') ctx']);
        [|by apply Forall_singleton].
      eapply Forall_impl; [exact Hhanded|]. intros f. apply inside_mono. lia. }
    destruct (nested_step writeDBName writeDB readDB txSuffix beginErr commitErr
                router_stable r s ctx t n (run body c0) o s2
                Htree Hact Ht Hrt Hn Hbody Htree2 Hgrow2)
      as (s3 & HT & Htree3 & Hgrow3 & Hclean3 & Hreg3).
    destruct o as [e|v].
    + destruct (IHk e r c0 ctx s3) as (o' & s' & Hrun & Htree' & Hgrow' & Hnil').
      { done. }
      { by eapply grows_active. }
      { eapply inside_mono; [|done]. apply (grows_len _ _ _ _ Hgrow3). }
      { by eapply handed_grows. }
      exists o', s'. split_and!; [|done| |].
      * change (run (Client.Nested body k) c0 ctx s)
          with ((Transaction ctx (run body c0) ≫= fun e => run (k e) c0 ctx) s).
        by rewrite bind_eq, HT.
      * by eapply grows_trans.
      * intros [Hb Hk]. destruct (Hnil2 Hb) as (Ho & Hcl2 & Hrg2).
        injection Ho as ->. destruct (Hnil' Hk) as (Ho' & Hcl' & Hrg').
        split_and!; [done| |].
        -- intros a m Ha Hm. destruct (decide (a < length (heap s3))) as [Hlt3|Hge3].
           ++ rewrite (grows_old _ _ _ _ Hgrow' a) in Hm by lia.
              apply (Hclean3 eq_refl) with a; [by rewrite Hlen_in in Hcl2|lia|done].
           ++ apply Hcl' with a; [lia|done].
        -- cbn. eapply registered_trans; [|done]. by apply Hreg3.
    + exists (Panicked v), s3. split_and!; [|done|done|].
      * change (run (Client.Nested body k) c0 ctx s)
          with ((Transaction ctx (run body c0) ≫= fun e => run (k e) c0 ctx) s).
        by rewrite bind_eq, HT.
      * intros [Hb _]. by destruct (Hnil2 Hb) as (Ho & _).
Qed.
End RunFacts.

(** ** The cascade *)

Lemma map_IfCommitted_inj r ks ks' :
  map (IfCommitted r) ks = map (IfCommitted r) ks' -> ks = ks'.
Proof.
  revert ks'. induction ks as [|k ks IH]; intros [|k' ks']; cbn; try done.
  intros [= -> H]. by rewrite (IH _ H).
Qed.

Lemma quiet_not_fired e : quiet e -> committed_of e = None /\ rollbacked_of e = None.
Proof. by destruct e. Qed.

Lemma quiet_fired evs :
  Forall quiet evs -> fired_committed evs = [] /\ fired_rollbacked evs = [].
Proof.
  induction 1 as [|e evs He _ [IHc IHr]]; [done|].
  destruct (quiet_not_fired e He) as [Hc Hr].
  unfold fired_committed, fired_rollbacked in *. cbn. by rewrite Hc, Hr, IHc, IHr.
Qed.

Section Cascade.
Variable ctxKeyF : context -> key.

Lemma fire_no_probe h f bs : EvProbe bs ∉ fire ctxKeyF h f.
Proof.
  induction f as [id ctx|t f IH|t f]; cbn.
  - by intros [=]%list_elem_of_singleton.
  - destruct (Node.isCommitted _ _); [done|]. by intros ?%elem_of_nil.
  - destruct (Node.isRollbacked _ _).
    + by intros [=]%list_elem_of_singleton.
    + by intros ?%elem_of_nil.
Qed.

Lemma fire_each_no_probe h l bs : EvProbe bs ∉ fire_each ctxKeyF h l.
Proof.
  unfold fire_each. induction l as [|f l IH]; cbn.
  - by intros ?%elem_of_nil.
  - intros [?|?]%elem_of_app; [by eapply fire_no_probe|done].
Qed.

(** On a tree whose nodes are all clean, a chain of tests lets the user
    callback through, once. *)
Lemma fire_guarded r h nr f :
  tree r h -> h !! r = Some nr -> clean_from r h -> guards r (length h) f ->
  exists ctx, fire ctxKeyF h f = [EvCommitted (thunk_id f) ctx].
Proof.
  intros Htree Hr Hclean. induction f as [id ctx|t f IH|t f]; cbn.
  - eauto.
  - intros [[Hrt Hlt] Hg].
    rewrite (tree_isCommitted r h nr Htree Hr t Hclean Hrt Hlt). auto.
  - done.
Qed.

Lemma fire_each_guarded r h nr ks :
  tree r h -> h !! r = Some nr -> clean_from r h -> Forall (guards r (length h)) ks ->
  fired_committed (fire_each ctxKeyF h (map (IfCommitted r) ks)) = map thunk_id ks /\
  fired_rollbacked (fire_each ctxKeyF h (map (IfCommitted r) ks)) = [] /\
  length (fire_each ctxKeyF h (map (IfCommitted r) ks)) = length ks.
Proof.
  intros Htree Hr Hclean. assert (Hlt : r < length h) by (by eapply lookup_lt_Some).
  induction 1 as [|k ks Hk _ (IHc & IHr & IHl)]; [done|].
  destruct (fire_guarded r h nr (IfCommitted r k) Htree Hr Hclean) as (ctx & Hf).
  { cbn. split; [lia|done]. }
  unfold fire_each, fired_committed, fired_rollbacked in *.
  cbn [map flat_map]. rewrite Hf. cbn. by rewrite IHc, IHr, IHl.
Qed.
End Cascade.

(** ** The outermost call *)

Section Root.
Variable writeDBName : context -> string.
Variable writeDB readDB : context -> option handle.
Variable txSuffix : string.
Variable beginErr commitErr : handle -> option error.
Hypothesis router_stable :
  forall ctx k v, writeDBName (WithValue ctx (TransCtxKey k) v) = writeDBName ctx.

Local Abbreviation K := (Provider.getCtxKey writeDBName txSuffix).
Local Abbreviation find := (Manager.findTransContext K).
Local Abbreviation set := (Manager.setTransContext K).
Local Abbreviation inside := (inside K).
Local Abbreviation grows := (grows K).
Local Abbreviation Transaction :=
  (Provider.Transaction writeDBName writeDB readDB txSuffix beginErr commitErr).
Local Abbreviation run :=
  (Client.run K (fun ctx => Provider.lookupDB writeDB readDB ctx true)
     (Provider.transaction writeDBName txSuffix beginErr commitErr)).
Local Abbreviation main :=
  (Client.main K (fun ctx => Provider.lookupDB writeDB readDB ctx true)
     (Provider.transaction writeDBName txSuffix beginErr commitErr)).

(** The outermost callback, from the state in which it is entered. *)
Lemma root_run p ctx s d :
  let tx := Tx (Provider.name_of d) in
  let r := length (heap s) in
  let ctx' := set ctx r in
  let s_in :=
    mkState (heap s ++ [mkTransContext [] [] None tx false true None])
      (cells s ++ [mkFrame (Some r) ctx'])
      (trace s ++ [EvBegin d; EvBind tx ctx']) in
  exists o s2 n' ks efs fs evs,
    run p (length (cells s)) ctx' s_in = (o, s2) /\
    tree r (heap s2) /\ grows r s_in s2 /\
    heap s2 !! r = Some n' /\ parent n' = None /\ done n' = false /\
    onCommittedCallbacks n' = map (IfCommitted r) ks /\
    Forall (guards r (length (heap s2))) ks /\
    onRollbackedCallbacks n' = map (IfRollbacked r) efs /\
    cells s2 = cells s ++ mkFrame (Some r) ctx' :: fs /\
    Forall (fun f => inside r (heap s2) (f_ctx f)) (mkFrame (Some r) ctx' :: fs) /\
    trace s2 = trace s ++ [EvBegin d; EvBind tx ctx'] ++ evs /\
    Forall quiet evs /\
    (all_nil p ->
     o = Normal None /\ clean_from (S r) (heap s2) /\ map thunk_id ks = committed_ids p).
Proof.
  intros tx r ctx' s_in.
  set (n0 := mkTransContext [] [] None tx false true None).
  assert (Hr0 : heap s_in !! r = Some n0) by apply lookup_snoc.
  assert (Hlen : length (heap s_in) = S r).
  { cbn. rewrite length_app. cbn. lia. }
  assert (Hin : inside r (heap s_in) ctx').
  { exists r. split_and!; [by apply find_set|lia|lia]. }
  destruct (run_spec writeDBName writeDB readDB txSuffix beginErr commitErr
              router_stable p r (length (cells s)) ctx' s_in)
    as (o & s2 & Hrun & Htree & Hgrow & Hnil).
  { apply tree_new. }
  { by exists n0. }
  { done. }
  { cbn. apply handed_app; [by rewrite drop_all|by apply Forall_singleton]. }
  destruct (tree_root _ _ Htree) as (n' & ks & efs & Hn' & Hp & Hc & Hg & Hrb).
  destruct (grows_root _ _ _ _ Hgrow n0 Hr0) as (cs & rs & Hn'').
  rewrite Hn' in Hn''. injection Hn'' as Hn''.
  destruct (grows_cells _ _ _ _ Hgrow) as (fs & Hfs & Hins).
  destruct (grows_trace _ _ _ _ Hgrow) as (evs & Hevs & Hq).
  exists o, s2, n', ks, efs, fs, evs. split_and!; try done.
  - by rewrite Hn''.
  - rewrite Hfs. cbn. by rewrite <- app_assoc.
  - constructor; [|done]. eapply inside_mono; [|exact Hin].
    apply (grows_len _ _ _ _ Hgrow).
  - rewrite Hevs. cbn. by rewrite <- app_assoc.
  - intros Hp'. destruct (Hnil Hp') as (Ho & Hcl & (ks' & Hid & Hreg)).
    split_and!; [done|by rewrite <- Hlen|].
    destruct (Hreg n0 Hr0) as (m & Hm & Hcm). rewrite Hn' in Hm. injection Hm as <-.
    rewrite Hc in Hcm. cbn in Hcm. apply map_IfCommitted_inj in Hcm. by subst ks'.
Qed.

Lemma gorm_outcome_no_probe tx r e evs bs :
  gorm_outcome commitErr tx r = (e, evs) -> EvProbe bs ∉ evs.
Proof.
  unfold gorm_outcome. destruct r as [e'|]; [|destruct (commitErr tx)];
    intros [= <- <-]; rewrite ?elem_of_cons, elem_of_nil; intuition discriminate.
Qed.

(** How the outermost call ends, whatever its callback did: the root
    gets its result and is marked done, and what is logged after the
    callback are the events of the physical transaction and the calls of
    registered callbacks. *)
Lemma root_exit ctx callback s d o s2 n' :
  Node.InTransaction (heap s) (find ctx) = false ->
  writeDB ctx = Some d -> beginErr d = None ->
  let tx := Tx (Provider.name_of d) in
  let r := length (heap s) in
  let ctx' := set ctx r in
  callback ctx'
    (mkState (heap s ++ [mkTransContext [] [] None tx false true None])
       (cells s ++ [mkFrame (Some r) ctx'])
       (trace s ++ [EvBegin d; EvBind tx ctx'])) = (o, s2) ->
  cells s2 !! length (cells s) = Some (mkFrame (Some r) ctx') ->
  heap s2 !! r = Some n' ->
  parent n' = None ->
  exists o' n'' more,
    Transaction ctx callback s
    = (o', mkState (<[r := n'']> (heap s2)) (cells s2) (trace s2 ++ more)) /\
    parent n'' = parent n' /\
    onCommittedCallbacks n'' = onCommittedCallbacks n' /\
    onRollbackedCallbacks n'' = onRollbackedCallbacks n' /\
    done n'' = true /\
    (forall bs, EvProbe bs ∉ more).
Proof.
  intros Hout Hd Hb tx r ctx' Hcb Hcell Hn' Hp. destruct o as [r0|v].
  - rewrite (Transaction_root_returns _ _ _ _ _ _ _ _ _ d r0 s2 n') by done.
    destruct (gorm_outcome commitErr _ r0) as [e evs0] eqn:Hgo.
    eexists _, _, _. split_and!; [reflexivity|done..|].
    intros bs [Hbs|[Hbs|Hbs]%elem_of_app]%elem_of_app.
    + by eapply gorm_outcome_no_probe.
    + by eapply fire_each_no_probe.
    + by eapply fire_each_no_probe.
  - rewrite (Transaction_root_panics _ _ _ _ _ _ _ _ _ d v s2 n') by done.
    destruct (onRollbackedCallbacks n') as [|f0 l0] eqn:Hreg.
    + eexists _, (with_done true n'), _. split_and!; [reflexivity|done..|].
      by intros bs [=]%list_elem_of_singleton.
    + eexists _, _, _. split_and!; [reflexivity|done..|].
      intros bs [[=]|[Hbs|Hbs]%elem_of_app]%elem_of_cons.
      * by eapply fire_each_no_probe.
      * by eapply fire_each_no_probe.
Qed.

(** Once the root is marked done, no context of its tree is in a
    transaction any more. *)
Lemma done_outside r h n n' ctx :
  tree r h -> h !! r = Some n ->
  parent n' = parent n ->
  onCommittedCallbacks n' = onCommittedCallbacks n ->
  onRollbackedCallbacks n' = onRollbackedCallbacks n ->
  done n' = true ->
  inside r h ctx ->
  Node.InTransaction (<[r := n']> h) (find ctx) = false.
Proof.
  intros Htree Hr Hp Hc Hrb Hd (t & Ht & Hrt & Hlt). rewrite Ht.
  assert (r < length h) by (by eapply lookup_lt_Some).
  rewrite (tree_InTransaction r (<[r := n']> h) n').
  - by rewrite Hd.
  - by eapply tree_insert_fields.
  - by apply list_lookup_insert_eq.
  - done.
  - by rewrite length_insert.
Qed.

(** The nodes that were there before the tree of [r] was planted are
    left alone. *)
Lemma older_nodes_kept s s_in s2 n'' :
  let r := length (heap s) in
  length (heap s_in) = S r ->
  (forall a, a < r -> heap s_in !! a = heap s !! a) ->
  grows r s_in s2 ->
  forall a, a < r -> <[r := n'']> (heap s2) !! a = heap s !! a.
Proof.
  intros r Hlen Hin Hgrow a Ha.
  rewrite list_lookup_insert_ne by lia.
  rewrite (grows_old _ _ _ _ Hgrow) by lia. by apply Hin.
Qed.

Lemma tree_ordered r h : ordered (take r h) -> tree r h -> ordered h.
Proof.
  intros Ho Htree a n p Hn Hp.
  destruct (decide (a < r)) as [Ha|Ha].
  - apply (Ho a n p); [|done]. by rewrite lookup_take_lt.
  - destruct (decide (a = r)) as [->|Hne].
    + destruct (tree_root _ _ Htree) as (nr & _ & _ & Hr & Hpr & _).
      rewrite Hr in Hn. injection Hn as <-. congruence.
    + destruct (tree_desc _ _ Htree a n ltac:(lia) Hn) as [(q & Hq & _ & Hlt) _].
      rewrite Hq in Hp. injection Hp as <-. done.
Qed.

(** C4 (amended). When every callback returns nil and the provider
    commits, the outermost call returns nil; before it returns, and after
    the commit, each commit callback is called once, in the order of
    registration; nothing else is called then, and no commit or rollback
    callback is called before the commit. *)
Theorem C4_commit_cascade p ctx s d :
  Node.InTransaction (heap s) (find ctx) = false ->
  writeDB ctx = Some d -> beginErr d = None ->
  commitErr (Tx (Provider.name_of d)) = None ->
  all_nil p ->
  exists s' pre post,
    main ctx p s = (Normal None, s') /\
    trace s' = trace s ++ pre ++ [EvCommit (Tx (Provider.name_of d))] ++ post /\
    fired_committed pre = [] /\ fired_rollbacked pre = [] /\
    fired_committed post = committed_ids p /\ fired_rollbacked post = [] /\
    length post = length (committed_ids p).
Proof.
  intros Hout Hd Hb Hcommit Hnil. unfold Client.main.
  change (Manager.Transaction K _ _) with Transaction.
  destruct (root_run p ctx s d)
    as (o & s2 & n' & ks & efs & fs & evs & Hrun & Htree & _ & Hn' & Hp & Hdn & Hc & Hg
        & Hrb & Hcells & Hins & Htrace & Hq & Hnil').
  destruct (Hnil' Hnil) as (-> & Hclean & Hids).
  assert (Hcell : cells s2 !! length (cells s)
                  = Some (mkFrame (Some (length (heap s))) (set ctx (length (heap s))))).
  { rewrite Hcells. by apply list_lookup_middle. }
  rewrite (Transaction_root_returns _ _ _ _ _ _ _ _ _ d None s2 n') by done.
  unfold gorm_outcome. rewrite Hcommit.
  set (r := length (heap s)) in *.
  set (h := <[r := with_result false None n']> (heap s2)).
  assert (Hlt : r < length (heap s2)) by (by eapply lookup_lt_Some).
  assert (Hh : h !! r = Some (with_result false None n')).
  { by apply list_lookup_insert_eq. }
  assert (Htree_h : tree r h) by (by eapply tree_insert_fields).
  assert (Hclean_h : clean_from r h).
  { intros a m Ha Hm. destruct (decide (a = r)) as [->|Hne].
    - rewrite Hh in Hm. by injection Hm as <-.
    - subst h. rewrite list_lookup_insert_ne in Hm by done.
      apply (Hclean a m); [lia|done]. }
  assert (Hg_h : Forall (guards r (length h)) ks).
  { subst h. by rewrite length_insert. }
  destruct (fire_each_guarded K r h _ ks Htree_h Hh Hclean_h Hg_h) as (Hfc & Hfr & Hfl).
  assert (Hrb_h : fire_each K h (onRollbackedCallbacks n') = []).
  { rewrite Hrb. by rewrite (fire_each_rollbacked K h r None)
      by (by rewrite (isRollbacked_root h r _ Hh)). }
  eexists _, ([EvBegin d; EvBind (Tx (Provider.name_of d)) (set ctx r)] ++ evs),
    (fire_each K h (onCommittedCallbacks n')).
  split_and!.
  - reflexivity.
  - cbn. rewrite Hrb_h, app_nil_r, Htrace. cbn. by rewrite <- !app_assoc.
  - destruct (quiet_fired evs Hq) as [Hqc _]. unfold fired_committed in *. by cbn.
  - destruct (quiet_fired evs Hq) as [_ Hqr]. unfold fired_rollbacked in *. by cbn.
  - by rewrite Hc, Hfc.
  - by rewrite Hc.
  - by rewrite Hc, Hfl, <- Hids, length_map.
Qed.
End Root.

(** * The claims *)

(** ** Claims about the manager, whatever the provider *)

Section ManagerClaims.
Variable ctxKeyF : context -> key.
Variable lookupDB : context -> outcome (option handle).
Variable transaction :
  context -> handle -> (handle -> Manager.bindfn -> M (option error)) -> M (option error).

Local Abbreviation findTransContext := (Manager.findTransContext ctxKeyF).
Local Abbreviation Transaction := (Manager.Transaction ctxKeyF lookupDB transaction).
Local Abbreviation Transaction_body :=
  (Manager.Transaction_body ctxKeyF lookupDB transaction).
Local Abbreviation findDBAndTransContext :=
  (Manager.findDBAndTransContext ctxKeyF lookupDB).
Local Abbreviation EscapeTransaction := (Manager.EscapeTransaction ctxKeyF).
Local Abbreviation OnCommitted := (Manager.OnCommitted ctxKeyF).
Local Abbreviation OnRollbacked := (Manager.OnRollbacked ctxKeyF).
Local Abbreviation InTransaction := (Manager.InTransaction ctxKeyF).
Local Abbreviation cleanTransContext := (Manager.cleanTransContext ctxKeyF).
Local Abbreviation End := (Manager.End ctxKeyF).

(** C6. [Transaction] on a context with no active node, when the lookup
    finds no handle, does not return: it panics with the fixed message,
    before the provider or the callback are called and before a node is
    made. *)
Theorem C6_unrouted_resource_panics ctx callback s :
  Node.InTransaction (heap s) (findTransContext ctx) = false ->
  lookupDB ctx = Normal None ->
  Transaction ctx callback s
  = (Panicked (PValue "matching database not found"),
     mkState (heap s) (cells s ++ [mkFrame None ctx]) (trace s)).
Proof.
  intros Hout Hdb. rewrite Transaction_eq. cbn.
  unfold Manager.Transaction_body. rewrite bind_eq.
  rewrite findDBAndTransContext_outside by done. rewrite Hdb.
  apply (Transaction_deferred_nil _ _ _ _ ctx). cbn. apply lookup_snoc.
Qed.

(** C7. Inside an active transaction, [EscapeTransaction] calls its
    callback, in the same state, with the context in which the key of the
    manager is bound to nil.  On that context, in any later state,
    [InTransaction] is false and both registrations return false without
    touching the state; the original context still answers true. *)
Theorem C7_escape ctx callback s :
  ctxKeyF (WithValue ctx (ctxKeyF ctx) VNil) = ctxKeyF ctx ->
  Node.InTransaction (heap s) (findTransContext ctx) = true ->
  let escaped := WithValue ctx (ctxKeyF ctx) VNil in
  EscapeTransaction ctx callback s = callback escaped s /\
  (forall id s',
     InTransaction escaped s' = (Normal false, s') /\
     OnCommitted escaped id s' = (Normal false, s') /\
     OnRollbacked escaped id s' = (Normal false, s')) /\
  InTransaction ctx s = (Normal true, s).
Proof.
  intros Hkey Hin escaped.
  assert (Hfind : findTransContext escaped = None).
  { unfold Manager.findTransContext. subst escaped. rewrite Hkey. cbn.
    by rewrite decide_True. }
  split_and!.
  - unfold Manager.EscapeTransaction. rewrite bind_eq. cbn.
    unfold Manager.cleanTransContext. by rewrite Hin.
  - intros id s'. split_and!.
    + unfold Manager.InTransaction. rewrite bind_eq. cbn.
      by rewrite Hfind, InTransaction_None.
    + unfold Manager.OnCommitted. rewrite bind_eq. cbn.
      by rewrite Hfind, InTransaction_None.
    + unfold Manager.OnRollbacked. by rewrite Hfind.
  - unfold Manager.InTransaction. rewrite bind_eq. cbn. by rewrite Hin.
Qed.

(** C9. On a context whose node is no longer in a transaction,
    [OnCommitted] returns false and leaves the state as it is, while
    [OnRollbacked] returns true; [OnRollbacked] returns false exactly on a
    context that carries no node. *)
Theorem C9_registration_on_inactive_node ctx t id s :
  findTransContext ctx = Some t ->
  Node.InTransaction (heap s) (Some t) = false ->
  OnCommitted ctx id s = (Normal false, s) /\
  (OnRollbacked ctx id s).1 = Normal true /\
  (forall ctx' id' s',
     (OnRollbacked ctx' id' s').1 = Normal false <-> findTransContext ctx' = None).
Proof.
  intros Ht Hout. split_and!.
  - unfold Manager.OnCommitted. rewrite bind_eq. cbn. by rewrite Ht, Hout.
  - unfold Manager.OnRollbacked. by rewrite Ht.
  - intros ctx' id' s'. unfold Manager.OnRollbacked.
    destruct (findTransContext ctx') as [t'|]; [|done].
    split; [|done]. by rewrite bind_eq.
Qed.

(** C10. When the provider returns the error [e] and the callback was
    never entered (the variable [transCtx] of the call is still nil),
    [Transaction] returns [e] in the very state the provider left: [End]
    on the nil node and the deferred function do nothing, so the manager
    makes no node and calls no callback. *)
Theorem C10_provider_error_before_callback ctx callback s prev d e s1 :
  let c := length (cells s) in
  let s0 := mkState (heap s) (cells s ++ [mkFrame None ctx]) (trace s) in
  findDBAndTransContext ctx s0 = (Normal (prev, d), s0) ->
  transaction ctx d (Manager.Transaction_callback ctxKeyF c prev callback) s0
    = (Normal (Some e), s1) ->
  cells s1 !! c = Some (mkFrame None ctx) ->
  Transaction ctx callback s = (Normal (Some e), s1) /\
  End None false (Some e) s1 = (Normal tt, s1).
Proof.
  intros c s0 Hfind Hrun Hcell. split; [|done]. rewrite Transaction_eq. cbn.
  unfold Manager.Transaction_body. rewrite bind_eq. fold c s0. rewrite Hfind.
  rewrite bind_eq, Hrun. rewrite bind_eq. unfold load at 1.
  rewrite Hcell. cbn. rewrite bind_eq, End_nil. cbn.
  by apply (Transaction_deferred_nil _ _ _ _ ctx).
Qed.
End ManagerClaims.

(** ** Claims about the registries *)

Lemma OnCommitted_fuel_keeps fuel h t callback a :
  exists more,
    onCommittedCallbacks <$> Node.OnCommitted_fuel fuel h t callback !! a
    = (fun l => l ++ more) <$> (onCommittedCallbacks <$> h !! a) /\
    onRollbackedCallbacks <$> Node.OnCommitted_fuel fuel h t callback !! a
    = onRollbackedCallbacks <$> h !! a.
Proof.
  assert (Hsame : exists more : list thunk,
            onCommittedCallbacks <$> h !! a
            = (fun l => l ++ more) <$> (onCommittedCallbacks <$> h !! a)).
  { exists []. destruct (h !! a); cbn; [|done]. by rewrite app_nil_r. }
  revert t callback. induction fuel as [|fuel IH]; intros t callback; cbn.
  { destruct Hsame as [more Hmore]. by exists more. }
  destruct (h !! t) as [n|] eqn:Hn.
  2:{ destruct Hsame as [more Hmore]. by exists more. }
  destruct (parent n); [apply IH|].
  destruct (decide (t = a)) as [->|Hne].
  - exists [IfCommitted a callback].
    rewrite list_lookup_insert_eq by (by eapply lookup_lt_Some). by rewrite Hn.
  - rewrite list_lookup_insert_ne by done. destruct Hsame as [more Hmore]. by exists more.
Qed.

Lemma OnRollbacked_fuel_keeps fuel h t callback a :
  exists more,
    onRollbackedCallbacks <$> Node.OnRollbacked_fuel fuel h t callback !! a
    = (fun l => l ++ more) <$> (onRollbackedCallbacks <$> h !! a) /\
    onCommittedCallbacks <$> Node.OnRollbacked_fuel fuel h t callback !! a
    = onCommittedCallbacks <$> h !! a.
Proof.
  assert (Hsame : exists more : list thunk,
            onRollbackedCallbacks <$> h !! a
            = (fun l => l ++ more) <$> (onRollbackedCallbacks <$> h !! a)).
  { exists []. destruct (h !! a); cbn; [|done]. by rewrite app_nil_r. }
  revert t. induction fuel as [|fuel IH]; intros t; cbn.
  { destruct Hsame as [more Hmore]. by exists more. }
  destruct (h !! t) as [n|] eqn:Hn.
  2:{ destruct Hsame as [more Hmore]. by exists more. }
  destruct (parent n); [apply IH|].
  destruct (decide (t = a)) as [->|Hne].
  - exists [IfRollbacked a callback].
    rewrite list_lookup_insert_eq by (by eapply lookup_lt_Some). by rewrite Hn.
  - rewrite list_lookup_insert_ne by done. destruct Hsame as [more Hmore]. by exists more.
Qed.

Lemma End_heap ctxKeyF t p e s :
  heap (Manager.End ctxKeyF t p e s).2
  = match t with
    | Some a => update a (with_result p e) (heap s)
    | None => heap s
    end.
Proof.
  destruct t as [a|]; [|done].
  destruct (heap s !! a) as [n|] eqn:Hn.
  - by rewrite (End_eq _ _ _ _ _ _ Hn), (update_lookup _ _ _ _ Hn).
  - unfold Manager.End, Node.End, update. rewrite bind_eq. cbn. rewrite Hn.
    rewrite bind_eq. cbn. rewrite bind_eq. cbn. by rewrite Hn.
Qed.

Lemma kept_refl h : kept h h.
Proof. intros a n Hn. by exists n. Qed.

Lemma kept_trans h1 h2 h3 : kept h1 h2 -> kept h2 h3 -> kept h1 h3.
Proof.
  intros H12 H23 a n Hn.
  destruct (H12 a n Hn) as (n2 & Hn2 & Hc2 & Hr2).
  destruct (H23 a n2 Hn2) as (n3 & Hn3 & Hc3 & Hr3).
  exists n3. split_and!; [done|by etrans..].
Qed.

(** A write to the fields other than the registries. *)
Lemma kept_update t f h :
  (forall n, onCommittedCallbacks (f n) = onCommittedCallbacks n /\
             onRollbackedCallbacks (f n) = onRollbackedCallbacks n) ->
  kept h (update t f h).
Proof.
  intros Hf a n Hn. unfold update. destruct (h !! t) as [m|] eqn:Hm; [|by exists n].
  destruct (decide (t = a)) as [->|Hne].
  - rewrite Hm in Hn. injection Hn as <-. exists (f m).
    rewrite list_lookup_insert_eq by (by eapply lookup_lt_Some).
    destruct (Hf m) as [-> ->]. done.
  - exists n. by rewrite list_lookup_insert_ne.
Qed.

Lemma kept_fmap h h' :
  (forall a,
     exists more more',
       onCommittedCallbacks <$> h' !! a
       = (fun l => l ++ more) <$> (onCommittedCallbacks <$> h !! a) /\
       onRollbackedCallbacks <$> h' !! a
       = (fun l => l ++ more') <$> (onRollbackedCallbacks <$> h !! a)) ->
  kept h h'.
Proof.
  intros H a n Hn. destruct (H a) as (more & more' & Hc & Hr).
  rewrite Hn in Hc, Hr. cbn in Hc, Hr.
  destruct (h' !! a) as [n'|]; [|done]. cbn in Hc, Hr.
  injection Hc as Hc. injection Hr as Hr.
  exists n'. split_and!; [done|by exists more|by exists more'].
Qed.

Lemma keeps_ret {A : Type} (a : A) : keeps (mret a).
Proof. intros s. apply kept_refl. Qed.

Lemma keeps_bind {A B : Type} (m : M A) (f : A -> M B) :
  keeps m -> (forall a, keeps (f a)) -> keeps (m ≫= f).
Proof.
  intros Hm Hf s. rewrite bind_eq. specialize (Hm s).
  destruct (m s) as [[a|v] s1]; [|done].
  eapply kept_trans; [exact Hm|apply Hf].
Qed.

Lemma keeps_read {A : Type} (f : list transContext -> M A) :
  (forall h, keeps (f h)) -> keeps (get_heap ≫= f).
Proof. intros Hf s. rewrite bind_eq. apply Hf. Qed.

Lemma keeps_emit e : keeps (emit e).
Proof. intros s. apply kept_refl. Qed.

Lemma keeps_OnCommitted t callback : keeps (Node.OnCommitted t callback).
Proof.
  intros s.
  change (heap (Node.OnCommitted t callback s).2)
    with (Node.OnCommitted_fuel (length (heap s)) (heap s) t callback).
  apply kept_fmap. intros a.
  destruct (OnCommitted_fuel_keeps (length (heap s)) (heap s) t callback a)
    as (more & Hc & Hr).
  exists more, []. split; [done|]. rewrite Hr.
  destruct (heap s !! a); cbn; [|done]. by rewrite app_nil_r.
Qed.

Lemma keeps_OnRollbacked t callback : keeps (Node.OnRollbacked t callback).
Proof.
  intros s.
  change (heap (Node.OnRollbacked t callback s).2)
    with (Node.OnRollbacked_fuel (length (heap s)) (heap s) t callback).
  apply kept_fmap. intros a.
  destruct (OnRollbacked_fuel_keeps (length (heap s)) (heap s) t callback a)
    as (more & Hr & Hc).
  exists [], more. split; [|done]. rewrite Hc.
  destruct (heap s !! a); cbn; [|done]. by rewrite app_nil_r.
Qed.

Lemma keeps_Manager_OnCommitted ctxKeyF ctx id :
  keeps (Manager.OnCommitted ctxKeyF ctx id).
Proof.
  unfold Manager.OnCommitted. apply keeps_read. intros h.
  destruct (negb _); [apply keeps_ret|].
  destruct (Manager.findTransContext ctxKeyF ctx) as [t|]; [|intros s; apply kept_refl].
  apply keeps_bind; [apply keeps_OnCommitted|]. intros _. apply keeps_ret.
Qed.

Lemma keeps_Manager_OnRollbacked ctxKeyF ctx id :
  keeps (Manager.OnRollbacked ctxKeyF ctx id).
Proof.
  unfold Manager.OnRollbacked.
  destruct (Manager.findTransContext ctxKeyF ctx) as [t|]; [|apply keeps_ret].
  apply keeps_bind; [apply keeps_OnRollbacked|]. intros _. apply keeps_ret.
Qed.

Section Registries.
Variable callCommitted : nat -> context -> M unit.
Variable callRollbacked : nat -> context -> error -> M unit.

Local Abbreviation call := (Node.call callCommitted callRollbacked).
Local Abbreviation call_each := (Node.call_each callCommitted callRollbacked).
Local Abbreviation End := (Node.End callCommitted callRollbacked).

Section Keeps.
Hypothesis committed_keeps : forall id ctx, keeps (callCommitted id ctx).
Hypothesis rollbacked_keeps : forall id ctx e, keeps (callRollbacked id ctx e).

Lemma keeps_call f : keeps (call f).
Proof.
  induction f as [id ctx|t f IH|t f]; cbn.
  - apply committed_keeps.
  - apply keeps_read. intros h. destruct (Node.isCommitted h (Some t)); [done|].
    apply keeps_ret.
  - apply keeps_read. intros h. destruct (Node.isRollbacked h (Some t)).
    + apply rollbacked_keeps.
    + apply keeps_ret.
Qed.

Lemma keeps_call_each l : keeps (call_each l).
Proof.
  induction l as [|f l IH]; cbn; [apply keeps_ret|].
  apply keeps_bind; [apply keeps_call|done].
Qed.

Lemma keeps_End t p e : keeps (End t p e).
Proof.
  destruct t as [a|]; [|apply keeps_ret]. intros s.
  unfold Node.End. rewrite bind_eq. cbn. rewrite bind_eq. cbn.
  set (s1 := mkState (update a (with_result p e) (heap s)) (cells s) (trace s)).
  apply (kept_trans _ (heap s1)); [by apply kept_update|].
  generalize s1. clear s s1.
  apply keeps_read. intros h. destruct (h !! a) as [n|]; [|apply keeps_ret].
  destruct (negb _); [apply keeps_ret|].
  apply keeps_bind; [|intros _]; apply keeps_read; intros h'; apply keeps_call_each.
Qed.
End Keeps.

Section Inert.
Hypothesis committed_inert : forall id ctx s, heap (callCommitted id ctx s).2 = heap s.
Hypothesis rollbacked_inert : forall id ctx e s, heap (callRollbacked id ctx e s).2 = heap s.

Lemma call_heap f s : heap (call f s).2 = heap s.
Proof.
  induction f as [id ctx|t f IH|t f]; cbn.
  - apply committed_inert.
  - rewrite bind_eq. cbn. by destruct (Node.isCommitted _ _).
  - rewrite bind_eq. cbn. destruct (Node.isRollbacked _ _); [|done].
    apply rollbacked_inert.
Qed.

Lemma call_each_heap l s : heap (call_each l s).2 = heap s.
Proof.
  revert s. induction l as [|f l IH]; intros s; cbn; [done|].
  rewrite bind_eq. pose proof (call_heap f s) as Hf.
  destruct (call f s) as [[[]|v] s1]; cbn in *; [|done]. by rewrite IH.
Qed.

Lemma End_heap_inert t p e s :
  heap (End t p e s).2
  = match t with
    | Some a => update a (with_result p e) (heap s)
    | None => heap s
    end.
Proof.
  destruct t as [a|]; [|done].
  unfold Node.End. rewrite bind_eq. cbn. rewrite bind_eq. cbn. rewrite bind_eq. cbn.
  destruct (update a (with_result p e) (heap s) !! a) as [n|]; [|done].
  destruct (negb _); [done|].
  unfold Node.doOnCommittedCallbacks, Node.doOnRollbackedCallbacks.
  rewrite bind_eq. rewrite (bind_eq get_heap). cbn.
  set (s1 := mkState _ _ _).
  pose proof (call_each_heap (default [] (onCommittedCallbacks <$> heap s1 !! a)) s1) as H1.
  destruct (call_each _ s1) as [[[]|v] s2]; cbn in *; [|done].
  rewrite bind_eq. cbn. by rewrite call_each_heap.
Qed.
End Inert.
End Registries.

(** C8 (amended). The cascade does not empty the registries, and nothing
    else does.  The user callbacks are arbitrary code that may register
    again through the manager while the cascade runs, so they are taken
    as any computations that remove no entry.  Then [End], with the
    cascade it runs on a root, removes none either: every registry of
    every node still begins with the entries it held, in the same order.
    When the callbacks leave the store alone, both registries are
    exactly as they were.  A registration adds entries after the ones
    already there, in the registry of its kind only. *)
Theorem C8_registries_kept callCommitted callRollbacked :
  (forall id ctx, keeps (callCommitted id ctx)) ->
  (forall id ctx e, keeps (callRollbacked id ctx e)) ->
  (forall t p e, keeps (Node.End callCommitted callRollbacked t p e)) /\
  ((forall id ctx s, heap (callCommitted id ctx s).2 = heap s) ->
   (forall id ctx e s, heap (callRollbacked id ctx e s).2 = heap s) ->
   forall t p e s a,
     onCommittedCallbacks <$> heap (Node.End callCommitted callRollbacked t p e s).2 !! a
     = onCommittedCallbacks <$> heap s !! a /\
     onRollbackedCallbacks <$> heap (Node.End callCommitted callRollbacked t p e s).2 !! a
     = onRollbackedCallbacks <$> heap s !! a) /\
  (forall fuel h t callback a,
     exists more,
       onCommittedCallbacks <$> Node.OnCommitted_fuel fuel h t callback !! a
       = (fun l => l ++ more) <$> (onCommittedCallbacks <$> h !! a) /\
       onRollbackedCallbacks <$> Node.OnCommitted_fuel fuel h t callback !! a
       = onRollbackedCallbacks <$> h !! a) /\
  (forall fuel h t callback a,
     exists more,
       onRollbackedCallbacks <$> Node.OnRollbacked_fuel fuel h t callback !! a
       = (fun l => l ++ more) <$> (onRollbackedCallbacks <$> h !! a) /\
       onCommittedCallbacks <$> Node.OnRollbacked_fuel fuel h t callback !! a
       = onCommittedCallbacks <$> h !! a).
Proof.
  intros Hc Hr. split_and!.
  - intros t p e. by apply keeps_End.
  - intros Hci Hri t p e s a. rewrite End_heap_inert by done.
    destruct t as [t|]; [|done].
    unfold update. destruct (heap s !! t) as [n|] eqn:Hn; [|done].
    destruct (decide (t = a)) as [->|Hne].
    + rewrite list_lookup_insert_eq by (by eapply lookup_lt_Some). by rewrite Hn.
    + by rewrite list_lookup_insert_ne.
  - apply OnCommitted_fuel_keeps.
  - apply OnRollbacked_fuel_keeps.
Qed.

(** ** Claims about the provider *)

Section ProviderClaims.
Variable writeDBName : context -> string.
Variable writeDB readDB : context -> option handle.
Variable txSuffix : string.
Variable beginErr commitErr : handle -> option error.

Local Abbreviation K := (Provider.getCtxKey writeDBName txSuffix).
Local Abbreviation find := (Manager.findTransContext K).
Local Abbreviation lookup := (fun ctx => Provider.lookupDB writeDB readDB ctx true).
Local Abbreviation ptransaction :=
  (Provider.transaction writeDBName txSuffix beginErr commitErr).
Local Abbreviation Transaction :=
  (Provider.Transaction writeDBName writeDB readDB txSuffix beginErr commitErr).

(** C3. A call on a context whose node [t] is active.  The manager does
    not look up a database: whatever the lookup and the provider are, it
    calls the provider with the handle of [t].  The gorm provider calls
    the callback it is given at once, on the handle it was given,
    without going through [gorm.DB.Transaction].  So the closure of the
    manager starts the new node as a child of [t] holding the handle of
    [t], binds that handle to the new context, and the whole call is the
    user callback run on the new context in that state, followed by
    [End] on the new node and by the deferred function: between the
    entry of the call and the entry of the callback the only event is
    the bind to the handle of [t], and nothing is begun.  When the
    callback leaves the variables of the call and the new node in place,
    as client code does, the call ends in the state the callback left,
    with the new node ended and marked done: the manager and the
    provider add no event of their own. *)
Theorem C3_nested_call_shares_handle ctx callback s t n :
  find ctx = Some t -> heap s !! t = Some n ->
  Node.InTransaction (heap s) (Some t) = true ->
  let c := length (cells s) in
  let t' := length (heap s) in
  let ctx' := Manager.setTransContext K ctx t' in
  let s0 := mkState (heap s) (cells s ++ [mkFrame None ctx]) (trace s) in
  let s1 := mkState (heap s ++ [mkTransContext [] [] (Some t) (db n) false true None])
              (cells s ++ [mkFrame (Some t') ctx'])
              (trace s ++ [EvBind (db n) ctx']) in
  (forall lookupDB transaction,
     Manager.Transaction_body K lookupDB transaction c ctx callback s0
     = (e ← transaction ctx (db n) (Manager.Transaction_callback K c (Some t) callback);
        f ← load c;
        Manager.End K (f_transCtx f) false e;;
        mret e) s0) /\
  (forall d cb, ptransaction ctx d cb s0 = cb d (Some (Provider.bindCtx d)) s0) /\
  Manager.Transaction_callback K c (Some t) callback (db n)
    (Some (Provider.bindCtx (db n))) s0
  = callback ctx' s1 /\
  Transaction ctx callback s
  = (r ← observe (e ← callback ctx';
                  f ← load c;
                  Manager.End K (f_transCtx f) false e;;
                  mret e);
     Manager.Transaction_deferred K c r) s1 /\
  (forall r s2 n',
     callback ctx' s1 = (r, s2) ->
     cells s2 !! c = Some (mkFrame (Some t') ctx') ->
     heap s2 !! t' = Some n' ->
     Node.isRoot n' = false -> onRollbackedCallbacks n' = [] ->
     Transaction ctx callback s
     = match r with
       | Normal e =>
           (Normal e,
            mkState (<[t' := with_done true (with_result false e n')]> (heap s2))
              (cells s2) (trace s2))
       | Panicked v =>
           (Panicked v,
            mkState (<[t' := with_done true n']> (heap s2)) (cells s2) (trace s2))
       end).
Proof.
  intros Ht Hn Hin c t' ctx' s0 s1.
  assert (Hbody : forall lookupDB transaction,
     Manager.Transaction_body K lookupDB transaction c ctx callback s0
     = (e ← transaction ctx (db n) (Manager.Transaction_callback K c (Some t) callback);
        f ← load c;
        Manager.End K (f_transCtx f) false e;;
        mret e) s0).
  { intros lookupDB transaction. unfold Manager.Transaction_body. rewrite bind_eq.
    by erewrite findDBAndTransContext_inside by (cbn; eauto). }
  assert (Hprov : forall d cb,
            ptransaction ctx d cb s0 = cb d (Some (Provider.bindCtx d)) s0).
  { intros d cb. apply transaction_inside. cbn. by rewrite Ht. }
  assert (Hcb : Manager.Transaction_callback K c (Some t) callback (db n)
                  (Some (Provider.bindCtx (db n))) s0
                = callback ctx' s1).
  { erewrite Transaction_callback_eq by (cbn; apply lookup_snoc).
    cbn. unfold c. by rewrite insert_snoc. }
  split_and!; try done.
  - unfold Provider.Transaction. rewrite Transaction_eq. cbn. fold c s0.
    rewrite Hbody. rewrite bind_eq, Hprov, Hcb.
    rewrite (bind_eq (observe _)). unfold observe at 1. rewrite (bind_eq (callback ctx')).
    destruct (callback ctx' s1) as [[e|v] s2]; [|done].
    by destruct ((load c ≫= _) s2) as [r s3].
  - intros r s2 n' Hrun Hcell Hn' Hroot Hreg.
    by apply (Transaction_nested writeDBName writeDB readDB txSuffix beginErr commitErr
                ctx callback s t n r s2 n').
Qed.
End ProviderClaims.

(** * The code at concrete inputs *)

Lemma router_stable_demo ctx k v :
  Demo.router (WithValue ctx (TransCtxKey k) v) = Demo.router ctx.
Proof. reflexivity. Qed.

(** The two states the examples start from are states of real runs: the
    outermost callback, entered from the empty store, reaches [in_root]
    by registering a rollback callback; a transaction that does nothing
    ends in [ended]. *)
Example in_root_reached :
  Demo.run Demo.never Demo.never (Client.OnRollbacked 1 (Client.Ret None)) 0 Demo.ctx1
    (mkState [mkTransContext [] [] None (Tx "main") false true None]
       [mkFrame (Some 0) Demo.ctx1]
       [EvBegin (Pool "main"); EvBind (Tx "main") Demo.ctx1])
  = (Normal None, Demo.in_root).
Proof. reflexivity. Qed.

Example ended_reached :
  Demo.main Demo.never Demo.never Demo.background (Client.Ret None) Demo.start
  = (Normal None, Demo.ended).
Proof. reflexivity. Qed.

(** C1. A rollback callback registered in a nested scope is tested on
    the root only.  The nested callback registers callback 7 and returns
    [E1].  Node 1, on which the callback was registered, is rolled back
    with [E1] in both runs.  When the outer callback drops the error and
    returns nil, the closure kept by the root tests node 0 and callback 7
    is never called; when the outer callback returns [E2], callback 7 is
    called with [E2]. *)
Theorem C1_nested_rollback_callback_not_called :
  let r := Demo.main Demo.never Demo.never Demo.background Demo.nested_error_dropped
             Demo.start in
  let r' := Demo.main Demo.never Demo.never Demo.background Demo.nested_error_replaced
              Demo.start in
  r.1 = Normal None /\
  onRollbackedCallbacks <$> heap r.2 !! 0 = Some [IfRollbacked 0 (ErrFn 7 Demo.ctx2)] /\
  Manager.findTransContext Demo.ctxKey Demo.ctx2 = Some 1 /\
  Node.isRollbacked (heap r.2) (Some 1) = Some "E1" /\
  fired_rollbacked (trace r.2) = [] /\
  r'.1 = Normal (Some "E2") /\
  Node.isRollbacked (heap r'.2) (Some 1) = Some "E1" /\
  fired_rollbacked (trace r'.2) = [(7, "E2")].
Proof. vm_compute. split_and!; done. Qed.

(** C3 at work: a call made with the context of the running root, whose
    handle is the transaction handle [Tx main].  The new node holds that
    handle, the only event is the bind to it, and the call returns in
    the state the callback left, with the new node ended. *)
Lemma C3_nested_call_shares_handle_witness :
  let root := mkTransContext [] [IfRollbacked 0 (ErrFn 1 Demo.ctx1)] None (Tx "main")
                false true None in
  let s0 := mkState (heap Demo.in_root)
              (cells Demo.in_root ++ [mkFrame None Demo.ctx1]) (trace Demo.in_root) in
  let s1 := mkState [root; mkTransContext [] [] (Some 0) (Tx "main") false true None]
              [mkFrame (Some 0) Demo.ctx1; mkFrame (Some 1) Demo.ctx2]
              [EvBegin (Pool "main"); EvBind (Tx "main") Demo.ctx1;
               EvBind (Tx "main") Demo.ctx2] in
  Manager.findTransContext Demo.ctxKey Demo.ctx1 = Some 0 /\
  heap Demo.in_root !! 0 = Some root /\
  Node.InTransaction (heap Demo.in_root) (Some 0) = true /\
  ((forall lookupDB transaction,
      Manager.Transaction_body Demo.ctxKey lookupDB transaction 1 Demo.ctx1 Demo.ok s0
      = (e ← transaction Demo.ctx1 (Tx "main")
               (Manager.Transaction_callback Demo.ctxKey 1 (Some 0) Demo.ok);
         f ← load 1;
         Manager.End Demo.ctxKey (f_transCtx f) false e;;
         mret e) s0) /\
   (forall d cb,
      Demo.provider Demo.never Demo.never Demo.ctx1 d cb s0
      = cb d (Some (Provider.bindCtx d)) s0) /\
   Manager.Transaction_callback Demo.ctxKey 1 (Some 0) Demo.ok (Tx "main")
     (Some (Provider.bindCtx (Tx "main"))) s0
   = Demo.ok Demo.ctx2 s1 /\
   Demo.Transaction Demo.never Demo.never Demo.ctx1 Demo.ok Demo.in_root
   = (r ← observe (e ← Demo.ok Demo.ctx2;
                   f ← load 1;
                   Manager.End Demo.ctxKey (f_transCtx f) false e;;
                   mret e);
      Manager.Transaction_deferred Demo.ctxKey 1 r) s1 /\
   (forall r s2 n',
      Demo.ok Demo.ctx2 s1 = (r, s2) ->
      cells s2 !! 1 = Some (mkFrame (Some 1) Demo.ctx2) ->
      heap s2 !! 1 = Some n' ->
      Node.isRoot n' = false -> onRollbackedCallbacks n' = [] ->
      Demo.Transaction Demo.never Demo.never Demo.ctx1 Demo.ok Demo.in_root
      = match r with
        | Normal e =>
            (Normal e,
             mkState (<[1 := with_done true (with_result false e n')]> (heap s2))
               (cells s2) (trace s2))
        | Panicked v =>
            (Panicked v,
             mkState (<[1 := with_done true n']> (heap s2)) (cells s2) (trace s2))
        end)) /\
  Demo.Transaction Demo.never Demo.never Demo.ctx1 Demo.ok Demo.in_root
  = (Normal None,
     mkState [root; mkTransContext [] [] (Some 0) (Tx "main") true false None]
       [mkFrame (Some 0) Demo.ctx1; mkFrame (Some 1) Demo.ctx2]
       [EvBegin (Pool "main"); EvBind (Tx "main") Demo.ctx1;
        EvBind (Tx "main") Demo.ctx2]).
Proof.
  intros root s0 s1.
  split; [reflexivity|]. split; [reflexivity|]. split; [reflexivity|].
  split; [|reflexivity].
  exact (C3_nested_call_shares_handle Demo.router Demo.pool Demo.pool Demo.suffix
           Demo.never Demo.never Demo.ctx1 Demo.ok Demo.in_root 0 root
           eq_refl eq_refl eq_refl).
Defined.

(** Counterexample to C4 as stated.  Every callback returns nil, but the
    commit fails: the commit callback is not called and the rollback
    callback is.  And when the commit succeeds, the commit callback has
    been called by the time the outermost call returns. *)
Lemma C4_commit_failure_rolls_back :
  let r := Demo.main Demo.never (Demo.always "commit failed") Demo.background
             Demo.register_both Demo.start in
  let r' := Demo.main Demo.never Demo.never Demo.background Demo.register_both
              Demo.start in
  all_nil Demo.register_both /\
  committed_ids Demo.register_both = [1] /\
  r.1 = Normal (Some "commit failed") /\
  fired_committed (trace r.2) = [] /\
  fired_rollbacked (trace r.2) = [(2, "commit failed")] /\
  r'.1 = Normal None /\
  fired_committed (trace r'.2) = [1].
Proof. vm_compute. split_and!; done. Qed.

(** C4 at work: three scopes, one commit callback each. *)
Lemma C4_commit_cascade_witness :
  all_nil (Demo.tower 2) /\
  exists s' pre post,
    Demo.main Demo.never Demo.never Demo.background (Demo.tower 2) Demo.start
    = (Normal None, s') /\
    trace s' = trace Demo.start ++ pre ++ [EvCommit (Tx "main")] ++ post /\
    fired_committed pre = [] /\ fired_rollbacked pre = [] /\
    fired_committed post = [2; 1; 0] /\ fired_rollbacked post = [] /\
    length post = 3.
Proof.
  assert (Hnil : all_nil (Demo.tower 2)) by (simpl; auto).
  split; [exact Hnil|].
  exact (C4_commit_cascade Demo.router Demo.pool Demo.pool Demo.suffix Demo.never
           Demo.never router_stable_demo (Demo.tower 2) Demo.background Demo.start
           (Pool "main") eq_refl eq_refl eq_refl eq_refl Hnil).
Defined.

(** Two calls nested in the outermost one: a probe at each depth on the
    way in, and one after each nested call has ended, when the contexts
    of the ended calls are still in the transaction of the root. *)
Example tower_probes :
  omap probe_of
    (trace (Demo.main Demo.never Demo.never Demo.background (Demo.tower 2) Demo.start).2)
  = [[true]; [true; true]; [true; true; true]; [true; true; true]; [true; true; true]].
Proof. reflexivity. Qed.

(** C6 at work: a manager whose lookup routes nothing. *)
Lemma C6_unrouted_resource_panics_witness :
  Node.InTransaction (heap Demo.start)
    (Manager.findTransContext Demo.ctxKey Demo.background) = false /\
  Demo.no_lookup Demo.background = Normal None /\
  Manager.Transaction Demo.ctxKey Demo.no_lookup (Demo.provider Demo.never Demo.never)
    Demo.background Demo.ok Demo.start
  = (Panicked (PValue "matching database not found"),
     mkState [] [mkFrame None Demo.background] []).
Proof.
  split; [reflexivity|]. split; [reflexivity|].
  exact (C6_unrouted_resource_panics Demo.ctxKey Demo.no_lookup
           (Demo.provider Demo.never Demo.never)
           Demo.background Demo.ok Demo.start eq_refl eq_refl).
Defined.

(** C7 at work: escaping from the context of the running root. *)
Lemma C7_escape_witness :
  Demo.ctxKey (WithValue Demo.ctx1 (Demo.ctxKey Demo.ctx1) VNil) = Demo.ctxKey Demo.ctx1 /\
  Node.InTransaction (heap Demo.in_root)
    (Manager.findTransContext Demo.ctxKey Demo.ctx1) = true /\
  let escaped := WithValue Demo.ctx1 (Demo.ctxKey Demo.ctx1) VNil in
  Manager.EscapeTransaction Demo.ctxKey Demo.ctx1 Demo.ok Demo.in_root
  = Demo.ok escaped Demo.in_root /\
  (forall id s',
     Manager.InTransaction Demo.ctxKey escaped s' = (Normal false, s') /\
     Manager.OnCommitted Demo.ctxKey escaped id s' = (Normal false, s') /\
     Manager.OnRollbacked Demo.ctxKey escaped id s' = (Normal false, s')) /\
  Manager.InTransaction Demo.ctxKey Demo.ctx1 Demo.in_root = (Normal true, Demo.in_root).
Proof.
  split; [reflexivity|]. split; [reflexivity|].
  exact (C7_escape Demo.ctxKey Demo.ctx1 Demo.ok Demo.in_root eq_refl eq_refl).
Defined.

(** Counterexample to C8 as stated.  After the cascade of a committed
    transaction has called the commit callback, both registries of the
    root still hold their closure. *)
Lemma C8_registries_not_drained :
  let r := Demo.main Demo.never Demo.never Demo.background Demo.register_both
             Demo.start in
  fired_committed (trace r.2) = [1] /\
  onCommittedCallbacks <$> heap r.2 !! 0 = Some [IfCommitted 0 (CallUser 1 Demo.ctx1)] /\
  onRollbackedCallbacks <$> heap r.2 !! 0 = Some [IfRollbacked 0 (ErrFn 2 Demo.ctx1)] /\
  onCommittedCallbacks <$> heap r.2 !! 0 <> Some [] /\
  onRollbackedCallbacks <$> heap r.2 !! 0 <> Some [].
Proof. vm_compute. split_and!; done. Qed.

Lemma keeps_Reentrant_callCommitted id ctx : keeps (Reentrant.callCommitted id ctx).
Proof.
  unfold Reentrant.callCommitted.
  apply keeps_bind.
  { unfold Manager.callCommitted. apply keeps_read. intros h. apply keeps_emit. }
  intros _. apply keeps_bind; [apply keeps_Manager_OnCommitted|].
  intros _. apply keeps_bind; [apply keeps_Manager_OnRollbacked|].
  intros _. apply keeps_ret.
Qed.

Lemma keeps_Reentrant_callRollbacked id ctx e : keeps (Reentrant.callRollbacked id ctx e).
Proof.
  unfold Reentrant.callRollbacked.
  apply keeps_bind.
  { unfold Manager.callRollbacked. apply keeps_read. intros h. apply keeps_emit. }
  intros _. apply keeps_bind; [apply keeps_Manager_OnRollbacked|].
  intros _. apply keeps_ret.
Qed.

(** The state the cascade is evaluated on is a state of a real run: the
    provider, called by the outermost call with a callback that
    registers the rollback callback 1 and the commit callback 2 and
    returns nil, returns in [before_End]. *)
Example before_End_reached :
  Demo.provider Demo.never Demo.never Demo.background (Pool "main")
    (Manager.Transaction_callback Demo.ctxKey 0 None
       (Demo.run Demo.never Demo.never
          (Client.OnRollbacked 1 (Client.OnCommitted 2 (Client.Ret None))) 0))
    (mkState [] [mkFrame None Demo.background] [])
  = (Normal None, Reentrant.before_End).
Proof. reflexivity. Qed.

(** C8 at work: the callbacks register again while the cascade runs.
    [End] on the root calls the commit callback 2, which registers the
    callbacks 102 and 202 with the context it kept; the root is not yet
    marked done, so both land in its registries, after the entries that
    were there. *)
Lemma C8_registries_kept_witness :
  (forall id ctx, keeps (Reentrant.callCommitted id ctx)) /\
  (forall id ctx e, keeps (Reentrant.callRollbacked id ctx e)) /\
  let s' := (Node.End Reentrant.callCommitted Reentrant.callRollbacked (Some 0) false None
               Reentrant.before_End).2 in
  kept (heap Reentrant.before_End) (heap s') /\
  fired_committed (trace s') = [2] /\
  onCommittedCallbacks <$> heap Reentrant.before_End !! 0
  = Some [IfCommitted 0 (CallUser 2 Demo.ctx1)] /\
  onCommittedCallbacks <$> heap s' !! 0
  = Some [IfCommitted 0 (CallUser 2 Demo.ctx1); IfCommitted 0 (CallUser 102 Demo.ctx1)] /\
  onRollbackedCallbacks <$> heap Reentrant.before_End !! 0
  = Some [IfRollbacked 0 (ErrFn 1 Demo.ctx1)] /\
  onRollbackedCallbacks <$> heap s' !! 0
  = Some [IfRollbacked 0 (ErrFn 1 Demo.ctx1); IfRollbacked 0 (ErrFn 202 Demo.ctx1)].
Proof.
  split; [exact keeps_Reentrant_callCommitted|].
  split; [exact keeps_Reentrant_callRollbacked|].
  split.
  - exact (proj1 (C8_registries_kept Reentrant.callCommitted Reentrant.callRollbacked
             keeps_Reentrant_callCommitted keeps_Reentrant_callRollbacked)
             (Some 0) false None Reentrant.before_End).
  - vm_compute. by split_and!.
Defined.

(** C9 at work: registrations with a context kept after its transaction
    has ended. *)
Lemma C9_registration_on_inactive_node_witness :
  Manager.findTransContext Demo.ctxKey Demo.ctx1 = Some 0 /\
  Node.InTransaction (heap Demo.ended) (Some 0) = false /\
  Manager.OnCommitted Demo.ctxKey Demo.ctx1 5 Demo.ended = (Normal false, Demo.ended) /\
  (Manager.OnRollbacked Demo.ctxKey Demo.ctx1 5 Demo.ended).1 = Normal true /\
  (forall ctx' id' s',
     (Manager.OnRollbacked Demo.ctxKey ctx' id' s').1 = Normal false
     <-> Manager.findTransContext Demo.ctxKey ctx' = None).
Proof.
  split; [reflexivity|]. split; [reflexivity|].
  exact (C9_registration_on_inactive_node Demo.ctxKey Demo.ctx1 0 5 Demo.ended
           eq_refl eq_refl).
Defined.

(** C10 at work: the driver refuses to begin; the store stays empty and
    the only event is the failed begin. *)
Lemma C10_provider_error_before_callback_witness :
  let s0 := mkState [] [mkFrame None Demo.background] [] in
  let s1 := mkState [] [mkFrame None Demo.background]
              [EvBeginFailed (Pool "main") "no connection"] in
  let provider := Demo.provider (Demo.always "no connection") Demo.never in
  Manager.findDBAndTransContext Demo.ctxKey Demo.lookup Demo.background s0
  = (Normal (None, Pool "main"), s0) /\
  provider Demo.background (Pool "main")
    (Manager.Transaction_callback Demo.ctxKey 0 None Demo.ok) s0
  = (Normal (Some "no connection"), s1) /\
  cells s1 !! 0 = Some (mkFrame None Demo.background) /\
  Manager.Transaction Demo.ctxKey Demo.lookup provider Demo.background Demo.ok Demo.start
  = (Normal (Some "no connection"), s1) /\
  Manager.End Demo.ctxKey None false (Some "no connection") s1 = (Normal tt, s1).
Proof.
  intros s0 s1 provider.
  split; [reflexivity|]. split; [reflexivity|]. split; [reflexivity|].
  exact (C10_provider_error_before_callback Demo.ctxKey Demo.lookup provider
           Demo.background Demo.ok Demo.start None (Pool "main") "no connection" s1
           eq_refl eq_refl eq_refl).
Defined.
(** * Further properties of the node and of the manager *)

(** ** What [End] and [Start] do to the walks *)

Lemma InTransaction_fuel_insert fuel h a n n' t :
  h !! a = Some n -> parent n' = parent n -> done n' = done n ->
  Node.InTransaction_fuel fuel (<[a := n']> h) t = Node.InTransaction_fuel fuel h t.
Proof.
  intros Ha Hp Hd. revert t. induction fuel as [|fuel IH]; intros [t|]; try done.
  cbn. destruct (decide (t = a)) as [->|Hne].
  - rewrite list_lookup_insert_eq by (by eapply lookup_lt_Some). rewrite Ha.
    unfold Node.isRoot. rewrite Hp, Hd. destruct (parent n); [apply IH|done].
  - rewrite list_lookup_insert_ne by done. destruct (h !! t) as [m|]; [|done].
    destruct (negb (Node.isRoot m)); [apply IH|done].
Qed.

Lemma InTransaction_update_result h a p e t :
  Node.InTransaction (update a (with_result p e) h) t = Node.InTransaction h t.
Proof.
  unfold update. destruct (h !! a) as [n|] eqn:Hn; [|done].
  unfold Node.InTransaction. rewrite length_insert.
  by apply InTransaction_fuel_insert with n.
Qed.

(** X1. [End] never takes a context out of the transaction: on any node,
    root or not, with any result, and whatever callbacks it calls,
    [InTransaction] answers for every node after [End] what it answered
    before.  Only the [done] flag, which the deferred function of
    [Transaction] sets, ends a transaction. *)
Theorem End_keeps_InTransaction ctxKeyF a p e s t :
  Node.InTransaction (heap (Manager.End ctxKeyF a p e s).2) t
  = Node.InTransaction (heap s) t.
Proof.
  rewrite End_heap. destruct a as [a|]; [|done]. apply InTransaction_update_result.
Qed.

(** X2. A node that [isCommitted] reports as committed has no rollback
    error: on every store, when [isCommitted] is true, [isRollbacked] is
    nil.  So a commit closure and a rollback closure that test the same
    node never both call their callback. *)
Theorem isCommitted_excludes_isRollbacked h t :
  Node.isCommitted h t = true -> Node.isRollbacked h t = None.
Proof.
  unfold Node.isCommitted, Node.isRollbacked. generalize (length h) as fuel.
  intros fuel. revert t. induction fuel as [|fuel IH]; intros [t|]; try done.
  cbn. destruct (h !! t) as [n|]; [|done].
  destruct (panicked n); [done|]. cbn.
  destruct (err n) as [e|] eqn:He.
  - by rewrite bool_decide_eq_true_2.
  - rewrite bool_decide_eq_false_2 by (by intros []). apply IH.
Qed.

Lemma ordered_from_sound a h :
  ordered_from a h = true ->
  forall i n p, h !! i = Some n -> parent n = Some p -> p < a + i.
Proof.
  revert a. induction h as [|m h IH]; intros a Hord i n p Hn Hp; [done|].
  cbn in Hord. apply andb_prop in Hord as [Hm Hrest]. destruct i as [|i]; cbn in Hn.
  - injection Hn as ->. rewrite Hp in Hm. apply bool_decide_eq_true in Hm. lia.
  - pose proof (IH (S a) Hrest i n p Hn Hp). lia.
Qed.

Lemma ordered_test h : ordered_from 0 h = true -> ordered h.
Proof. intros H a n p Hn Hp. apply (ordered_from_sound 0 h H a n p Hn Hp). Qed.

Lemma same_parents_ordered h h' :
  (forall a, parent <$> h' !! a = parent <$> h !! a) -> ordered h -> ordered h'.
Proof.
  intros Hsame Ho a n p Hn Hp. specialize (Hsame a). rewrite Hn in Hsame. cbn in Hsame.
  destruct (h !! a) as [m|] eqn:Hm; [|done]. cbn in Hsame.
  apply (Ho a m p Hm). congruence.
Qed.

Lemma root_fuel_enough h f1 f2 t :
  ordered h -> t < f1 -> t < f2 -> root_fuel f1 h t = root_fuel f2 h t.
Proof.
  intros Ho. revert f2 t. induction f1 as [|f1 IH]; intros [|f2] t H1 H2; try lia.
  cbn. destruct (h !! t) as [n|] eqn:Hn; [|done].
  destruct (parent n) as [p|] eqn:Hp; [|done].
  pose proof (Ho t n p Hn Hp). apply IH; lia.
Qed.

Lemma root_fuel_S f h t :
  root_fuel (S f) h t
  = match h !! t with
    | Some n =>
        match parent n with
        | None => Some t
        | Some p => root_fuel f h p
        end
    | None => None
    end.
Proof. reflexivity. Qed.

Lemma root_of_eq h t n :
  ordered h -> h !! t = Some n ->
  root_of h t
  = match parent n with
    | None => Some t
    | Some p => root_of h p
    end.
Proof.
  intros Ho Hn. pose proof (lookup_lt_Some _ _ _ Hn) as Hlt. unfold root_of.
  destruct (length h) as [|k] eqn:Hk; [lia|]. rewrite (root_fuel_S k h t), Hn.
  destruct (parent n) as [p|] eqn:Hp; [|done].
  pose proof (Ho t n p Hn Hp). apply root_fuel_enough; [done|lia..].
Qed.

(** X3. On a store built by [Start], every node has a root above it,
    at an address not after its own, and [InTransaction] of the node is
    decided by that root alone: it is true exactly while the root is not
    marked done, whatever was recorded on the nodes in between. *)
Theorem InTransaction_is_the_roots h t n :
  ordered h -> h !! t = Some n ->
  exists r nr,
    root_of h t = Some r /\ r <= t /\ h !! r = Some nr /\ parent nr = None /\
    Node.InTransaction h (Some t) = negb (done nr).
Proof.
  intros Ho. revert n. induction t as [t IH] using (well_founded_induction lt_wf).
  intros n Hn. rewrite (root_of_eq h t n Ho Hn), (InTransaction_eq h Ho t n Hn).
  unfold Node.isRoot. destruct (parent n) as [p|] eqn:Hp; cbn.
  - pose proof (Ho t n p Hn Hp) as Hlt.
    destruct (lookup_lt_is_Some_2 h p) as [m Hm].
    { apply lookup_lt_Some in Hn. lia. }
    destruct (IH p Hlt m Hm) as (r & nr & Hroot & Hle & Hr & Hnil & Hin).
    exists r, nr. split_and!; [done|lia|done..].
  - by exists t, n.
Qed.

Lemma InTransaction_true_lookup h t :
  Node.InTransaction h (Some t) = true -> exists n, h !! t = Some n.
Proof.
  unfold Node.InTransaction. destruct (length h) as [|k]; [done|].
  rewrite InTransaction_fuel_S. destruct (h !! t) as [n|]; [eauto|done].
Qed.

Lemma chain_fuel_S f h t :
  chain_fuel (S f) h t
  = match h !! t with
    | Some n =>
        n :: match parent n with
             | None => []
             | Some p => chain_fuel f h p
             end
    | None => []
    end.
Proof. reflexivity. Qed.

Lemma chain_fuel_enough h f1 f2 t :
  ordered h -> t < f1 -> t < f2 -> chain_fuel f1 h t = chain_fuel f2 h t.
Proof.
  intros Ho. revert f2 t. induction f1 as [|f1 IH]; intros [|f2] t H1 H2; try lia.
  rewrite !chain_fuel_S. destruct (h !! t) as [n|] eqn:Hn; [|done].
  destruct (parent n) as [p|] eqn:Hp; [|done].
  pose proof (Ho t n p Hn Hp). f_equal. apply IH; lia.
Qed.

Lemma chain_eq h t n :
  ordered h -> h !! t = Some n ->
  chain h t
  = n :: match parent n with
         | None => []
         | Some p => chain h p
         end.
Proof.
  intros Ho Hn. pose proof (lookup_lt_Some _ _ _ Hn) as Hlt. unfold chain.
  destruct (length h) as [|k] eqn:Hk; [lia|]. rewrite (chain_fuel_S k h t), Hn.
  destruct (parent n) as [p|] eqn:Hp; [|done].
  pose proof (Ho t n p Hn Hp). f_equal. apply chain_fuel_enough; [done|lia..].
Qed.

Lemma isCommitted_None h : Node.isCommitted h None = true.
Proof. unfold Node.isCommitted. by destruct (length h). Qed.

Lemma isRollbacked_None h : Node.isRollbacked h None = None.
Proof. unfold Node.isRollbacked. by destruct (length h). Qed.

(** X4. On a store built by [Start], the walks of a node read its
    chain of parents: the node is committed exactly when neither it nor
    any node above it up to the root has panicked or holds an error, and
    its rollback error is the first error met on the way from the node
    to the root, nil when there is none. *)
Theorem walks_follow_the_chain h t n :
  ordered h -> h !! t = Some n ->
  head (chain h t) = Some n /\
  Node.isCommitted h (Some t)
  = forallb (fun m => negb (panicked m) && bool_decide (err m = None)) (chain h t) /\
  Node.isRollbacked h (Some t) = head (omap err (chain h t)).
Proof.
  intros Ho. revert n. induction t as [t IH] using (well_founded_induction lt_wf).
  intros n Hn.
  rewrite (chain_eq h t n Ho Hn), (isCommitted_eq h Ho t n Hn), (isRollbacked_eq h Ho t n Hn).
  split; [done|].
  assert (Hrest :
    Node.isCommitted h (parent n)
    = forallb (fun m => negb (panicked m) && bool_decide (err m = None))
        match parent n with None => [] | Some p => chain h p end /\
    Node.isRollbacked h (parent n)
    = head (omap err match parent n with None => [] | Some p => chain h p end)).
  { destruct (parent n) as [p|] eqn:Hp.
    - pose proof (Ho t n p Hn Hp) as Hlt.
      destruct (lookup_lt_is_Some_2 h p) as [m Hm].
      { apply lookup_lt_Some in Hn. lia. }
      by destruct (IH p Hlt m Hm) as (_ & ? & ?).
    - by rewrite isCommitted_None, isRollbacked_None. }
  destruct Hrest as [Hc Hr]. cbn. rewrite Hc, Hr.
  destruct (panicked n), (err n) as [e|]; cbn; try done.
Qed.

(** X5. [Start] makes a node at a fresh address and touches no other
    node.  The new node is in a transaction exactly when the node it was
    started on is (a node started on nil is a root in a transaction); it
    does not count as committed until it is ended; and [InTransaction]
    answers for every older node what it answered before. *)
Theorem Start_inherits t d s :
  ordered (heap s) -> (forall p, t = Some p -> p < length (heap s)) ->
  let a := length (heap s) in
  let s' := (Node.Start t d s).2 in
  (Node.Start t d s).1 = Normal a /\
  ordered (heap s') /\
  Node.InTransaction (heap s') (Some a)
  = match t with
    | Some _ => Node.InTransaction (heap s) t
    | None => true
    end /\
  Node.isCommitted (heap s') (Some a) = false /\
  (forall u, u < a ->
     heap s' !! u = heap s !! u /\
     Node.InTransaction (heap s') (Some u) = Node.InTransaction (heap s) (Some u)).
Proof.
  intros Ho Ht a s'. subst s'. cbn.
  set (n := mkTransContext [] [] t d false true None).
  assert (Ho' : ordered (heap s ++ [n])) by (by apply ordered_alloc).
  assert (Hn : (heap s ++ [n]) !! a = Some n) by apply lookup_snoc.
  assert (Hold : forall u, u < a ->
            Node.InTransaction (heap s ++ [n]) (Some u)
            = Node.InTransaction (heap s) (Some u)).
  { intros u Hu. apply InTransaction_prefix; [done|done|rewrite length_app; lia|].
    intros b Hb. by rewrite lookup_app_l. }
  split_and!; [done|done| | |].
  - rewrite (InTransaction_eq _ Ho' a n Hn). unfold Node.isRoot. cbn.
    destruct t as [p|]; [|done]. cbn. apply Hold. by apply Ht.
  - by rewrite (isCommitted_dirty _ a n Hn) by (by left).
  - intros u Hu. split; [by rewrite lookup_app_l|by apply Hold].
Qed.

(** ** What a registered closure tests *)

Section Chain.
Variable ctxKeyF : context -> key.

(** X6. [OnCommitted] on any node [t] of a store built by [Start] adds
    one closure [f] to the commit registry of the root above [t] and
    changes nothing else.  On every later store with the same parent
    links, [f] calls the callback exactly when [isCommitted] holds of
    [t] itself: an error or a panic recorded on [t] or on any node
    between [t] and the root silences the callback. *)
Theorem OnCommitted_fires_iff_committed h t n callback :
  ordered h -> h !! t = Some n ->
  exists r nr f,
    root_of h t = Some r /\ h !! r = Some nr /\ parent nr = None /\
    Node.OnCommitted_fuel (length h) h t callback
    = <[r := with_onCommitted (onCommittedCallbacks nr ++ [f]) nr]> h /\
    forall h', (forall a, parent <$> h' !! a = parent <$> h !! a) ->
      fire ctxKeyF h' f
      = if Node.isCommitted h' (Some t) then fire ctxKeyF h' callback else [].
Proof.
  intros Ho. revert n callback.
  induction t as [t IH] using (well_founded_induction lt_wf).
  intros n callback Hn.
  rewrite (OnCommitted_eq h Ho t n callback Hn), (root_of_eq h t n Ho Hn).
  destruct (parent n) as [p|] eqn:Hp.
  - pose proof (Ho t n p Hn Hp) as Hlt.
    destruct (lookup_lt_is_Some_2 h p) as [m Hm].
    { apply lookup_lt_Some in Hn. lia. }
    destruct (IH p Hlt m (IfCommitted t callback) Hm)
      as (r & nr & f & Hrt & Hr & Hroot & Heq & Hfire).
    exists r, nr, f. split_and!; try done.
    intros h' Hsame. rewrite (Hfire h' Hsame). cbn.
    pose proof (same_parents_ordered h h' Hsame Ho) as Ho'.
    pose proof (Hsame t) as Ht. rewrite Hn in Ht. cbn in Ht.
    destruct (h' !! t) as [n'|] eqn:Hn'; [|done]. cbn in Ht.
    rewrite (isCommitted_eq h' Ho' t n' Hn').
    assert (parent n' = Some p) as -> by congruence.
    destruct (panicked n' || bool_decide (err n' <> None)).
    + by destruct (Node.isCommitted h' (Some p)).
    + by destruct (Node.isCommitted h' (Some p)).
  - exists t, n, (IfCommitted t callback). by split_and!.
Qed.

(** X7. [OnRollbacked] on any node [t] of a store built by [Start] adds
    to the rollback registry of the root [r] above [t] a closure built
    on [r], not on [t], and changes nothing else.  On every later store
    that closure calls the callback exactly when the root's own [err] is
    set, and with the root's error: the result recorded on [t] plays no
    part. *)
Theorem OnRollbacked_tests_only_the_root h t n callback :
  ordered h -> h !! t = Some n ->
  exists r nr,
    root_of h t = Some r /\ h !! r = Some nr /\ parent nr = None /\
    Node.OnRollbacked_fuel (length h) h t callback
    = <[r := with_onRollbacked
               (onRollbackedCallbacks nr ++ [IfRollbacked r callback]) nr]> h /\
    forall h' nr', h' !! r = Some nr' -> parent nr' = None ->
      fire ctxKeyF h' (IfRollbacked r callback)
      = match err nr' with
        | Some e =>
            [EvRollbacked (ef_id callback)
               (Manager.cleanTransContext ctxKeyF h' (ef_ctx callback)) e]
        | None => []
        end.
Proof.
  intros Ho. revert n.
  induction t as [t IH] using (well_founded_induction lt_wf).
  intros n Hn.
  rewrite (OnRollbacked_eq h Ho t n callback Hn), (root_of_eq h t n Ho Hn).
  destruct (parent n) as [p|] eqn:Hp.
  - pose proof (Ho t n p Hn Hp) as Hlt.
    destruct (lookup_lt_is_Some_2 h p) as [m Hm].
    { apply lookup_lt_Some in Hn. lia. }
    apply (IH p Hlt m Hm).
  - exists t, n. split_and!; try done.
    intros h' nr' Hr' Hp'. cbn. by rewrite (isRollbacked_root h' t nr' Hr' Hp').
Qed.
End Chain.

(** ** The context a callback is called with *)

Section Clean.
Variable ctxKeyF : context -> key.
(** The key function does not see the binding the manager adds. *)
Hypothesis key_stable :
  forall ctx, ctxKeyF (WithValue ctx (ctxKeyF ctx) VNil) = ctxKeyF ctx.

Local Abbreviation find := (Manager.findTransContext ctxKeyF).
Local Abbreviation clean := (Manager.cleanTransContext ctxKeyF).

Lemma clean_outside h ctx : Node.InTransaction h (find (clean h ctx)) = false.
Proof.
  unfold Manager.cleanTransContext.
  destruct (Node.InTransaction h (find ctx)) eqn:Hin; cbn; [|done].
  unfold Manager.findTransContext. rewrite key_stable. cbn.
  rewrite decide_True by done. apply InTransaction_None.
Qed.

(** X8. On any store, the context [cleanTransContext] returns is not in
    a transaction, cleaning it again changes nothing, and the values
    bound to all other keys are kept.  Hence every user callback a
    registered closure calls, commit or rollback, is handed a context
    on which [InTransaction] is false at the time of the call. *)
Theorem callbacks_run_outside h :
  (forall ctx,
     Node.InTransaction h (find (clean h ctx)) = false /\
     clean h (clean h ctx) = clean h ctx /\
     (forall k, k <> ctxKeyF ctx -> Value (clean h ctx) k = Value ctx k)) /\
  (forall f e ctx,
     e ∈ fire ctxKeyF h f -> event_ctx e = Some ctx ->
     Node.InTransaction h (find ctx) = false).
Proof.
  split.
  - intros ctx. split_and!.
    + apply clean_outside.
    + unfold Manager.cleanTransContext at 1. by rewrite clean_outside.
    + intros k Hk. unfold Manager.cleanTransContext.
      destruct (negb _); [done|]. cbn. by rewrite decide_False.
  - intros f. induction f as [id c|t f IH|t f]; intros e ctx; cbn.
    + intros ->%list_elem_of_singleton [= <-]. apply clean_outside.
    + destruct (Node.isCommitted h (Some t)); [apply IH|]. by intros ?%elem_of_nil.
    + destruct (Node.isRollbacked h (Some t)); [|by intros ?%elem_of_nil].
      intros ->%list_elem_of_singleton [= <-]. apply clean_outside.
Qed.
End Clean.
(** * Further properties of whole runs *)

(** ** One handle for the whole tree *)

Section Shares.
Variable writeDBName : context -> string.
Variable writeDB readDB : context -> option handle.
Variable txSuffix : string.
Variable beginErr commitErr : handle -> option error.
Hypothesis router_stable :
  forall ctx k v, writeDBName (WithValue ctx (TransCtxKey k) v) = writeDBName ctx.

Local Abbreviation K := (Provider.getCtxKey writeDBName txSuffix).
Local Abbreviation find := (Manager.findTransContext K).
Local Abbreviation set := (Manager.setTransContext K).
Local Abbreviation inside := (inside K).
Local Abbreviation grows := (grows K).
Local Abbreviation Transaction :=
  (Provider.Transaction writeDBName writeDB readDB txSuffix beginErr commitErr).
Local Abbreviation run :=
  (Client.run K (fun ctx => Provider.lookupDB writeDB readDB ctx true)
     (Provider.transaction writeDBName txSuffix beginErr commitErr)).

(** The state a nested call leaves: the one its callback left, with the
    child ended; the child keeps the handle of the node it was started
    on. *)
Lemma nested_step_db r s ctx t n callback o s2 :
  tree r (heap s) -> active r (heap s) ->
  find ctx = Some t -> r <= t -> heap s !! t = Some n ->
  let t' := length (heap s) in
  let ctx' := set ctx t' in
  let s_in :=
    mkState (heap s ++ [mkTransContext [] [] (Some t) (db n) false true None])
      (cells s ++ [mkFrame (Some t') ctx'])
      (trace s ++ [EvBind (db n) ctx']) in
  callback ctx' s_in = (o, s2) ->
  grows r s_in s2 ->
  exists n3,
    Transaction ctx callback s
    = (o, mkState (<[t' := n3]> (heap s2)) (cells s2) (trace s2)) /\
    db n3 = db n.
Proof.
  intros Htree Hact Ht Hrt Hn t' ctx' s_in Hcb Hg.
  assert (Hlt : t < t') by (by eapply lookup_lt_Some).
  destruct Hact as (nr & Hr & Hdone).
  assert (HinT : Node.InTransaction (heap s) (Some t) = true).
  { rewrite (tree_InTransaction r (heap s) nr) by done. by rewrite Hdone. }
  set (n0 := mkTransContext [] [] (Some t) (db n) false true None).
  assert (Hn0 : heap s2 !! t' = Some n0).
  { rewrite (grows_old _ _ _ _ Hg) by (cbn; rewrite ?length_app; cbn; lia).
    cbn. apply lookup_snoc. }
  assert (Hc : cells s2 !! length (cells s) = Some (mkFrame (Some t') ctx')).
  { destruct (grows_cells _ _ _ _ Hg) as (fs & -> & _). cbn.
    rewrite lookup_app_l by (rewrite length_app; cbn; lia). apply lookup_snoc. }
  pose proof (Transaction_nested writeDBName writeDB readDB txSuffix beginErr commitErr
                ctx callback s t n o s2 n0 Ht Hn HinT Hcb Hc Hn0
                eq_refl eq_refl) as HT.
  destruct o as [e|v].
  - by exists (with_done true (with_result false e n0)).
  - by exists (with_done true n0).
Qed.

Lemma shares_insert r d h a n :
  shares r d h -> db n = d -> shares r d (<[a := n]> h).
Proof.
  intros Hs Hd b m Hb Hm. destruct (decide (b = a)) as [->|Hne].
  - apply lookup_lt_Some in Hm as Hlt. rewrite length_insert in Hlt.
    rewrite list_lookup_insert_eq in Hm by done. by injection Hm as <-.
  - rewrite list_lookup_insert_ne in Hm by done. eauto.
Qed.

Lemma shares_alloc r d h n :
  shares r d h -> db n = d -> shares r d (h ++ [n]).
Proof.
  intros Hs Hd b m Hb Hm. destruct (decide (b < length h)) as [Hlt|Hge].
  - rewrite lookup_app_l in Hm by done. eauto.
  - apply lookup_lt_Some in Hm as Hlt. rewrite length_app in Hlt. cbn in Hlt.
    assert (b = length h) as -> by lia. rewrite lookup_snoc in Hm. by injection Hm as <-.
Qed.

(** Client code inside the tree of an active root whose nodes all hold
    [d]: every node it makes holds [d] and every context it is handed
    is bound to [d]. *)
Lemma run_shares p : forall r c0 ctx s d o s',
  tree r (heap s) -> active r (heap s) ->
  inside r (heap s) ctx ->
  Forall (fun f => inside r (heap s) (f_ctx f)) (drop c0 (cells s)) ->
  shares r d (heap s) ->
  run p c0 ctx s = (o, s') ->
  shares r d (heap s') /\
  exists evs, trace s' = trace s ++ evs /\ Forall (bound_to d) evs.
Proof.
  induction p as [e|v|id k IH|id k IH|k IH|body IHbody k IHk];
    intros r c0 ctx s d o s' Htree Hact Hin Hhanded Hsh Hrun.
  - injection Hrun as <- <-. split; [done|]. exists []. by rewrite app_nil_r.
  - injection Hrun as <- <-. split; [done|]. exists []. by rewrite app_nil_r.
  - destruct Hact as (nr & Hr & Hdone).
    destruct (OnCommitted_inside K r s ctx id nr) as (f & Hreg & Hg & Hid);
      [done|by exists nr|done..|].
    set (s1 := mkState _ _ _) in Hreg.
    assert (Hlen : length (heap s1) = length (heap s)) by (cbn; by rewrite length_insert).
    assert (Hgrow1 : grows r s s1) by (by apply grows_register_commit).
    cbn in Hrun. rewrite bind_eq, Hreg in Hrun.
    apply (IH r c0 ctx s1 d o s'); try done.
    + cbn. by apply tree_register_commit.
    + eapply grows_active; [exact Hgrow1|by exists nr].
    + eapply inside_mono; [|done]. by rewrite Hlen.
    + by eapply handed_grows.
    + cbn. apply shares_insert; [done|]. cbn. apply (Hsh r nr); [lia|done].
  - destruct Hact as (nr & Hr & Hdone).
    pose proof (OnRollbacked_inside K r s ctx id nr Htree Hr Hin) as Hreg.
    set (s1 := mkState _ _ _) in Hreg.
    assert (Hlen : length (heap s1) = length (heap s)) by (cbn; by rewrite length_insert).
    assert (Hgrow1 : grows r s s1) by (by apply grows_register_rollback).
    cbn in Hrun. rewrite bind_eq, Hreg in Hrun.
    apply (IH r c0 ctx s1 d o s'); try done.
    + cbn. by apply tree_register_rollback.
    + eapply grows_active; [exact Hgrow1|by exists nr].
    + eapply inside_mono; [|done]. by rewrite Hlen.
    + by eapply handed_grows.
    + cbn. apply shares_insert; [done|]. cbn. apply (Hsh r nr); [lia|done].
  - destruct (probe_inside K r s (f_ctx <$> drop c0 (cells s))) as (bs & Hprobe & Hbs);
      [done|done|by apply Forall_fmap|].
    set (s1 := mkState (heap s) (cells s) (trace s ++ [EvProbe bs])).
    change (run (Client.Probe k) c0 ctx s)
      with ((Client.handed c0 ≫= fun ctxs =>
             Client.probe K ctxs ≫= fun bs =>
             emit (EvProbe bs) ≫= fun _ => run k c0 ctx) s) in Hrun.
    rewrite bind_eq in Hrun. unfold Client.handed at 1 in Hrun.
    rewrite bind_eq, Hprobe in Hrun. rewrite bind_eq in Hrun.
    destruct (IH r c0 ctx s1 d o s') as (Hsh' & evs & Hevs & Hb); try done.
    split; [done|]. exists (EvProbe bs :: evs). split.
    + rewrite Hevs. cbn. by rewrite <- app_assoc.
    + by constructor.
  - destruct (active_InTransaction K r (heap s) ctx Htree Hact Hin)
      as (t & Ht & Hrt & Hlt & HinT).
    destruct (lookup_lt_is_Some_2 _ _ Hlt) as [n Hn].
    assert (Hdb : db n = d) by (by apply (Hsh t n)).
    set (t' := length (heap s)). set (ctx' := set ctx t').
    set (s_in := mkState (heap s ++ [mkTransContext [] [] (Some t) (db n) false true None])
                   (cells s ++ [mkFrame (Some t') ctx'])
                   (trace s ++ [EvBind (db n) ctx'])).
    assert (Hlen_in : length (heap s_in) = S t').
    { cbn. rewrite length_app. cbn. lia. }
    assert (Hin' : inside r (heap s_in) ctx').
    { exists t'. split_and!; [by apply find_set|lia|lia]. }
    assert (Htree_in : tree r (heap s_in)) by (cbn; by apply tree_alloc).
    assert (Hact_in : active r (heap s_in)).
    { destruct Hact as (nr & Hr & Hdone). exists nr. split; [|done].
      cbn. rewrite lookup_app_l; [done|by eapply lookup_lt_Some]. }
    assert (Hhanded_in :
              Forall (fun f => inside r (heap s_in) (f_ctx f)) (drop c0 (cells s_in))).
    { apply (handed_app _ c0 (cells s) [mkFrame (Some t') ctx']);
        [|by apply Forall_singleton].
      eapply Forall_impl; [exact Hhanded|]. intros f. apply inside_mono. lia. }
    destruct (run_spec writeDBName writeDB readDB txSuffix beginErr commitErr
                router_stable body r c0 ctx' s_in Htree_in Hact_in Hin' Hhanded_in)
      as (o2 & s2 & Hbody & Htree2 & Hgrow2 & _).
    destruct (IHbody r c0 ctx' s_in d o2 s2) as (Hsh2 & evs2 & Hevs2 & Hb2); try done.
    { cbn. by apply shares_alloc. }
    destruct (nested_step writeDBName writeDB readDB txSuffix beginErr commitErr
                router_stable r s ctx t n (run body c0) o2 s2
                Htree Hact Ht Hrt Hn Hbody Htree2 Hgrow2)
      as (s3 & HT & Htree3 & Hgrow3 & _).
    destruct (nested_step_db r s ctx t n (run body c0) o2 s2
                Htree Hact Ht Hrt Hn Hbody Hgrow2) as (n3 & HT3 & Hdb3).
    rewrite HT in HT3. injection HT3 as ->.
    change (run (Client.Nested body k) c0 ctx s)
      with ((Transaction ctx (run body c0) ≫= fun e => run (k e) c0 ctx) s) in Hrun.
    rewrite bind_eq, HT in Hrun.
    assert (Hsh3 : shares r d (<[t' := n3]> (heap s2))).
    { apply shares_insert; [done|congruence]. }
    assert (Hevs3 : trace s2 = trace s ++ EvBind d ctx' :: evs2).
    { rewrite Hevs2. cbn. rewrite <- app_assoc, Hdb. done. }
    destruct o2 as [e|v].
    + destruct (IHk e r c0 ctx
                  (mkState (<[t' := n3]> (heap s2)) (cells s2) (trace s2)) d o s')
        as (Hsh' & evs & Hevs & Hb); try done.
      { by eapply grows_active. }
      { eapply inside_mono; [|done]. apply (grows_len _ _ _ _ Hgrow3). }
      { by eapply handed_grows. }
      split; [done|]. exists ((EvBind d ctx' :: evs2) ++ evs). split.
      * rewrite Hevs. cbn. rewrite Hevs3. by rewrite <- app_assoc.
      * apply Forall_app. split; [by constructor|done].
    + injection Hrun as <- <-. split; [done|].
      exists (EvBind d ctx' :: evs2). split; [done|by constructor].
Qed.
End Shares.

(** ** The cascade after the outermost callback *)


Section FireShape.
Variable ctxKeyF : context -> key.

Lemma fire_guard_cases lo hi h f :
  guards lo hi f ->
  fire ctxKeyF h f = [] \/ exists ctx, fire ctxKeyF h f = [EvCommitted (thunk_id f) ctx].
Proof.
  induction f as [id ctx|t f IH|t f]; cbn; [eauto| |done].
  intros [_ Hg]. destruct (Node.isCommitted h (Some t)); [auto|by left].
Qed.

Lemma fire_callbacks h f : Forall is_callback (fire ctxKeyF h f).
Proof.
  induction f as [id ctx|t f IH|t f]; cbn.
  - by constructor.
  - by destruct (Node.isCommitted h (Some t)).
  - destruct (Node.isRollbacked h (Some t)); [by constructor|done].
Qed.

Lemma fire_each_callbacks h l : Forall is_callback (fire_each ctxKeyF h l).
Proof.
  unfold fire_each. induction l as [|f l IH]; cbn; [done|].
  apply Forall_app. split; [apply fire_callbacks|done].
Qed.

Lemma fire_each_sublist lo hi h t ks :
  Forall (guards lo hi) ks ->
  fired_committed (fire_each ctxKeyF h (map (IfCommitted t) ks)) `sublist_of` map thunk_id ks /\
  fired_rollbacked (fire_each ctxKeyF h (map (IfCommitted t) ks)) = [].
Proof.
  unfold fire_each, fired_committed, fired_rollbacked.
  induction 1 as [|k ks Hk _ [IHc IHr]]; cbn; [done|].
  destruct (Node.isCommitted h (Some t)); cbn.
  - destruct (fire_guard_cases _ _ h k Hk) as [->|[ctx ->]]; cbn.
    + split; [by apply sublist_cons|done].
    + split; [by apply sublist_skip|done].
  - split; [by apply sublist_cons|done].
Qed.
End FireShape.

Lemma fired_rollbacked_map e (l : errfn -> context) efs :
  fired_rollbacked (map (fun cb => EvRollbacked (ef_id cb) (l cb) e) efs)
  = map (fun cb => (ef_id cb, e)) efs.
Proof.
  unfold fired_rollbacked. induction efs as [|cb efs IH]; cbn; [done|]. by rewrite IH.
Qed.

Lemma fired_committed_map e (l : errfn -> context) efs :
  fired_committed (map (fun cb => EvRollbacked (ef_id cb) (l cb) e) efs) = [].
Proof. unfold fired_committed. by induction efs. Qed.

Section MainExit.
Variable writeDBName : context -> string.
Variable writeDB readDB : context -> option handle.
Variable txSuffix : string.
Variable beginErr commitErr : handle -> option error.
Hypothesis router_stable :
  forall ctx k v, writeDBName (WithValue ctx (TransCtxKey k) v) = writeDBName ctx.

Local Abbreviation K := (Provider.getCtxKey writeDBName txSuffix).
Local Abbreviation find := (Manager.findTransContext K).
Local Abbreviation set := (Manager.setTransContext K).
Local Abbreviation Transaction :=
  (Provider.Transaction writeDBName writeDB readDB txSuffix beginErr commitErr).
Local Abbreviation main :=
  (Client.main K (fun ctx => Provider.lookupDB writeDB readDB ctx true)
     (Provider.transaction writeDBName txSuffix beginErr commitErr)).

(** The outermost call, whatever the callback does: the events between
    begin and the end of the physical transaction are quiet, and what
    follows is the cascade of the root. *)
Lemma main_exit p ctx s d :
  Node.InTransaction (heap s) (find ctx) = false ->
  writeDB ctx = Some d -> beginErr d = None ->
  let tx := Tx (Provider.name_of d) in
  let r := length (heap s) in
  exists o s' n ks efs pre phys post,
    main ctx p s = (o, s') /\
    heap s' !! r = Some n /\ parent n = None /\ done n = true /\
    onCommittedCallbacks n = map (IfCommitted r) ks /\
    onRollbackedCallbacks n = map (IfRollbacked r) efs /\
    trace s' = trace s ++ [EvBegin d] ++ pre ++ phys ++ post /\
    Forall quiet pre /\ Forall (bound_to tx) pre /\ Forall is_callback post /\
    shares r tx (heap s') /\
    (forall a, a < r -> heap s' !! a = heap s !! a) /\
    match o with
    | Normal None =>
        phys = [EvCommit tx] /\
        fired_committed post `sublist_of` map thunk_id ks /\
        fired_rollbacked post = []
    | Normal (Some e) =>
        (phys = [EvRollback tx] \/ phys = [EvCommitFailed tx e; EvRollback tx]) /\
        fired_committed post = [] /\
        fired_rollbacked post = map (fun cb => (ef_id cb, e)) efs
    | Panicked v =>
        phys = [EvRollback tx] /\
        fired_committed post = [] /\
        fired_rollbacked post = map (fun cb => (ef_id cb, recovered v)) efs
    end.
Proof.
  intros Hout Hd Hb tx r. unfold Client.main.
  change (Manager.Transaction K _ _) with Transaction.
  destruct (root_run writeDBName writeDB readDB txSuffix beginErr commitErr router_stable
              p ctx s d)
    as (o & s2 & n' & ks & efs & fs & evs & Hrun & Htree & Hgrow & Hn' & Hp & Hdn & Hc & Hg
        & Hrb & Hcells & Hins & Htrace & Hq & _).
  fold r tx in Hrun, Htree, Hgrow, Hn', Hc, Hg, Hrb, Hcells, Hins, Htrace.
  assert (Hold : forall n'' a, a < r -> <[r := n'']> (heap s2) !! a = heap s !! a).
  { intros n'' a Ha.
    refine (older_nodes_kept writeDBName txSuffix s _ s2 n'' _ _ Hgrow a Ha).
    - cbn. rewrite length_app. cbn. lia.
    - intros b Hlt. cbn. by rewrite lookup_app_l. }
  assert (Hcell : cells s2 !! length (cells s) = Some (mkFrame (Some r) (set ctx r))).
  { rewrite Hcells. by apply list_lookup_middle. }
  assert (Hlt : r < length (heap s2)) by (by eapply lookup_lt_Some).
  pose proof (fun e l => fired_rollbacked_map e l efs) as Hfr.
  pose proof (fun e l => fired_committed_map e l efs) as Hfc.
  assert (shares r tx (heap s2)
                   /\ exists evs', trace s2
                        = (trace s ++ [EvBegin d; EvBind tx (set ctx r)]) ++ evs'
                        /\ Forall (bound_to tx) evs') as (Hsh2 & evs' & Hevs' & Hbound).
  { refine (run_shares writeDBName writeDB readDB txSuffix beginErr commitErr
              router_stable p r (length (cells s)) (set ctx r) _ tx o s2 _ _ _ _ _ Hrun).
    - apply tree_new.
    - eexists. split; [apply lookup_snoc|done].
    - exists r. cbn. rewrite length_app. cbn. split_and!; [by apply find_set|lia..].
    - cbn. apply handed_app; [by rewrite drop_all|]. apply Forall_singleton.
      exists r. cbn. rewrite length_app. cbn. split_and!; [by apply find_set|lia..].
    - intros a n Ha Hn. apply lookup_lt_Some in Hn as Hlen. cbn in Hlen, Hn.
      rewrite length_app in Hlen. cbn in Hlen. assert (a = length (heap s)) as -> by lia.
      rewrite lookup_snoc in Hn. by injection Hn as <-. }
  assert (evs' = evs) as ->.
  { rewrite Htrace in Hevs'. rewrite <- app_assoc in Hevs'.
    apply app_inv_head in Hevs'. cbn in Hevs'. congruence. }
  assert (Hdb : db n' = tx) by (by apply (Hsh2 r n')).
  assert (Hpre : Forall (bound_to tx) (EvBind tx (set ctx r) :: evs)) by (by constructor).
  assert (Hqpre : Forall quiet (EvBind tx (set ctx r) :: evs)) by (by constructor).
  destruct o as [res|v].
  - rewrite (Transaction_root_returns _ _ _ _ _ _ _ _ _ d res s2 n') by done.
    fold r tx.
    destruct (gorm_outcome commitErr tx res) as [e phys] eqn:Hgo. cbn zeta.
    set (h := <[r := with_result false e n']> (heap s2)).
    assert (Hh : h !! r = Some (with_result false e n')) by (by apply list_lookup_insert_eq).
    exists (Normal e), (mkState (<[r := with_done true (with_result false e n')]> (heap s2))
                          (cells s2)
                          (trace s2 ++ phys ++ fire_each K h (onCommittedCallbacks n')
                             ++ fire_each K h (onRollbackedCallbacks n'))),
      (with_done true (with_result false e n')), ks, efs,
      (EvBind tx (set ctx r) :: evs), phys,
      (fire_each K h (onCommittedCallbacks n') ++ fire_each K h (onRollbackedCallbacks n')).
    split_and!.
    + reflexivity.
    + cbn. by apply list_lookup_insert_eq.
    + done.
    + done.
    + done.
    + done.
    + cbn. rewrite Htrace. cbn. by rewrite <- !app_assoc.
    + done.
    + done.
    + apply Forall_app. split; apply fire_each_callbacks.
    + cbn. by apply shares_insert.
    + intros a Ha. cbn. by apply Hold.
    + rewrite Hc, Hrb. destruct e as [e|].
      * rewrite (fire_each_committed_dirty K h r _ ks Hh) by (by right).
        rewrite (fire_each_rollbacked K h r (Some e)) by (by eapply isRollbacked_err).
        cbn. split_and!; [|apply Hfc|apply Hfr].
        unfold gorm_outcome in Hgo. destruct res as [e'|].
        -- left. congruence.
        -- destruct (commitErr tx) as [e'|]; [|done]. right. congruence.
      * rewrite (fire_each_rollbacked K h r None)
          by (by rewrite (isRollbacked_root h r _ Hh)).
        rewrite app_nil_r.
        destruct (fire_each_sublist K r (length (heap s2)) h r ks Hg) as [Hsub Hno].
        split_and!; try done.
        unfold gorm_outcome in Hgo. destruct res as [e'|]; [done|].
        destruct (commitErr tx); [done|]. congruence.
  - rewrite (Transaction_root_panics _ _ _ _ _ _ _ _ _ d v s2 n') by done.
    fold r tx.
    destruct (onRollbackedCallbacks n') as [|f l] eqn:Hreg.
    + symmetry in Hrb. apply map_eq_nil in Hrb. subst efs.
      eexists (Panicked v), _, (with_done true n'), ks, [],
        (EvBind tx (set ctx r) :: evs), [EvRollback tx], [].
      split_and!.
      * reflexivity.
      * cbn. by apply list_lookup_insert_eq.
      * done.
      * done.
      * done.
      * done.
      * cbn. rewrite Htrace. cbn. by rewrite <- !app_assoc.
      * done.
      * done.
      * done.
      * cbn. by apply shares_insert.
      * intros a Ha. cbn. by apply Hold.
      * done.
      * done.
      * done.
    + cbn zeta.
      set (h := <[r := with_result true (Some (recovered v)) (with_done true n')]> (heap s2)).
      assert (Hh : h !! r = Some (with_result true (Some (recovered v)) (with_done true n')))
        by (by apply list_lookup_insert_eq).
      rewrite Hc, Hrb.
      rewrite (fire_each_committed_dirty K h r _ ks Hh) by (by left).
      rewrite (fire_each_rollbacked K h r (Some (recovered v)))
        by (by eapply isRollbacked_err).
      eexists (Panicked v), _, _, ks, efs,
        (EvBind tx (set ctx r) :: evs), [EvRollback tx], _.
      split_and!.
      * reflexivity.
      * exact Hh.
      * done.
      * done.
      * done.
      * cbn. by rewrite Hreg.
      * cbn. rewrite Htrace. cbn. rewrite <- !app_assoc. reflexivity.
      * done.
      * done.
      * cbn. clear. induction efs as [|cb efs IH]; by constructor.
      * cbn. subst h. by apply shares_insert.
      * intros a Ha. cbn. subst h. by apply Hold.
      * done.
      * apply Hfc.
      * apply Hfr.
Qed.

(** X9. However the outermost callback ends, one call opens one physical
    transaction: after the begin on the pool handle [d], every context
    handed to a callback, at any depth, is bound to the same transaction
    handle and nothing else is begun, committed or rolled back; then the
    physical transaction is committed or rolled back, once; only then
    are user callbacks called.  Every node the call made holds that
    handle, and the nodes that were there before are left as they
    were. *)
Theorem one_physical_transaction p ctx s d :
  Node.InTransaction (heap s) (find ctx) = false ->
  writeDB ctx = Some d -> beginErr d = None ->
  let tx := Tx (Provider.name_of d) in
  exists o s' pre phys post,
    main ctx p s = (o, s') /\
    trace s' = trace s ++ [EvBegin d] ++ pre ++ phys ++ post /\
    Forall (bound_to tx) pre /\
    (phys = [EvCommit tx] \/ phys = [EvRollback tx] \/
     exists e, phys = [EvCommitFailed tx e; EvRollback tx]) /\
    Forall is_callback post /\
    shares (length (heap s)) tx (heap s') /\
    (forall a, a < length (heap s) -> heap s' !! a = heap s !! a).
Proof.
  intros Hout Hd Hb tx.
  destruct (main_exit p ctx s d Hout Hd Hb)
    as (o & s' & n & ks & efs & pre & phys & post & Hmain & _ & _ & _ & _ & _ & Htr & _
        & Hpre & Hpost & Hsh & Hold & Ho).
  exists o, s', pre, phys, post. split_and!; try done.
  destruct o as [[e|]|v].
  - destruct Ho as ([->| ->] & _); eauto.
  - destruct Ho as (-> & _). by left.
  - destruct Ho as (-> & _). right. by left.
Qed.

(** X10. When the outermost call returns nil, the physical transaction was
    committed, no rollback callback was called, and the commit callbacks
    called are among those the root holds, each at most once and in the
    order of registration. *)
Theorem Transaction_returning_nil_commits p ctx s d s' :
  Node.InTransaction (heap s) (find ctx) = false ->
  writeDB ctx = Some d -> beginErr d = None ->
  main ctx p s = (Normal None, s') ->
  let tx := Tx (Provider.name_of d) in
  let r := length (heap s) in
  exists n ks pre post,
    heap s' !! r = Some n /\
    onCommittedCallbacks n = map (IfCommitted r) ks /\
    trace s' = trace s ++ [EvBegin d] ++ pre ++ [EvCommit tx] ++ post /\
    Forall quiet pre /\
    fired_committed post `sublist_of` map thunk_id ks /\
    fired_rollbacked post = [].
Proof.
  intros Hout Hd Hb Hmain tx r.
  destruct (main_exit p ctx s d Hout Hd Hb)
    as (o & s1 & n & ks & efs & pre & phys & post & Hmain' & Hn & _ & _ & Hc & _ & Htr
        & Hq & _ & _ & _ & _ & Ho).
  rewrite Hmain in Hmain'. injection Hmain' as <- <-.
  destruct Ho as (-> & Hsub & Hno).
  by exists n, ks, pre, post.
Qed.

(** X11. When the outermost call returns the error [e], whether it comes
    from a callback or from the commit, the physical transaction was
    rolled back and not committed, no commit callback was called, and
    every rollback callback the root holds, registered at whatever
    depth, was called exactly once with [e], in the order of
    registration. *)
Theorem Transaction_returning_error_rolls_back p ctx s d e s' :
  Node.InTransaction (heap s) (find ctx) = false ->
  writeDB ctx = Some d -> beginErr d = None ->
  main ctx p s = (Normal (Some e), s') ->
  let tx := Tx (Provider.name_of d) in
  let r := length (heap s) in
  exists n efs pre phys post,
    heap s' !! r = Some n /\
    onRollbackedCallbacks n = map (IfRollbacked r) efs /\
    trace s' = trace s ++ [EvBegin d] ++ pre ++ phys ++ post /\
    Forall quiet pre /\
    (phys = [EvRollback tx] \/ phys = [EvCommitFailed tx e; EvRollback tx]) /\
    fired_committed post = [] /\
    fired_rollbacked post = map (fun cb => (ef_id cb, e)) efs.
Proof.
  intros Hout Hd Hb Hmain tx r.
  destruct (main_exit p ctx s d Hout Hd Hb)
    as (o & s1 & n & ks & efs & pre & phys & post & Hmain' & Hn & _ & _ & _ & Hrb & Htr
        & Hq & _ & _ & _ & _ & Ho).
  rewrite Hmain in Hmain'. injection Hmain' as <- <-.
  destruct Ho as (Hphys & Hnc & Hall).
  by exists n, efs, pre, phys, post.
Qed.

(** X12. When the outermost callback panics with [v], the panic goes on with
    [v], the physical transaction was rolled back, no commit callback
    was called, and every rollback callback the root holds was called
    exactly once with the error made from [v]. *)
Theorem Transaction_panicking_rolls_back p ctx s d v s' :
  Node.InTransaction (heap s) (find ctx) = false ->
  writeDB ctx = Some d -> beginErr d = None ->
  main ctx p s = (Panicked v, s') ->
  let tx := Tx (Provider.name_of d) in
  let r := length (heap s) in
  exists n efs pre post,
    heap s' !! r = Some n /\
    onRollbackedCallbacks n = map (IfRollbacked r) efs /\
    trace s' = trace s ++ [EvBegin d] ++ pre ++ [EvRollback tx] ++ post /\
    Forall quiet pre /\
    fired_committed post = [] /\
    fired_rollbacked post = map (fun cb => (ef_id cb, recovered v)) efs.
Proof.
  intros Hout Hd Hb Hmain tx r.
  destruct (main_exit p ctx s d Hout Hd Hb)
    as (o & s1 & n & ks & efs & pre & phys & post & Hmain' & Hn & _ & _ & _ & Hrb & Htr
        & Hq & _ & _ & _ & _ & Ho).
  rewrite Hmain in Hmain'. injection Hmain' as <- <-.
  destruct Ho as (-> & Hnc & Hall).
  by exists n, efs, pre, post.
Qed.
End MainExit.

(** ** Escaping *)

Section Escape.
Variable writeDBName : context -> string.
Variable writeDB readDB : context -> option handle.
Variable txSuffix : string.
Variable beginErr commitErr : handle -> option error.
Hypothesis router_stable :
  forall ctx k v, writeDBName (WithValue ctx (TransCtxKey k) v) = writeDBName ctx.

Local Abbreviation K := (Provider.getCtxKey writeDBName txSuffix).
Local Abbreviation find := (Manager.findTransContext K).
Local Abbreviation main :=
  (Client.main K (fun ctx => Provider.lookupDB writeDB readDB ctx true)
     (Provider.transaction writeDBName txSuffix beginErr commitErr)).

(** X13. A transaction opened inside [EscapeTransaction] is
    independent of the transaction that is running.  With [ctx] in a
    transaction, [EscapeTransaction] hands the callback a context on
    which an outermost call begins a physical transaction of its own on
    the pool handle [d] the lookup gives, runs and ends it as any
    outermost call does, and calls its callbacks at its own end.  The
    nodes of the running transaction are left as they were, and [ctx]
    is still in its transaction afterwards. *)
Theorem escaped_transaction_is_independent p ctx s d :
  ordered (heap s) ->
  Node.InTransaction (heap s) (find ctx) = true ->
  let escaped := WithValue ctx (K ctx) VNil in
  writeDB escaped = Some d -> beginErr d = None ->
  let tx := Tx (Provider.name_of d) in
  exists o s' pre phys post,
    Provider.EscapeTransaction writeDBName txSuffix ctx (fun c => main c p) s = (o, s') /\
    trace s' = trace s ++ [EvBegin d] ++ pre ++ phys ++ post /\
    Forall (bound_to tx) pre /\
    (phys = [EvCommit tx] \/ phys = [EvRollback tx] \/
     exists e, phys = [EvCommitFailed tx e; EvRollback tx]) /\
    Forall is_callback post /\
    shares (length (heap s)) tx (heap s') /\
    (forall a, a < length (heap s) -> heap s' !! a = heap s !! a) /\
    Node.InTransaction (heap s') (find ctx) = true.
Proof.
  intros Ho Hin escaped Hd Hb tx.
  assert (Hout : Node.InTransaction (heap s) (find escaped) = false).
  { unfold escaped. rewrite (find_clean writeDBName txSuffix router_stable).
    apply InTransaction_None. }
  destruct (main_exit writeDBName writeDB readDB txSuffix beginErr commitErr router_stable
              p escaped s d Hout Hd Hb)
    as (o & s' & n & ks & efs & pre & phys & post & Hmain & Hn & _ & _ & _ & _ & Htr & _
        & Hpre & Hpost & Hsh & Hold & Ho').
  exists o, s', pre, phys, post. split_and!; try done.
  - unfold Provider.EscapeTransaction, Manager.EscapeTransaction. rewrite bind_eq. cbn.
    unfold Manager.cleanTransContext. rewrite Hin. cbn. exact Hmain.
  - destruct o as [[e|]|v].
    + destruct Ho' as ([->| ->] & _); eauto.
    + destruct Ho' as (-> & _). by left.
    + destruct Ho' as (-> & _). right. by left.
  - destruct (find ctx) as [t|] eqn:Ht; [|by rewrite InTransaction_None in Hin].
    rewrite <- Hin. apply InTransaction_prefix; [done| | |done].
    + destruct (InTransaction_true_lookup _ _ Hin) as [m Hm]. by eapply lookup_lt_Some.
    + apply lookup_lt_Some in Hn. lia.
Qed.
End Escape.

(** ** [MustTransaction] *)

Section Must.
Variable writeDBName : context -> string.
Variable writeDB readDB : context -> option handle.
Variable txSuffix : string.
Variable beginErr commitErr : handle -> option error.

Local Abbreviation K := (Provider.getCtxKey writeDBName txSuffix).
Local Abbreviation find := (Manager.findTransContext K).
Local Abbreviation set := (Manager.setTransContext K).
Local Abbreviation MustTransaction :=
  (Manager.MustTransaction K (fun ctx => Provider.lookupDB writeDB readDB ctx true)
     (Provider.transaction writeDBName txSuffix beginErr commitErr)).

(** X14. [MustTransaction] on a context outside a transaction, over
    the gorm provider.  When the begin is refused with [e], it panics
    with the error value [e] itself and the callback is never called.
    When the callback returns, the commit decides: on success
    [MustTransaction] returns after the cascade of the root; when the
    commit fails with [e], the physical transaction is rolled back, the
    root is ended with [e], the cascade runs, and [MustTransaction]
    panics with the error value [e]. *)
Theorem MustTransaction_raises_provider_error ctx callback s d :
  Node.InTransaction (heap s) (find ctx) = false ->
  writeDB ctx = Some d ->
  let tx := Tx (Provider.name_of d) in
  let c := length (cells s) in
  let t' := length (heap s) in
  let ctx' := set ctx t' in
  match beginErr d with
  | Some e =>
      MustTransaction ctx callback s
      = (Panicked (PError e),
         mkState (heap s) (cells s ++ [mkFrame None ctx])
           (trace s ++ [EvBeginFailed d e]))
  | None =>
      forall s2 n',
        callback ctx'
          (mkState (heap s ++ [mkTransContext [] [] None tx false true None])
             (cells s ++ [mkFrame (Some t') ctx'])
             (trace s ++ [EvBegin d; EvBind tx ctx'])) = (Normal tt, s2) ->
        cells s2 !! c = Some (mkFrame (Some t') ctx') ->
        heap s2 !! t' = Some n' ->
        parent n' = None ->
        let e := commitErr tx in
        let h := <[t' := with_result false e n']> (heap s2) in
        MustTransaction ctx callback s
        = (match e with
           | Some e => Panicked (PError e)
           | None => Normal tt
           end,
           mkState (<[t' := with_done true (with_result false e n')]> (heap s2))
             (cells s2)
             (trace s2
              ++ match e with
                 | Some e => [EvCommitFailed tx e; EvRollback tx]
                 | None => [EvCommit tx]
                 end
              ++ fire_each K h (onCommittedCallbacks n')
              ++ fire_each K h (onRollbackedCallbacks n')))
  end.
Proof.
  intros Hout Hd tx c t' ctx'. unfold Manager.MustTransaction.
  destruct (beginErr d) as [e|] eqn:Hb; lazy beta iota.
  - rewrite bind_eq.
    change (Manager.Transaction K _ _)
      with (Provider.Transaction writeDBName writeDB readDB txSuffix beginErr commitErr).
    by rewrite (Transaction_root_refused _ _ _ _ _ _ _ _ _ d e Hout Hd Hb).
  - intros s2 n' Hcb Hc Hn' Hp. rewrite bind_eq.
    change (Manager.Transaction K _ _)
      with (Provider.Transaction writeDBName writeDB readDB txSuffix beginErr commitErr).
    rewrite (Transaction_root_returns _ _ _ _ _ _ _ _ _ d None s2 n' Hout Hd Hb);
      [|by rewrite bind_eq; fold tx t' ctx'; rewrite Hcb|done..].
    fold tx t'. unfold gorm_outcome. by destruct (commitErr tx).
Qed.
End Must.
(** * Panics and probes in whole runs *)

Section Reached.
Variable writeDBName : context -> string.
Variable writeDB readDB : context -> option handle.
Variable txSuffix : string.
Variable beginErr commitErr : handle -> option error.
Hypothesis router_stable :
  forall ctx k v, writeDBName (WithValue ctx (TransCtxKey k) v) = writeDBName ctx.

Local Abbreviation K := (Provider.getCtxKey writeDBName txSuffix).
Local Abbreviation find := (Manager.findTransContext K).
Local Abbreviation set := (Manager.setTransContext K).
Local Abbreviation inside := (inside K).
Local Abbreviation grows := (grows K).
Local Abbreviation cleanTransContext := (Manager.cleanTransContext K).
Local Abbreviation Transaction :=
  (Provider.Transaction writeDBName writeDB readDB txSuffix beginErr commitErr).
Local Abbreviation run :=
  (Client.run K (fun ctx => Provider.lookupDB writeDB readDB ctx true)
     (Provider.transaction writeDBName txSuffix beginErr commitErr)).
Local Abbreviation main :=
  (Client.main K (fun ctx => Provider.lookupDB writeDB readDB ctx true)
     (Provider.transaction writeDBName txSuffix beginErr commitErr)).

(** Inside the tree of an active root, a probe answers true once for
    every context it asks about. *)
Lemma probe_all_true r s ctxs :
  tree r (heap s) -> active r (heap s) -> Forall (inside r (heap s)) ctxs ->
  Client.probe K ctxs s = (Normal (replicate (length ctxs) true), s).
Proof.
  intros Htree Hact. induction 1 as [|ctx ctxs Hin _ IH]; [done|].
  destruct (active_InTransaction _ _ _ _ Htree Hact Hin) as (t & Ht & _ & _ & HinT).
  cbn. rewrite bind_eq. unfold Manager.InTransaction. rewrite bind_eq. cbn.
  rewrite Ht, HinT. by rewrite bind_eq, IH.
Qed.

Lemma run_Probe k c0 ctx r s :
  tree r (heap s) -> active r (heap s) ->
  Forall (fun f => inside r (heap s) (f_ctx f)) (drop c0 (cells s)) ->
  run (Client.Probe k) c0 ctx s
  = run k c0 ctx
      (mkState (heap s) (cells s)
         (trace s ++ [EvProbe (replicate (length (cells s) - c0) true)])).
Proof.
  intros Htree Hact Hhanded.
  change (run (Client.Probe k) c0 ctx s)
    with ((Client.handed c0 ≫= fun ctxs =>
           Client.probe K ctxs ≫= fun bs =>
           emit (EvProbe bs) ≫= fun _ => run k c0 ctx) s).
  rewrite bind_eq. unfold Client.handed at 1. rewrite bind_eq.
  rewrite (probe_all_true r) by (done || by apply Forall_fmap).
  rewrite bind_eq. cbn. by rewrite length_fmap, length_drop.
Qed.

(** A probe at a place [E] of a program that runs inside the tree of an
    active root is reached, and answers true for every context handed
    out so far: those handed out before the program was entered and one
    for each nested call the place is in. *)
Lemma run_reaches E q : forall r c0 ctx s,
  tree r (heap s) -> active r (heap s) ->
  inside r (heap s) ctx ->
  Forall (fun f => inside r (heap s) (f_ctx f)) (drop c0 (cells s)) ->
  c0 <= length (cells s) ->
  exists o s' pre post,
    run (plug E (Client.Probe q)) c0 ctx s = (o, s') /\
    trace s'
    = trace s ++ pre
        ++ [EvProbe (replicate (length (cells s) - c0 + nesting E) true)] ++ post.
Proof.
  induction E as [|id E IH|id E IH|E IH|E IH k];
    intros r c0 ctx s Htree Hact Hin Hhanded Hc0.
  - cbn [plug nesting]. rewrite (run_Probe q c0 ctx r s) by done.
    set (s1 := mkState _ _ _).
    destruct (run_spec writeDBName writeDB readDB txSuffix beginErr commitErr
                router_stable q r c0 ctx s1) as (o & s' & Hrun & _ & Hgrow & _); [done..|].
    destruct (grows_trace _ _ _ _ Hgrow) as (evs & Hevs & _).
    exists o, s', [], evs. split; [done|].
    rewrite Hevs. cbn. by rewrite Nat.add_0_r, <- app_assoc.
  - destruct Hact as (nr & Hr & Hdone).
    destruct (OnCommitted_inside K r s ctx id nr) as (f & Hreg & Hg & Hid);
      [done|by exists nr|done..|].
    set (s1 := mkState _ _ _) in Hreg.
    assert (Hlen : length (heap s1) = length (heap s)) by (cbn; by rewrite length_insert).
    assert (Hgrow1 : grows r s s1) by (by apply grows_register_commit).
    destruct (IH r c0 ctx s1) as (o & s' & pre & post & Hrun & Htr).
    { cbn. by apply tree_register_commit. }
    { eapply grows_active; [exact Hgrow1|by exists nr]. }
    { eapply inside_mono; [|done]. by rewrite Hlen. }
    { by eapply handed_grows. }
    { done. }
    exists o, s', pre, post. split; [|done].
    cbn. by rewrite bind_eq, Hreg.
  - destruct Hact as (nr & Hr & Hdone).
    pose proof (OnRollbacked_inside K r s ctx id nr Htree Hr Hin) as Hreg.
    set (s1 := mkState _ _ _) in Hreg.
    assert (Hlen : length (heap s1) = length (heap s)) by (cbn; by rewrite length_insert).
    assert (Hgrow1 : grows r s s1) by (by apply grows_register_rollback).
    destruct (IH r c0 ctx s1) as (o & s' & pre & post & Hrun & Htr).
    { cbn. by apply tree_register_rollback. }
    { eapply grows_active; [exact Hgrow1|by exists nr]. }
    { eapply inside_mono; [|done]. by rewrite Hlen. }
    { by eapply handed_grows. }
    { done. }
    exists o, s', pre, post. split; [|done].
    cbn. by rewrite bind_eq, Hreg.
  - cbn [plug nesting]. rewrite (run_Probe _ c0 ctx r s) by done.
    set (ev := EvProbe _). set (s1 := mkState _ _ _).
    destruct (IH r c0 ctx s1) as (o & s' & pre & post & Hrun & Htr); [done..|].
    exists o, s', (ev :: pre), post. split; [done|].
    rewrite Htr. cbn. by rewrite <- app_assoc.
  - destruct (active_InTransaction K r (heap s) ctx Htree Hact Hin)
      as (t & Ht & Hrt & Hlt & HinT).
    destruct (lookup_lt_is_Some_2 _ _ Hlt) as [n Hn].
    set (t' := length (heap s)). set (ctx' := set ctx t').
    set (s_in := mkState (heap s ++ [mkTransContext [] [] (Some t) (db n) false true None])
                   (cells s ++ [mkFrame (Some t') ctx'])
                   (trace s ++ [EvBind (db n) ctx'])).
    assert (Hlen_in : length (heap s_in) = S t').
    { cbn. rewrite length_app. cbn. lia. }
    assert (Hin' : inside r (heap s_in) ctx').
    { exists t'. split_and!; [by apply find_set|lia|lia]. }
    assert (Htree_in : tree r (heap s_in)) by (cbn; by apply tree_alloc).
    assert (Hact_in : active r (heap s_in)).
    { destruct Hact as (nr & Hr & Hdone). exists nr. split; [|done].
      cbn. rewrite lookup_app_l; [done|by eapply lookup_lt_Some]. }
    assert (Hhanded_in :
              Forall (fun f => inside r (heap s_in) (f_ctx f)) (drop c0 (cells s_in))).
    { apply (handed_app _ c0 (cells s) [mkFrame (Some t') ctx']);
        [|by apply Forall_singleton].
      eapply Forall_impl; [exact Hhanded|]. intros f. apply inside_mono. lia. }
    destruct (run_spec writeDBName writeDB readDB txSuffix beginErr commitErr
                router_stable (plug E (Client.Probe q)) r c0 ctx' s_in
                Htree_in Hact_in Hin' Hhanded_in)
      as (o2 & s2 & Hbody & Htree2 & Hgrow2 & _).
    destruct (IH r c0 ctx' s_in) as (o2' & s2' & pre & post & Hbody' & Htr2); try done.
    { cbn. rewrite length_app. cbn. lia. }
    rewrite Hbody in Hbody'. injection Hbody' as <- <-.
    destruct (nested_step writeDBName writeDB readDB txSuffix beginErr commitErr
                router_stable r s ctx t n (run (plug E (Client.Probe q)) c0) o2 s2
                Htree Hact Ht Hrt Hn Hbody Htree2 Hgrow2)
      as (s3 & HT & Htree3 & Hgrow3 & _).
    destruct (nested_step_db writeDBName writeDB readDB txSuffix beginErr commitErr
                r s ctx t n (run (plug E (Client.Probe q)) c0) o2 s2
                Htree Hact Ht Hrt Hn Hbody Hgrow2) as (n3 & HT3 & _).
    rewrite HT in HT3. injection HT3 as ->.
    assert (Htr3 : trace s2
                   = trace s ++ (EvBind (db n) ctx' :: pre)
                       ++ [EvProbe (replicate (length (cells s) - c0 + S (nesting E)) true)]
                       ++ post).
    { rewrite Htr2. cbn. rewrite length_app. cbn. rewrite <- app_assoc. cbn.
      by replace (length (cells s) + 1 - c0 + nesting E)
        with (length (cells s) - c0 + S (nesting E)) by lia. }
    change (run (plug (InNested E k) (Client.Probe q)) c0 ctx s)
      with ((Transaction ctx (run (plug E (Client.Probe q)) c0) ≫= fun e =>
             run (k e) c0 ctx) s).
    rewrite bind_eq, HT. cbn [nesting].
    destruct o2 as [e|v].
    + destruct (run_spec writeDBName writeDB readDB txSuffix beginErr commitErr
                  router_stable (k e) r c0 ctx
                  (mkState (<[t' := n3]> (heap s2)) (cells s2) (trace s2)))
        as (o' & s' & Hrun & _ & Hgrow' & _).
      { done. }
      { by eapply grows_active. }
      { eapply inside_mono; [|done]. apply (grows_len _ _ _ _ Hgrow3). }
      { by eapply handed_grows. }
      destruct (grows_trace _ _ _ _ Hgrow') as (evs & Hevs & _). cbn in Hevs.
      exists o', s', (EvBind (db n) ctx' :: pre), (post ++ evs). split; [done|].
      rewrite Hevs, Htr3. by rewrite <- !app_assoc.
    + eexists _, _, (EvBind (db n) ctx' :: pre), post. split; [done|]. exact Htr3.
Qed.






(** C5. Whatever the callbacks do, at any depth of nesting, from a
    context outside any transaction.  A probe at a place of the program
    that is in [n] nested calls is reached when the transaction is
    begun, and [InTransaction] answers true there for each of the
    [n + 1] contexts the outermost call and the nested calls handed to
    their callbacks.  Every [InTransaction] asked inside the calls, about
    any context handed to a callback so far, answers true, whether the
    call of that callback is still running or has ended; and once the
    outermost call is over, by a return or by a panic, every context
    that was handed to a callback answers false.  The original context,
    which answered false before the call, answers false after it as
    well. *)
Theorem C5_InTransaction_inside_and_after p ctx s :
  Node.InTransaction (heap s) (find ctx) = false ->
  exists o s' fs evs,
    main ctx p s = (o, s') /\
    cells s' = cells s ++ fs /\
    trace s' = trace s ++ evs /\
    (forall d E q, writeDB ctx = Some d -> beginErr d = None ->
       p = plug E (Client.Probe q) ->
       exists pre post,
         evs = pre ++ [EvProbe (replicate (S (nesting E)) true)] ++ post) /\
    (forall bs, EvProbe bs ∈ evs -> Forall (eq true) bs) /\
    (forall f, f ∈ fs -> Node.InTransaction (heap s') (find (f_ctx f)) = false) /\
    (ordered (heap s) -> (forall t, find ctx = Some t -> t < length (heap s)) ->
     ordered (heap s') /\ Node.InTransaction (heap s') (find ctx) = false).
Proof.
  intros Hout. unfold Client.main.
  change (Manager.Transaction K _ _) with Transaction.
  destruct (writeDB ctx) as [d|] eqn:Hd.
  2:{ rewrite Transaction_root_unrouted by done.
      eexists _, _, [mkFrame None ctx], []. cbn.
      split_and!; [done|done|by rewrite app_nil_r|done| | |done].
      - by intros bs ?%elem_of_nil.
      - by intros f ->%list_elem_of_singleton. }
  destruct (beginErr d) as [e|] eqn:Hb.
  { rewrite (Transaction_root_refused _ _ _ _ _ _ _ _ _ d e) by done.
    eexists _, _, [mkFrame None ctx], [_]. cbn.
    split_and!; [done|done|done| | | |done].
    - intros d' E q [= <-] Hb'. congruence.
    - by intros bs [=]%list_elem_of_singleton.
    - by intros f ->%list_elem_of_singleton. }
  destruct (root_run writeDBName writeDB readDB txSuffix beginErr commitErr router_stable
              p ctx s d)
    as (o & s2 & n' & ks & efs & fs & evs & Hrun & Htree & Hgrow & Hn' & Hp & Hdn & Hc
        & Hg & Hrb & Hcells & Hins & Htrace & Hq & _).
  assert (Hcell : cells s2 !! length (cells s)
                  = Some (mkFrame (Some (length (heap s))) (set ctx (length (heap s))))).
  { rewrite Hcells. by apply list_lookup_middle. }
  destruct (root_exit writeDBName writeDB readDB txSuffix beginErr commitErr
              ctx _ s d o s2 n' Hout Hd Hb Hrun Hcell Hn' Hp)
    as (o' & n'' & more & HT & Hp'' & Hc'' & Hrb'' & Hd'' & Hmore).
  rewrite HT. eexists _, _, _, _. cbn. split_and!; [done|exact Hcells| | | | |].
  - rewrite Htrace, <- !app_assoc. reflexivity.
  - intros d' E q [= <-] _ ->.
    set (r := length (heap s)) in *. set (ctx' := set ctx r) in *.
    set (s_in := mkState _ _ _) in Hrun.
    destruct (run_reaches E q r (length (cells s)) ctx' s_in)
      as (o2 & s2' & pre & post & Hrun' & Htr).
    { apply tree_new. }
    { eexists. split; [apply lookup_snoc|done]. }
    { exists r. cbn. rewrite length_app. cbn. split_and!; [by apply find_set|lia..]. }
    { cbn. apply handed_app; [by rewrite drop_all|]. apply Forall_singleton.
      exists r. cbn. rewrite length_app. cbn. split_and!; [by apply find_set|lia..]. }
    { cbn. rewrite length_app. lia. }
    rewrite Hrun in Hrun'. injection Hrun' as <- <-.
    rewrite Htrace in Htr. cbn in Htr. rewrite length_app in Htr. cbn in Htr.
    replace (length (cells s) + 1 - length (cells s) + nesting E)
      with (S (nesting E)) in Htr by lia.
    rewrite <- !app_assoc in Htr. apply app_inv_head in Htr. cbn in Htr.
    injection Htr as ->.
    exists (EvBegin d :: EvBind (Tx (Provider.name_of d)) ctx' :: pre), (post ++ more).
    cbn. by rewrite <- !app_assoc.
  - intros bs Hbs. cbn in Hbs. rewrite !elem_of_cons, elem_of_app in Hbs.
    destruct Hbs as [[=]|[[=]|[Hbs|Hbs]]].
    + rewrite Forall_forall in Hq. apply (Hq _ Hbs).
    + by apply Hmore in Hbs.
  - intros f Hf. rewrite Forall_forall in Hins. by eapply done_outside; eauto.
  - intros Hord Hvalid.
    assert (Hold : forall a, a < length (heap s) ->
              <[length (heap s) := n'']> (heap s2) !! a = heap s !! a).
    { refine (older_nodes_kept writeDBName txSuffix s _ s2 n'' _ _ Hgrow).
      - cbn. rewrite length_app. cbn. lia.
      - intros a Ha. cbn. by apply lookup_app_l. }
    assert (Hlen : length (heap s) < length (heap s2)) by (by eapply lookup_lt_Some).
    split.
    + apply (tree_ordered (length (heap s))).
      * intros a n q Hn Hpn. apply lookup_take_Some in Hn as [Hn Ha].
        rewrite Hold in Hn by done. eauto.
      * by eapply tree_insert_fields.
    + destruct (find ctx) as [t|] eqn:Ht; [|apply InTransaction_None].
      rewrite <- Hout.
      apply InTransaction_prefix;
        [done|by apply Hvalid|cbn; rewrite length_insert; lia|exact Hold].
Qed.
End Reached.
(** * Further properties of the provider *)

(** ** Context keys *)

Lemma append_cons c a b : String c a +:+ b = String c (a +:+ b).
Proof. reflexivity. Qed.

Lemma append_nil b : "" +:+ b = b.
Proof. reflexivity. Qed.

Lemma dot_free_cons c s :
  dot_free (String c s) = negb (String.eqb (String c "") ".") && dot_free s.
Proof. reflexivity. Qed.

Lemma dot_free_app a b : dot_free (a +:+ b) = dot_free a && dot_free b.
Proof.
  induction a as [|c a IH]; [done|].
  rewrite append_cons, !dot_free_cons, IH. by rewrite andb_assoc.
Qed.

Lemma dot_free_dotted a b : dot_free (a +:+ "." +:+ b) = false.
Proof.
  rewrite dot_free_app. change (dot_free ("." +:+ b)) with false.
  by rewrite andb_false_r.
Qed.

(** Splitting at the last dot. *)
Lemma split_last_dot a b s1 s2 :
  dot_free s1 = true -> dot_free s2 = true ->
  a +:+ "." +:+ s1 = b +:+ "." +:+ s2 -> a = b /\ s1 = s2.
Proof.
  intros H1 H2. revert b. induction a as [|c a IH]; intros [|c' b];
    rewrite ?append_cons, ?append_nil.
  - by intros [= ->].
  - intros [= <- Heq]. rewrite Heq in H1.
    change (String _ s2) with ("." +:+ s2) in H1. by rewrite dot_free_dotted in H1.
  - intros [= -> Heq]. rewrite <- Heq in H2.
    change (String _ s1) with ("." +:+ s1) in H2. by rewrite dot_free_dotted in H2.
  - intros [= -> Heq]. by destruct (IH b Heq) as [-> ->].
Qed.

(** Splitting at the first dot. *)
Lemma split_first_dot t1 t2 b1 b2 :
  dot_free t1 = true -> dot_free t2 = true ->
  t1 +:+ "." +:+ b1 = t2 +:+ "." +:+ b2 -> t1 = t2 /\ b1 = b2.
Proof.
  revert t2. induction t1 as [|c t1 IH]; intros [|c' t2];
    rewrite ?append_cons, ?append_nil, ?dot_free_cons.
  - by intros _ _ [= ->].
  - by intros _ H2 [= <- _].
  - by intros H1 _ [= -> _].
  - intros [_ H1]%andb_prop [_ H2]%andb_prop [= -> Heq].
    by destruct (IH t2 H1 H2 Heq) as [-> ->].
Qed.

Lemma pretty_N_char_no_dot x : String.eqb (String (pretty_N_char x) "") "." = false.
Proof. unfold pretty_N_char. by repeat case_match. Qed.

Lemma pretty_N_go_dot_free x s : dot_free s = true -> dot_free (pretty_N_go x s) = true.
Proof.
  revert s. induction (N.lt_wf_0 x) as [x _ IH]; intros s Hs.
  assert (x = 0 \/ 0 < x)%N as [->|Hx] by lia.
  - by rewrite pretty_N_go_0.
  - rewrite pretty_N_go_step by done. apply IH.
    + by apply N.div_lt.
    + by rewrite dot_free_cons, pretty_N_char_no_dot, Hs.
Qed.

Lemma pretty_N_dot_free (x : N) : dot_free (pretty x) = true.
Proof.
  unfold pretty, pretty_N. case_decide; [done|]. by apply pretty_N_go_dot_free.
Qed.

(** X15. Two providers made by [NewProvider] with different random
    numbers never use the same context key, whatever the database names;
    one provider uses the same key for two contexts exactly when they
    are routed to the same database name.  So the node one provider
    binds in a context is not seen by the other: the other finds in the
    new context what it found in the old one. *)
Theorem providers_do_not_mix src1 src2 scopes1 scopes2 (rnd1 rnd2 : N) :
  rnd1 <> rnd2 ->
  (forall ctx k v,
     Source.writeDBName src2 (WithValue ctx (TransCtxKey k) v)
     = Source.writeDBName src2 ctx) ->
  let p1 := TransProvider.NewProvider src1 scopes1 rnd1 in
  let p2 := TransProvider.NewProvider src2 scopes2 rnd2 in
  (forall ctx1 ctx2, TransProvider.getCtxKey p1 ctx1 <> TransProvider.getCtxKey p2 ctx2) /\
  (forall ctx1 ctx2,
     TransProvider.getCtxKey p1 ctx1 = TransProvider.getCtxKey p1 ctx2
     <-> Source.writeDBName src1 ctx1 = Source.writeDBName src1 ctx2) /\
  (forall ctx t,
     Manager.findTransContext (TransProvider.getCtxKey p2)
       (Manager.setTransContext (TransProvider.getCtxKey p1) ctx t)
     = Manager.findTransContext (TransProvider.getCtxKey p2) ctx).
Proof.
  intros Hne Hstable p1 p2.
  assert (Hkeys : forall ctx1 ctx2,
            TransProvider.getCtxKey p1 ctx1 <> TransProvider.getCtxKey p2 ctx2).
  { intros ctx1 ctx2. unfold TransProvider.getCtxKey, Provider.getCtxKey. cbn.
    intros [= Heq]. apply split_last_dot in Heq as [_ Heq]; try apply pretty_N_dot_free.
    by apply (inj pretty) in Heq. }
  split_and!; [done| |].
  - intros ctx1 ctx2. unfold TransProvider.getCtxKey, Provider.getCtxKey. cbn. split.
    + intros [= Heq]. by apply split_last_dot in Heq as [? _]; try apply pretty_N_dot_free.
    + unfold Source.getWriteDBName. by intros ->.
  - intros ctx t. unfold Manager.findTransContext, Manager.setTransContext.
    assert (TransProvider.getCtxKey p2
              (WithValue ctx (TransProvider.getCtxKey p1 ctx) (VTransContext t))
            = TransProvider.getCtxKey p2 ctx) as ->.
    { unfold TransProvider.getCtxKey at 1 3, Provider.getCtxKey.
      unfold TransProvider.getCtxKey, Provider.getCtxKey, Source.getWriteDBName. cbn.
      by rewrite Hstable. }
    cbn. by rewrite decide_False by apply Hkeys.
Qed.

(** ** The handle of the running transaction *)

(** X16. [findTransDB] never panics and leaves the state alone.  It
    returns a handle exactly when [isInTransaction] answers true, and
    that handle is the [db] of the node in the context: the handle
    [findDBAndTransContext] hands to a nested [Transaction] call. *)
Theorem findTransDB_agrees p ctx s :
  let K := TransProvider.getCtxKey p in
  exists r,
    TransProvider.findTransDB p ctx s = (Normal r, s) /\
    TransProvider.isInTransaction p ctx s = (Normal (bool_decide (r <> None)), s) /\
    match r with
    | Some d =>
        exists t n,
          Manager.findTransContext K ctx = Some t /\
          heap s !! t = Some n /\ db n = d /\
          Manager.findDBAndTransContext K (fun ctx => TransProvider.lookupDB p ctx true)
            ctx s
          = (Normal (Some t, d), s)
    | None => Node.InTransaction (heap s) (Manager.findTransContext K ctx) = false
    end.
Proof.
  intros K. unfold TransProvider.findTransDB, TransProvider.isInTransaction,
    Provider.isInTransaction.
  rewrite !bind_eq. cbn.
  change (Provider.getCtxKey _ _ ctx) with (K ctx).
  change (TransProvider.getCtxKey p ctx) with (K ctx).
  unfold Manager.findTransContext.
  destruct (Value ctx (K ctx)) as [|tc|u] eqn:Hv.
  - exists None. split_and!; try done. apply InTransaction_None.
  - destruct (Node.InTransaction (heap s) (Some tc)) eqn:Hin.
    + destruct (InTransaction_true_lookup _ _ Hin) as [n Hn].
      unfold Node.GetTransDB. rewrite Hn. cbn.
      exists (Some (db n)). split_and!; try done.
      exists tc, n. split_and!; try done.
      apply (findDBAndTransContext_inside K _ ctx s tc n); [|done..].
      unfold Manager.findTransContext. by rewrite Hv.
    + exists None. by split_and!.
  - exists None. split_and!; try done. apply InTransaction_None.
Qed.

(** * Properties of the configuration code *)

(** ** Timeouts *)

Lemma int64_small z : (0 <= z < 2 ^ 63)%Z -> Main.int64 z = z.
Proof.
  intros Hz. unfold Main.int64. rewrite Z.mod_small; lia.
Qed.

Lemma millis_exact ms :
  (ms <= 9223372036854)%N -> Main.millis ms = (Z.of_N ms * 1000000)%Z.
Proof.
  intros Hms. unfold Main.millis, Main.Millisecond.
  rewrite (int64_small (Z.of_N ms)) by lia. apply int64_small. lia.
Qed.

(** X17. With the three timeouts of the options at most 9223372036854
    milliseconds, each getter returns the configured duration in
    nanoseconds, or its default (100ms, 2s, 5s) when the field is zero,
    and the result is positive.  The bound is sharp: one millisecond
    more wraps around to a negative duration. *)
Theorem timeouts_in_range opts :
  (Options.TimeoutInMills opts <= 9223372036854)%N ->
  (Options.ReadTimeoutInMills opts <= 9223372036854)%N ->
  (Options.WriteTimeoutInMills opts <= 9223372036854)%N ->
  (Main.getTimeout opts
   = (if decide (Options.TimeoutInMills opts = 0%N) then 100000000
      else Z.of_N (Options.TimeoutInMills opts) * 1000000) /\
   Main.getReadTimeout opts
   = (if decide (Options.ReadTimeoutInMills opts = 0%N) then 2000000000
      else Z.of_N (Options.ReadTimeoutInMills opts) * 1000000) /\
   Main.getWriteTimeout opts
   = (if decide (Options.WriteTimeoutInMills opts = 0%N) then 5000000000
      else Z.of_N (Options.WriteTimeoutInMills opts) * 1000000) /\
   0 < Main.getTimeout opts /\ 0 < Main.getReadTimeout opts /\
   0 < Main.getWriteTimeout opts /\
   Main.millis 9223372036855 < 0)%Z.
Proof.
  intros Ht Hr Hw.
  unfold Main.getTimeout, Main.getReadTimeout, Main.getWriteTimeout.
  repeat case_decide; repeat case_bool_decide; try lia;
    rewrite ?millis_exact by done;
    unfold Main.DefaultTimeout, Main.DefaultReadTimeout, Main.DefaultWriteTimeout,
      Main.Millisecond, Main.Second;
    (split_and!; try lia; by vm_compute).
Qed.

(** ** Opening the databases *)

Section OpenDBs.
Context {Dialector Config : Type}.
Variable dial : Options.t -> Dialector + error.
Variable gorm_Open : Dialector -> Config -> handle + error.
Variable empty_Config : Config.
Variable Use : handle -> list Dialector -> option error.
Variable range : MultiRWOptions.t -> list (string * option RWOptions.t).

Local Abbreviation open := (RWOptions.OpenDB dial gorm_Open empty_Config Use).
Local Abbreviation loop := (MultiRWOptions.OpenDBs_loop dial gorm_Open empty_Config Use).
Local Abbreviation OpenDBs :=
  (MultiRWOptions.OpenDBs dial gorm_Open empty_Config Use range).
Local Abbreviation ToSource :=
  (MultiRWOptions.ToSource dial gorm_Open empty_Config Use range).

(** The loop fails with the error of an entry it visited. *)
Lemma OpenDBs_loop_error entries config dbs err :
  loop entries config dbs = inr err ->
  exists key opt, (key, Some opt) ∈ entries /\ open opt config = inr err.
Proof.
  revert dbs. induction entries as [|[k [o1|]] rest IH]; intros dbs; cbn; [done| |].
  - destruct (open o1 config) as [d|e] eqn:Ho.
    + intros (key & opt & Hin & Hopen)%IH. exists key, opt. split; [by right|done].
    + intros [= <-]. exists k, o1. split; [by left|done].
  - intros (key & opt & Hin & Hopen)%IH. exists key, opt. split; [by right|done].
Qed.

(** When the loop ends, every entry it visited was opened, the map
    holds handles of visited entries besides what it held before, and
    keeps a handle under every key that had one. *)
Lemma OpenDBs_loop_done entries config dbs dbs' :
  loop entries config dbs = inl dbs' ->
  (forall key opt, (key, Some opt) ∈ entries -> exists db, open opt config = inl db) /\
  (forall key db, dbs' !! key = Some db ->
     (exists opt, (key, Some opt) ∈ entries /\ open opt config = inl db)
     \/ dbs !! key = Some db) /\
  (forall key db0, dbs !! key = Some db0 ->
     exists db, dbs' !! key = Some db /\
       (db = db0
        \/ exists opt, (key, Some opt) ∈ entries /\ open opt config = inl db)) /\
  (forall key opt, (key, Some opt) ∈ entries ->
     exists opt' db, (key, Some opt') ∈ entries /\ open opt' config = inl db /\
       dbs' !! key = Some db).
Proof.
  revert dbs. induction entries as [|[k [o1|]] rest IH]; intros dbs; cbn.
  - intros [= <-]. split_and!.
    + by intros key opt ?%elem_of_nil.
    + eauto.
    + eauto.
    + by intros key opt ?%elem_of_nil.
  - destruct (open o1 config) as [d|e] eqn:Ho; [|done].
    intros (HC & HA & HE & HB)%IH. split_and!.
    + intros key opt [[= -> ->]|Hin]%elem_of_cons; eauto.
    + intros key db [(opt & Hin & Hopen)|Hdb]%HA.
      * left. exists opt. split; [by right|done].
      * destruct (decide (key = k)) as [->|Hne].
        -- rewrite lookup_insert_eq in Hdb. injection Hdb as <-.
           left. exists o1. split; [by left|done].
        -- rewrite lookup_insert_ne in Hdb by done. by right.
    + intros key db0 Hdb0. destruct (decide (key = k)) as [->|Hne].
      * destruct (HE k d) as (db & Hdb & Hfrom); [by rewrite lookup_insert_eq|].
        exists db. split; [done|]. right. destruct Hfrom as [->|(opt & Hin & Hopen)].
        -- exists o1. split; [by left|done].
        -- exists opt. split; [by right|done].
      * destruct (HE key db0) as (db & Hdb & Hfrom); [by rewrite lookup_insert_ne|].
        exists db. split; [done|]. destruct Hfrom as [->|(opt & Hin & Hopen)]; [by left|].
        right. exists opt. split; [by right|done].
    + intros key opt [[= -> ->]|Hin]%elem_of_cons.
      * destruct (HE k d) as (db & Hdb & Hfrom); [by rewrite lookup_insert_eq|].
        destruct Hfrom as [->|(opt & Hin & Hopen)].
        -- exists o1, d. split_and!; [by left|done..].
        -- exists opt, db. split_and!; [by right|done..].
      * destruct (HB key opt Hin) as (opt' & db & Hin' & Hopen & Hdb).
        exists opt', db. split_and!; [by right|done..].
  - intros (HC & HA & HE & HB)%IH. split_and!.
    + intros key opt [[= ]|Hin]%elem_of_cons. eauto.
    + intros key db [(opt & Hin & Hopen)|Hdb]%HA; [|by right].
      left. exists opt. split; [by right|done].
    + intros key db0 Hdb0. destruct (HE key db0 Hdb0) as (db & Hdb & Hfrom).
      exists db. split; [done|]. destruct Hfrom as [->|(opt & Hin & Hopen)]; [by left|].
      right. exists opt. split; [by right|done].
    + intros key opt [[= ]|Hin]%elem_of_cons.
      destruct (HB key opt Hin) as (opt' & db & Hin' & Hopen & Hdb).
      exists opt', db. split_and!; [by right|done..].
Qed.

(** X18. [OpenDBs] is all or nothing, in whatever order the map is
    ranged over.  It fails exactly with the error of some entry with
    options that did not open.  When it succeeds, every entry with
    options was opened, and the result binds exactly the keys that have
    options, each to the handle opened from its options; keys bound to
    nil are skipped. *)
Theorem OpenDBs_all_or_nothing o config :
  (forall key opt, (key, opt) ∈ range o <-> o !! key = Some opt) ->
  match OpenDBs o config with
  | inl dbs =>
      (forall key opt, o !! key = Some (Some opt) -> exists db, open opt config = inl db) /\
      (forall key,
         dbs !! key
         = match o !! key with
           | Some (Some opt) =>
               match open opt config with
               | inl db => Some db
               | inr _ => None
               end
           | _ => None
           end)
  | inr err => exists key opt, o !! key = Some (Some opt) /\ open opt config = inr err
  end.
Proof.
  intros Hrange. unfold MultiRWOptions.OpenDBs.
  destruct (loop (range o) config ∅) as [dbs|err] eqn:Hloop.
  - destruct (OpenDBs_loop_done _ _ _ _ Hloop) as (HC & HA & _ & HB). split.
    + intros key opt Hk. apply (HC key). by apply Hrange.
    + intros key. destruct (o !! key) as [[opt|]|] eqn:Hk.
      * destruct (HB key opt) as (opt' & db & Hin & Hopen & Hdb); [by apply Hrange|].
        apply Hrange in Hin. assert (opt' = opt) as -> by congruence.
        by rewrite Hopen.
      * destruct (dbs !! key) as [db|] eqn:Hdb; [|done].
        destruct (HA key db Hdb) as [(opt & Hin & _)|Hempty]; [|done].
        apply Hrange in Hin. congruence.
      * destruct (dbs !! key) as [db|] eqn:Hdb; [|done].
        destruct (HA key db Hdb) as [(opt & Hin & _)|Hempty]; [|done].
        apply Hrange in Hin. congruence.
  - destruct (OpenDBs_loop_error _ _ _ _ Hloop) as (key & opt & Hin & Hopen).
    exists key, opt. split; [by apply Hrange|done].
Qed.

(** A source made by [ToSource] finds a handle only under a key that is
    bound to options in the map. *)
Lemma ToSource_sound o config router src ctx db :
  (forall key opt, (key, opt) ∈ range o -> o !! key = Some opt) ->
  ToSource o config router = inl src ->
  Source.getWriteDB src ctx = Some db ->
  exists opt, o !! router ctx = Some (Some opt) /\ open opt config = inl db.
Proof.
  intros Hrange. unfold MultiRWOptions.ToSource, MultiRWOptions.OpenDBs.
  destruct (loop (range o) config ∅) as [dbs|err] eqn:Hloop; [|done].
  intros [= <-]. cbn. unfold RouteWithKey. intros Hdb.
  destruct (OpenDBs_loop_done _ _ _ _ Hloop) as (_ & HA & _).
  destruct (HA _ _ Hdb) as [(opt & Hin & Hopen)|Hempty]; [|done].
  exists opt. split; [by apply Hrange|done].
Qed.

Section Routed.
Variable beginErr commitErr : handle -> option error.

(** X19. The source [ToSource] makes routes a context to the handle
    opened for the key the router gives: the write and the read
    database are that same handle and both names are the key.  When the
    map binds the key to options the handle is there; when it binds it
    to nil or not at all the handle is nil, and [Transaction] on such a
    context outside a transaction panics with the runtime error of a nil
    dereference, an [error] value, before anything is begun and before a
    node is made. *)
Theorem ToSource_routes o config router src scopes rnd :
  (forall key opt, (key, opt) ∈ range o <-> o !! key = Some opt) ->
  ToSource o config router = inl src ->
  let p := TransProvider.NewProvider src scopes rnd in
  forall ctx,
    Source.getWriteDBName src ctx = router ctx /\
    Source.getReadDBName src ctx = router ctx /\
    Source.getReadDB src ctx = Source.getWriteDB src ctx /\
    match o !! router ctx with
    | Some (Some opt) =>
        exists db, open opt config = inl db /\ Source.getWriteDB src ctx = Some db
    | _ =>
        Source.getWriteDB src ctx = None /\
        forall callback s,
          Node.InTransaction (heap s)
            (Manager.findTransContext (TransProvider.getCtxKey p) ctx) = false ->
          TransProvider.Transaction beginErr commitErr p ctx callback s
          = (Panicked
               (PError "runtime error: invalid memory address or nil pointer dereference"),
             mkState (heap s) (cells s ++ [mkFrame None ctx]) (trace s))
    end.
Proof.
  intros Hrange Hsrc p ctx.
  pose proof (OpenDBs_all_or_nothing o config Hrange) as Hall.
  unfold MultiRWOptions.ToSource in Hsrc.
  destruct (OpenDBs o config) as [dbs|err]; [|done].
  injection Hsrc as <-. destruct Hall as [Hopen Hdbs].
  split_and!; [done..|].
  assert (Hw : Source.getWriteDB
                 (Source.NewSourceWithFunc router (RouteWithKey dbs router)) ctx
               = dbs !! router ctx) by done.
  rewrite Hw, Hdbs.
  assert (Hnone : dbs !! router ctx = None ->
            forall callback s,
              Node.InTransaction (heap s)
                (Manager.findTransContext (TransProvider.getCtxKey p) ctx) = false ->
              TransProvider.Transaction beginErr commitErr p ctx callback s
              = (Panicked
                   (PError "runtime error: invalid memory address or nil pointer dereference"),
                 mkState (heap s) (cells s ++ [mkFrame None ctx]) (trace s))).
  { intros Hdb callback s Hout.
    apply (Transaction_root_unrouted _ _ _ _ beginErr commitErr ctx callback s Hout).
    exact Hdb. }
  rewrite Hdbs in Hnone.
  destruct (o !! router ctx) as [[opt|]|] eqn:Hk.
  - destruct (Hopen _ _ Hk) as [db Hdb]. exists db. by rewrite Hdb.
  - split; [done|by apply Hnone].
  - split; [done|by apply Hnone].
Qed.
End Routed.
End OpenDBs.

(** ** A single database *)

Section Single.
Context {Dialector Config : Type}.
Variable dial : Options.t -> Dialector + error.
Variable gorm_Open : Dialector -> Config -> handle + error.
Variable empty_Config : Config.
Variable beginErr commitErr : handle -> option error.

(** X20. A provider over the source [Options.ToSource] makes needs no
    assumption on routing.  When [ToSource] succeeds the database was
    opened, every context is routed to that one handle for writing and
    for reading under the name [host:port/db_name], and the provider
    uses one context key for all contexts.  So an outermost
    [Transaction] begins one physical transaction on that handle, hands
    every nested callback the same transaction handle, ends it once, and
    calls user callbacks only after that. *)
Theorem single_database_source o config src scopes rnd p ctx s :
  Options.ToSource dial gorm_Open empty_Config o config = inl src ->
  let provider := TransProvider.NewProvider src scopes rnd in
  let K := TransProvider.getCtxKey provider in
  Node.InTransaction (heap s) (Manager.findTransContext K ctx) = false ->
  exists db,
    Options.OpenDB dial gorm_Open empty_Config o config = inl db /\
    (forall c,
       Source.getWriteDB src c = Some db /\ Source.getReadDB src c = Some db /\
       Source.getWriteDBName src c = Options.fullName (Some o) /\
       Source.getReadDBName src c = Options.fullName (Some o) /\
       K c = TransCtxKey (Options.fullName (Some o) +:+ "." +:+ pretty rnd)) /\
    (beginErr db = None ->
     let tx := Tx (Provider.name_of db) in
     exists o' s' pre phys post,
       Client.main K (fun c => TransProvider.lookupDB provider c true)
         (TransProvider.transaction beginErr commitErr provider) ctx p s = (o', s') /\
       trace s' = trace s ++ [EvBegin db] ++ pre ++ phys ++ post /\
       Forall (bound_to tx) pre /\
       (phys = [EvCommit tx] \/ phys = [EvRollback tx] \/
        exists e, phys = [EvCommitFailed tx e; EvRollback tx]) /\
       Forall is_callback post).
Proof.
  unfold Options.ToSource.
  destruct (Options.OpenDB dial gorm_Open empty_Config o config) as [db|err] eqn:Hopen;
    [|done].
  intros Heq Hout. injection Heq as <-. exists db. split_and!; [done|done|].
  intros Hb.
  destruct (main_exit (fun _ => Options.fullName (Some o)) (fun _ => Some db)
              (fun _ => Some db) (pretty rnd) beginErr commitErr (fun _ _ _ => eq_refl)
              p ctx s db Hout eq_refl Hb)
    as (o' & s' & n & ks & efs & pre & phys & post & Hmain & _ & _ & _ & _ & _ & Htr & _
        & Hpre & Hpost & _ & _ & Ho).
  exists o', s', pre, phys, post. split_and!; try done.
  destruct o' as [[e|]|v].
  - destruct Ho as ([->| ->] & _); eauto.
  - destruct Ho as (-> & _). by left.
  - destruct Ho as (-> & _). right. by left.
Qed.
End Single.

(** ** The program *)

(** Assignments to a map, in a row: a key keeps the value assigned to
    it when all assignments to it agree. *)
Lemma foldl_insert_lookup {V : Type} (l : list (string * V)) (m : gmap string V) k :
  (forall v v', (k, v) ∈ l -> (k, v') ∈ l -> v = v') ->
  (forall v, (k, v) ∈ l -> foldl (fun m '(k, v) => <[k := v]> m) m l !! k = Some v) /\
  ((forall v, (k, v) ∉ l) -> foldl (fun m '(k, v) => <[k := v]> m) m l !! k = m !! k).
Proof.
  revert m. induction l as [|[k1 v1] l IH]; intros m Hfun; cbn.
  - split; [by intros v ?%elem_of_nil|done].
  - destruct (IH (<[k1 := v1]> m)) as [IH1 IH2].
    { intros v v' Hv Hv'. apply Hfun; by right. }
    split.
    + intros v [[= -> ->]|Hin]%elem_of_cons; [|by apply IH1].
      destruct (decide (k1 ∈ l.*1)) as [Hk|Hk].
      * apply list_elem_of_fmap in Hk as [[k' v'] [Hk' Hin]]. cbn in Hk'. subst k'.
        assert (v' = v1) as -> by (apply Hfun; [by right|by left]). by apply IH1.
      * rewrite IH2; [by rewrite lookup_insert_eq|].
        intros v Hin. apply Hk. apply list_elem_of_fmap. by exists (k1, v).
    + intros Hnot. rewrite IH2.
      * rewrite lookup_insert_ne; [done|]. intros ->. apply (Hnot v1). by left.
      * intros v Hin. apply (Hnot v). by right.
Qed.

Section Flatten.
Variable range_techs :
  gmap string MultiRWOptions.t -> list (string * MultiRWOptions.t).
Variable range_buss : string -> MultiRWOptions.t -> list (string * option RWOptions.t).

Local Abbreviation mysqlOpts := (Main.mysqlOpts range_techs range_buss).

(** The assignments the two loops make, in order. *)
Local Abbreviation assignments := (fun techs : list (string * MultiRWOptions.t) =>
  techs ≫= fun '(techID, opts) =>
    (fun '(bussID, opt) => (Main.getDBKey techID bussID, opt))
      <$> range_buss techID opts).

Lemma mysqlOpts_buss_foldl techID opts m :
  Main.mysqlOpts_buss techID opts m
  = foldl (fun m '(k, v) => <[k := v]> m) m
      ((fun '(bussID, opt) => (Main.getDBKey techID bussID, opt)) <$> opts).
Proof.
  unfold Main.mysqlOpts_buss. revert m. induction opts as [|[b o] opts IH]; intros m; [done|].
  cbn. apply IH.
Qed.

Lemma mysqlOpts_foldl techs m :
  foldl (fun m '(techID, opts) => Main.mysqlOpts_buss techID (range_buss techID opts) m)
    m techs
  = foldl (fun m '(k, v) => <[k := v]> m) m (assignments techs).
Proof.
  revert m. induction techs as [|[t opts] techs IH]; intros m; [done|].
  cbn. rewrite foldl_app, <- mysqlOpts_buss_foldl. apply IH.
Qed.

Lemma elem_of_assignments techs k v :
  (k, v) ∈ assignments techs <->
  exists techID opts bussID,
    (techID, opts) ∈ techs /\ (bussID, v) ∈ range_buss techID opts /\
    k = Main.getDBKey techID bussID.
Proof.
  rewrite list_elem_of_bind. split.
  - intros ([t opts] & Hin & Ht). apply list_elem_of_fmap in Hin as ([b o] & [= -> ->] & Hb).
    by exists t, opts, b.
  - intros (t & opts & b & Ht & Hb & ->). exists (t, opts). split; [|done].
    apply list_elem_of_fmap. by exists (b, v).
Qed.

(** X21. The two loops of [newTransProvider] flatten the options
    faithfully when no [techID] contains a dot: whatever the order of
    the two ranges, the flattened map binds [techID.bussID] to what the
    configuration binds [bussID] to under [techID], and is unbound there
    when the configuration is. *)
Theorem mysqlOpts_lookup params techID bussID :
  let Mysql := Main.Mysql (Main.Conf params) in
  (forall t opts, (t, opts) ∈ range_techs Mysql <-> Mysql !! t = Some opts) ->
  (forall t o key opt, (key, opt) ∈ range_buss t o <-> o !! key = Some opt) ->
  (forall t opts, Mysql !! t = Some opts -> dot_free t = true) ->
  dot_free techID = true ->
  mysqlOpts params !! Main.getDBKey techID bussID
  = Mysql !! techID ≫= fun opts => opts !! bussID.
Proof.
  intros Mysql Htechs Hrange Hdots Hdot. unfold Main.mysqlOpts. fold Mysql.
  rewrite mysqlOpts_foldl.
  set (k := Main.getDBKey techID bussID).
  assert (Hin : forall v, (k, v) ∈ assignments (range_techs Mysql) <->
            exists opts, Mysql !! techID = Some opts /\ opts !! bussID = Some v).
  { intros v. rewrite elem_of_assignments. split.
    - intros (t & opts & b & Ht & Hb & Hk). apply Htechs in Ht. apply Hrange in Hb.
      unfold k, Main.getDBKey in Hk.
      apply split_first_dot in Hk as [-> ->]; [eauto|done|by eapply Hdots].
    - intros (opts & Ht & Hb). exists techID, opts, bussID.
      split_and!; [by apply Htechs|by apply Hrange|done]. }
  destruct (foldl_insert_lookup (assignments (range_techs Mysql)) ∅ k) as [H1 H2].
  { intros v v'. rewrite !Hin. intros (opts & Ht & Hb) (opts' & Ht' & Hb'). congruence. }
  remember (foldl _ _ _ !! k) as lhs eqn:Hlhs. clear Hlhs.
  change (∅ !! k) with (@None (option RWOptions.t)) in H2.
  destruct (Mysql !! techID) as [opts|] eqn:Ht; cbn.
  - destruct (opts !! bussID) as [v|] eqn:Hb.
    + apply H1. apply Hin. eauto.
    + rewrite H2; [done|]. intros v (opts' & [= <-] & Hb')%Hin. congruence.
  - rewrite H2; [done|]. by intros v (opts' & ? & _)%Hin.
Qed.
End Flatten.

Section MainRuns.
Context {Dialector Config : Type}.
Variable Duration_String : Z -> string.
Variable mysql_New : string -> string -> Dialector.
Variable gorm_Open : Dialector -> Config -> handle + error.
Variable empty_Config : Config.
Variable Use : handle -> list Dialector -> option error.
Variable range : MultiRWOptions.t -> list (string * option RWOptions.t).
Variable range_techs :
  gmap string MultiRWOptions.t -> list (string * MultiRWOptions.t).
Variable range_buss : string -> MultiRWOptions.t -> list (string * option RWOptions.t).
Variable rnd : N.
Variable beginErr commitErr : handle -> option error.

Local Abbreviation mysqlOpts := (Main.mysqlOpts range_techs range_buss).
Local Abbreviation run :=
  (Main.run Duration_String mysql_New gorm_Open empty_Config Use range range_techs
     range_buss rnd beginErr commitErr).

(** X22. The program needs options under the key [main.default]: for
    every configuration whose flattened options do not bind that key to
    options, in particular for the empty configuration [main] is
    written with, the program panics, either with the error of a
    database that did not open or with a nil dereference, and no
    transaction is begun and no node is made. *)
Theorem run_needs_main_default params s :
  (forall o key opt, (key, opt) ∈ range o -> o !! key = Some opt) ->
  (forall opt, mysqlOpts params !! "main.default" <> Some (Some opt)) ->
  exists v s',
    run params s = (Panicked v, s') /\ heap s' = heap s /\ trace s' = trace s.
Proof.
  intros Hrange Hmissing.
  unfold Main.run, Main.NewTransProvider, Main.ToTransactionManager, Main.newTransProvider.
  destruct (MultiRWOptions.ToSource _ _ _ _ _ _ _ _) as [src|err] eqn:Hsrc.
  - rewrite bind_eq. unfold resume at 1.
    set (p := TransProvider.NewProvider src _ rnd).
    unfold TransProvider.MustTransaction, Manager.MustTransaction. rewrite bind_eq.
    change (Manager.Transaction _ _ _)
      with (TransProvider.Transaction beginErr commitErr p).
    unfold TransProvider.Transaction.
    change (Manager.Transaction _ _ _)
      with (Provider.Transaction (Source.getWriteDBName (TransProvider.Source p))
              (Source.getWriteDB (TransProvider.Source p))
              (Source.getReadDB (TransProvider.Source p))
              (TransProvider.txSuffix p) beginErr commitErr).
    rewrite Transaction_root_unrouted.
    + by eexists _, _.
    + unfold Manager.findTransContext. cbn. apply InTransaction_None.
    + destruct (Source.getWriteDB (TransProvider.Source p) []) as [db|] eqn:Hdb; [|done].
      destruct (ToSource_sound _ _ _ _ _ _ _ _ _ _ _ (Hrange _) Hsrc Hdb)
        as (opt & Hopt & _).
      by destruct (Hmissing opt).
  - rewrite bind_eq. unfold resume at 1. by eexists _, _.
Qed.
End MainRuns.

Section MainRuns2.
Context {Dialector Config : Type}.
Variable Duration_String : Z -> string.
Variable mysql_New : string -> string -> Dialector.
Variable gorm_Open : Dialector -> Config -> handle + error.
Variable empty_Config : Config.
Variable Use : handle -> list Dialector -> option error.
Variable range : MultiRWOptions.t -> list (string * option RWOptions.t).
Variable range_techs :
  gmap string MultiRWOptions.t -> list (string * MultiRWOptions.t).
Variable range_buss : string -> MultiRWOptions.t -> list (string * option RWOptions.t).
Variable rnd : N.
Variable beginErr commitErr : handle -> option error.

Local Abbreviation newTransProvider :=
  (Main.newTransProvider Duration_String mysql_New gorm_Open empty_Config Use range
     range_techs range_buss rnd).
Local Abbreviation run :=
  (Main.run Duration_String mysql_New gorm_Open empty_Config Use range range_techs
     range_buss rnd beginErr commitErr).

(** X23. When the provider is made and its source routes the
    background context to the handle [db], the program begins one
    physical transaction on [db], binds the new context to the
    transaction handle, and commits.  It returns when the commit
    succeeds; it panics with the error value of the driver when the
    begin or the commit is refused, in the second case after the
    rollback, leaving the root marked with that error. *)
Theorem run_with_main_default params p db s :
  newTransProvider params = Normal p ->
  Source.getWriteDB (TransProvider.Source p) [] = Some db ->
  let tx := Tx (Provider.name_of db) in
  let r := length (heap s) in
  let ctx' := Manager.setTransContext (TransProvider.getCtxKey p) [] r in
  run params s
  = match beginErr db with
    | Some e =>
        (Panicked (PError e),
         mkState (heap s) (cells s ++ [mkFrame None []])
           (trace s ++ [EvBeginFailed db e]))
    | None =>
        match commitErr tx with
        | None =>
            (Normal tt,
             mkState (heap s ++ [mkTransContext [] [] None tx true false None])
               (cells s ++ [mkFrame (Some r) ctx'])
               (trace s ++ [EvBegin db; EvBind tx ctx'; EvCommit tx]))
        | Some e =>
            (Panicked (PError e),
             mkState (heap s ++ [mkTransContext [] [] None tx true false (Some e)])
               (cells s ++ [mkFrame (Some r) ctx'])
               (trace s ++ [EvBegin db; EvBind tx ctx'; EvCommitFailed tx e;
                            EvRollback tx]))
        end
    end.
Proof.
  intros Hp Hdb tx r ctx'. unfold Main.run, Main.NewTransProvider, Main.ToTransactionManager.
  rewrite Hp, bind_eq. unfold resume at 1.
  unfold TransProvider.MustTransaction, Manager.MustTransaction. rewrite bind_eq.
  change (Manager.Transaction _ _ _)
    with (Provider.Transaction (Source.getWriteDBName (TransProvider.Source p))
            (Source.getWriteDB (TransProvider.Source p))
            (Source.getReadDB (TransProvider.Source p))
            (TransProvider.txSuffix p) beginErr commitErr).
  assert (Hout : Node.InTransaction (heap s)
                   (Manager.findTransContext (TransProvider.getCtxKey p) []) = false).
  { unfold Manager.findTransContext. cbn. apply InTransaction_None. }
  destruct (beginErr db) as [e|] eqn:Hb.
  - by rewrite (Transaction_root_refused _ _ _ _ _ _ _ _ _ db e Hout Hdb Hb).
  - set (n := mkTransContext [] [] None tx false true None).
    rewrite (Transaction_root_returns _ _ _ _ _ _ _ _ _ db None
               (mkState (heap s ++ [n]) (cells s ++ [mkFrame (Some r) ctx'])
                  (trace s ++ [EvBegin db; EvBind tx ctx'])) n Hout Hdb Hb);
      [|done|cbn; apply lookup_snoc|cbn; apply lookup_snoc|done].
    unfold gorm_outcome. fold tx r. cbn.
    destruct (commitErr tx) as [e|]; cbn; unfold fire_each; cbn;
      unfold r; rewrite insert_snoc, <- !app_assoc; reflexivity.
Qed.
End MainRuns2.
(** * The further properties at concrete inputs *)

Lemma isCommitted_excludes_isRollbacked_witness :
  Node.isCommitted (heap Demo.ended) (Some 0) = true /\
  Node.isRollbacked (heap Demo.ended) (Some 0) = None.
Proof.
  split; [reflexivity|].
  exact (isCommitted_excludes_isRollbacked (heap Demo.ended) (Some 0) eq_refl).
Defined.

(** A commit callback registered on the nested node of [two_nodes]. *)
Lemma OnCommitted_fires_iff_committed_witness :
  exists r nr f,
    root_of Example.two_nodes 1 = Some r /\
    Example.two_nodes !! r = Some nr /\ parent nr = None /\
    Node.OnCommitted_fuel (length Example.two_nodes) Example.two_nodes 1
      (CallUser 5 Demo.ctx2)
    = <[r := with_onCommitted (onCommittedCallbacks nr ++ [f]) nr]> Example.two_nodes /\
    forall h', (forall a, parent <$> h' !! a = parent <$> Example.two_nodes !! a) ->
      fire Demo.ctxKey h' f
      = if Node.isCommitted h' (Some 1) then fire Demo.ctxKey h' (CallUser 5 Demo.ctx2)
        else [].
Proof.
  exact (OnCommitted_fires_iff_committed Demo.ctxKey Example.two_nodes 1 _
           (CallUser 5 Demo.ctx2) (ordered_test Example.two_nodes eq_refl) eq_refl).
Defined.

(** A rollback callback registered on the nested node of [two_nodes]. *)
Lemma OnRollbacked_tests_only_the_root_witness :
  exists r nr,
    root_of Example.two_nodes 1 = Some r /\
    Example.two_nodes !! r = Some nr /\ parent nr = None /\
    Node.OnRollbacked_fuel (length Example.two_nodes) Example.two_nodes 1
      (ErrFn 7 Demo.ctx2)
    = <[r := with_onRollbacked
               (onRollbackedCallbacks nr ++ [IfRollbacked r (ErrFn 7 Demo.ctx2)]) nr]>
        Example.two_nodes /\
    forall h' nr', h' !! r = Some nr' -> parent nr' = None ->
      fire Demo.ctxKey h' (IfRollbacked r (ErrFn 7 Demo.ctx2))
      = match err nr' with
        | Some e =>
            [EvRollbacked 7 (Manager.cleanTransContext Demo.ctxKey h' Demo.ctx2) e]
        | None => []
        end.
Proof.
  exact (OnRollbacked_tests_only_the_root Demo.ctxKey Example.two_nodes 1 _
           (ErrFn 7 Demo.ctx2) (ordered_test Example.two_nodes eq_refl) eq_refl).
Defined.

(** The nested node of [two_nodes] and its root. *)
Lemma InTransaction_is_the_roots_witness :
  exists r nr,
    root_of Example.two_nodes 1 = Some r /\ r <= 1 /\
    Example.two_nodes !! r = Some nr /\ parent nr = None /\
    Node.InTransaction Example.two_nodes (Some 1) = negb (done nr).
Proof.
  exact (InTransaction_is_the_roots Example.two_nodes 1 _
           (ordered_test Example.two_nodes eq_refl) eq_refl).
Defined.

(** The walks of the nested node of [two_nodes], which holds [E1]. *)
Lemma walks_follow_the_chain_witness :
  Node.isCommitted Example.two_nodes (Some 1) = false /\
  Node.isRollbacked Example.two_nodes (Some 1) = Some "E1" /\
  exists n,
    head (chain Example.two_nodes 1) = Some n /\
    Node.isCommitted Example.two_nodes (Some 1)
    = forallb (fun m => negb (panicked m) && bool_decide (err m = None))
        (chain Example.two_nodes 1) /\
    Node.isRollbacked Example.two_nodes (Some 1)
    = head (omap err (chain Example.two_nodes 1)).
Proof.
  split; [reflexivity|]. split; [reflexivity|]. eexists.
  exact (walks_follow_the_chain Example.two_nodes 1 _
           (ordered_test Example.two_nodes eq_refl) eq_refl).
Defined.

(** A node started on the running root of [in_root]. *)
Lemma Start_inherits_witness :
  let s := Demo.in_root in
  let s' := (Node.Start (Some 0) (Tx "main") s).2 in
  (Node.Start (Some 0) (Tx "main") s).1 = Normal 1 /\
  ordered (heap s') /\
  Node.InTransaction (heap s') (Some 1) = Node.InTransaction (heap s) (Some 0) /\
  Node.isCommitted (heap s') (Some 1) = false /\
  (forall u, u < 1 ->
     heap s' !! u = heap s !! u /\
     Node.InTransaction (heap s') (Some u) = Node.InTransaction (heap s) (Some u)).
Proof.
  apply (Start_inherits (Some 0) (Tx "main") Demo.in_root).
  - apply ordered_test. reflexivity.
  - intros p [= <-]. simpl. lia.
Defined.

(** The contexts of the callbacks of [in_root], over the demo key. *)
Lemma callbacks_run_outside_witness :
  (forall ctx,
     Node.InTransaction (heap Demo.in_root)
       (Manager.findTransContext Demo.ctxKey
          (Manager.cleanTransContext Demo.ctxKey (heap Demo.in_root) ctx)) = false /\
     Manager.cleanTransContext Demo.ctxKey (heap Demo.in_root)
       (Manager.cleanTransContext Demo.ctxKey (heap Demo.in_root) ctx)
     = Manager.cleanTransContext Demo.ctxKey (heap Demo.in_root) ctx /\
     (forall k, k <> Demo.ctxKey ctx ->
        Value (Manager.cleanTransContext Demo.ctxKey (heap Demo.in_root) ctx) k
        = Value ctx k)) /\
  (forall f e ctx,
     e ∈ fire Demo.ctxKey (heap Demo.in_root) f -> event_ctx e = Some ctx ->
     Node.InTransaction (heap Demo.in_root) (Manager.findTransContext Demo.ctxKey ctx)
     = false).
Proof.
  exact (callbacks_run_outside Demo.ctxKey (fun _ => eq_refl) (heap Demo.in_root)).
Defined.

(** Three scopes, nested. *)
Lemma one_physical_transaction_witness :
  exists o s' pre phys post,
    Demo.main Demo.never Demo.never Demo.background (Demo.tower 2) Demo.start = (o, s') /\
    trace s' = trace Demo.start ++ [EvBegin (Pool "main")] ++ pre ++ phys ++ post /\
    Forall (bound_to (Tx "main")) pre /\
    (phys = [EvCommit (Tx "main")] \/ phys = [EvRollback (Tx "main")] \/
     exists e, phys = [EvCommitFailed (Tx "main") e; EvRollback (Tx "main")]) /\
    Forall is_callback post /\
    shares 0 (Tx "main") (heap s') /\
    (forall a, a < 0 -> heap s' !! a = heap Demo.start !! a).
Proof.
  exact (one_physical_transaction Demo.router Demo.pool Demo.pool Demo.suffix
           Demo.never Demo.never router_stable_demo (Demo.tower 2) Demo.background
           Demo.start (Pool "main") eq_refl eq_refl eq_refl).
Defined.

(** A nested callback fails and the outer callback drops the error: the
    transaction commits. *)
Lemma Transaction_returning_nil_commits_witness :
  let s' := (Demo.main Demo.never Demo.never Demo.background Demo.nested_error_dropped
               Demo.start).2 in
  exists n ks pre post,
    heap s' !! 0 = Some n /\
    onCommittedCallbacks n = map (IfCommitted 0) ks /\
    trace s' = trace Demo.start ++ [EvBegin (Pool "main")] ++ pre
               ++ [EvCommit (Tx "main")] ++ post /\
    Forall quiet pre /\
    fired_committed post `sublist_of` map thunk_id ks /\
    fired_rollbacked post = [].
Proof.
  exact (Transaction_returning_nil_commits Demo.router Demo.pool Demo.pool Demo.suffix
           Demo.never Demo.never router_stable_demo Demo.nested_error_dropped
           Demo.background Demo.start (Pool "main")
           (Demo.main Demo.never Demo.never Demo.background Demo.nested_error_dropped
              Demo.start).2
           eq_refl eq_refl eq_refl eq_refl).
Defined.

(** The outer callback returns an error of its own. *)
Lemma Transaction_returning_error_rolls_back_witness :
  let s' := (Demo.main Demo.never Demo.never Demo.background Demo.nested_error_replaced
               Demo.start).2 in
  exists n efs pre phys post,
    heap s' !! 0 = Some n /\
    onRollbackedCallbacks n = map (IfRollbacked 0) efs /\
    trace s' = trace Demo.start ++ [EvBegin (Pool "main")] ++ pre ++ phys ++ post /\
    Forall quiet pre /\
    (phys = [EvRollback (Tx "main")] \/
     phys = [EvCommitFailed (Tx "main") "E2"; EvRollback (Tx "main")]) /\
    fired_committed post = [] /\
    fired_rollbacked post = map (fun cb => (ef_id cb, "E2")) efs.
Proof.
  exact (Transaction_returning_error_rolls_back Demo.router Demo.pool Demo.pool
           Demo.suffix Demo.never Demo.never router_stable_demo
           Demo.nested_error_replaced Demo.background Demo.start (Pool "main") "E2"
           (Demo.main Demo.never Demo.never Demo.background Demo.nested_error_replaced
              Demo.start).2
           eq_refl eq_refl eq_refl eq_refl).
Defined.

(** The outermost callback registers both kinds of callback and panics. *)
Lemma Transaction_panicking_rolls_back_witness :
  let s' := (Demo.main Demo.never Demo.never Demo.background Demo.register_and_panic
               Demo.start).2 in
  exists n efs pre post,
    heap s' !! 0 = Some n /\
    onRollbackedCallbacks n = map (IfRollbacked 0) efs /\
    trace s' = trace Demo.start ++ [EvBegin (Pool "main")] ++ pre
               ++ [EvRollback (Tx "main")] ++ post /\
    Forall quiet pre /\
    fired_committed post = [] /\
    fired_rollbacked post = map (fun cb => (ef_id cb, recovered (PValue "boom"))) efs.
Proof.
  exact (Transaction_panicking_rolls_back Demo.router Demo.pool Demo.pool Demo.suffix
           Demo.never Demo.never router_stable_demo Demo.register_and_panic
           Demo.background Demo.start (Pool "main") (PValue "boom")
           (Demo.main Demo.never Demo.never Demo.background Demo.register_and_panic
              Demo.start).2
           eq_refl eq_refl eq_refl eq_refl).
Defined.

(** Inside the running root of [in_root], an escaped call that registers
    both kinds of callback. *)
Lemma escaped_transaction_is_independent_witness :
  exists o s' pre phys post,
    Provider.EscapeTransaction Demo.router Demo.suffix Demo.ctx1
      (fun c => Demo.main Demo.never Demo.never c Demo.register_both) Demo.in_root
    = (o, s') /\
    trace s' = trace Demo.in_root ++ [EvBegin (Pool "main")] ++ pre ++ phys ++ post /\
    Forall (bound_to (Tx "main")) pre /\
    (phys = [EvCommit (Tx "main")] \/ phys = [EvRollback (Tx "main")] \/
     exists e, phys = [EvCommitFailed (Tx "main") e; EvRollback (Tx "main")]) /\
    Forall is_callback post /\
    shares 1 (Tx "main") (heap s') /\
    (forall a, a < 1 -> heap s' !! a = heap Demo.in_root !! a) /\
    Node.InTransaction (heap s') (Manager.findTransContext Demo.ctxKey Demo.ctx1) = true.
Proof.
  exact (escaped_transaction_is_independent Demo.router Demo.pool Demo.pool Demo.suffix
           Demo.never Demo.never router_stable_demo Demo.register_both Demo.ctx1
           Demo.in_root (Pool "main") (ordered_test (heap Demo.in_root) eq_refl)
           eq_refl eq_refl eq_refl).
Defined.

(** [MustTransaction] with a callback that does nothing, on a driver
    that refuses to begin. *)
Lemma MustTransaction_raises_provider_error_witness :
  Manager.MustTransaction Demo.ctxKey Demo.lookup
    (Demo.provider (Demo.always "refused") Demo.never) Demo.background
    (fun _ => mret tt) Demo.start
  = (Panicked (PError "refused"),
     mkState [] [mkFrame None Demo.background]
       [EvBeginFailed (Pool "main") "refused"]).
Proof.
  exact (MustTransaction_raises_provider_error Demo.router Demo.pool Demo.pool
           Demo.suffix (Demo.always "refused") Demo.never Demo.background
           (fun _ => mret tt) Demo.start (Pool "main") eq_refl eq_refl).
Defined.

(** Two providers on the same source, made with the numbers 1 and 2. *)
Lemma providers_do_not_mix_witness :
  let src := Source.NewSource "main" (Some (Pool "main")) in
  let p1 := TransProvider.NewProvider src [] 1 in
  let p2 := TransProvider.NewProvider src [] 2 in
  (forall ctx1 ctx2, TransProvider.getCtxKey p1 ctx1 <> TransProvider.getCtxKey p2 ctx2) /\
  (forall ctx1 ctx2,
     TransProvider.getCtxKey p1 ctx1 = TransProvider.getCtxKey p1 ctx2
     <-> Source.writeDBName src ctx1 = Source.writeDBName src ctx2) /\
  (forall ctx t,
     Manager.findTransContext (TransProvider.getCtxKey p2)
       (Manager.setTransContext (TransProvider.getCtxKey p1) ctx t)
     = Manager.findTransContext (TransProvider.getCtxKey p2) ctx).
Proof.
  apply (providers_do_not_mix (Source.NewSource "main" (Some (Pool "main")))
           (Source.NewSource "main" (Some (Pool "main"))) [] [] 1 2).
  - discriminate.
  - reflexivity.
Defined.

(** Options with a read timeout of 250 milliseconds and no other. *)
Lemma timeouts_in_range_witness :
  (Main.getTimeout (Example.options "db1") = 100000000 /\
   Main.getReadTimeout (Example.options "db1") = 250000000 /\
   Main.getWriteTimeout (Example.options "db1") = 5000000000)%Z.
Proof.
  pose proof (timeouts_in_range (Example.options "db1")) as H.
  destruct H as (Ht & Hr & Hw & _); [vm_compute; discriminate..|].
  exact (conj Ht (conj Hr Hw)).
Defined.

(** One key with options, one key bound to nil. *)
Lemma OpenDBs_all_or_nothing_witness :
  Example.OpenDBs Example.configured None = inl {[ "main.default" := Pool "db1" ]} /\
  match Example.OpenDBs Example.configured None with
  | inl dbs =>
      (forall key opt, Example.configured !! key = Some (Some opt) ->
         exists db, Example.OpenDB opt None = inl db) /\
      (forall key,
         dbs !! key
         = match Example.configured !! key with
           | Some (Some opt) =>
               match Example.OpenDB opt None with
               | inl db => Some db
               | inr _ => None
               end
           | _ => None
           end)
  | inr err =>
      exists key opt, Example.configured !! key = Some (Some opt) /\
        Example.OpenDB opt None = inr err
  end.
Proof.
  split; [reflexivity|].
  apply (OpenDBs_all_or_nothing Example.dial Example.gorm_Open () Example.Use
           map_to_list Example.configured None).
  intros key opt. apply elem_of_map_to_list.
Defined.

(** A router that names the key with options, and one that names the
    key bound to nil. *)
Lemma ToSource_routes_witness :
  (Source.getWriteDBName Example.source Demo.background = "main.default" /\
   Source.getReadDBName Example.source Demo.background = "main.default" /\
   Source.getReadDB Example.source Demo.background
   = Source.getWriteDB Example.source Demo.background /\
   exists db, Example.OpenDB Example.primary None = inl db /\
     Source.getWriteDB Example.source Demo.background = Some db) /\
  (Source.getWriteDBName Example.spare_source Demo.background = "spare" /\
   Source.getReadDBName Example.spare_source Demo.background = "spare" /\
   Source.getReadDB Example.spare_source Demo.background
   = Source.getWriteDB Example.spare_source Demo.background /\
   Source.getWriteDB Example.spare_source Demo.background = None /\
   forall callback s,
     Node.InTransaction (heap s)
       (Manager.findTransContext (TransProvider.getCtxKey Example.spare_provider)
          Demo.background) = false ->
     TransProvider.Transaction Demo.never Demo.never Example.spare_provider
       Demo.background callback s
     = (Panicked
          (PError "runtime error: invalid memory address or nil pointer dereference"),
        mkState (heap s) (cells s ++ [mkFrame None Demo.background]) (trace s))).
Proof.
  split.
  - refine (ToSource_routes Example.dial Example.gorm_Open () Example.Use map_to_list
              Demo.never Demo.never Example.configured None Example.router
              Example.source [] 7 _ _ Demo.background).
    + intros key opt. apply elem_of_map_to_list.
    + reflexivity.
  - refine (ToSource_routes Example.dial Example.gorm_Open () Example.Use map_to_list
              Demo.never Demo.never Example.configured None Example.spare_router
              Example.spare_source [] 7 _ _ Demo.background).
    + intros key opt. apply elem_of_map_to_list.
    + reflexivity.
Defined.

(** Two nested scopes on the single database [db1]. *)
Lemma single_database_source_witness :
  let provider := TransProvider.NewProvider Example.single [] 7 in
  let K := TransProvider.getCtxKey provider in
  exists db,
    Options.OpenDB Example.dial Example.gorm_Open () (Example.options "db1") None
    = inl db /\
    (forall c,
       Source.getWriteDB Example.single c = Some db /\
       Source.getReadDB Example.single c = Some db /\
       Source.getWriteDBName Example.single c
       = Options.fullName (Some (Example.options "db1")) /\
       Source.getReadDBName Example.single c
       = Options.fullName (Some (Example.options "db1")) /\
       K c = TransCtxKey (Options.fullName (Some (Example.options "db1")) +:+ "."
                          +:+ pretty 7%N)) /\
    (Demo.never db = None ->
     let tx := Tx (Provider.name_of db) in
     exists o' s' pre phys post,
       Client.main K (fun c => TransProvider.lookupDB provider c true)
         (TransProvider.transaction Demo.never Demo.never provider)
         Demo.background (Demo.tower 1) Demo.start = (o', s') /\
       trace s' = trace Demo.start ++ [EvBegin db] ++ pre ++ phys ++ post /\
       Forall (bound_to tx) pre /\
       (phys = [EvCommit tx] \/ phys = [EvRollback tx] \/
        exists e, phys = [EvCommitFailed tx e; EvRollback tx]) /\
       Forall is_callback post).
Proof.
  exact (single_database_source Example.dial Example.gorm_Open () Demo.never Demo.never
           (Example.options "db1") None Example.single [] 7 (Demo.tower 1)
           Demo.background Demo.start eq_refl eq_refl).
Defined.

Lemma mysqlOpts_lookup_witness :
  Example.mysqlOpts Example.params !! Main.getDBKey "main" "default"
  = Some (Some Example.primary) /\
  Example.mysqlOpts Example.params !! Main.getDBKey "main" "default"
  = Main.Mysql (Main.Conf Example.params) !! "main" ≫= fun opts => opts !! "default".
Proof.
  split; [reflexivity|].
  apply (mysqlOpts_lookup map_to_list (fun _ => map_to_list) Example.params
           "main" "default").
  - intros t opts. apply elem_of_map_to_list.
  - intros t o key opt. apply elem_of_map_to_list.
  - cbn. intros t opts [<- _]%lookup_singleton_Some. reflexivity.
  - reflexivity.
Defined.

(** The program as written, with its empty configuration. *)
Lemma run_needs_main_default_witness :
  exists v s',
    Example.main Demo.start = (Panicked v, s') /\
    heap s' = heap Demo.start /\ trace s' = trace Demo.start.
Proof.
  apply (run_needs_main_default Example.nanoseconds Example.mysql_New Example.gorm_Open
           () Example.Use map_to_list map_to_list (fun _ => map_to_list) 7
           Demo.never Demo.never (Main.mkParams (Main.mkConfigs ∅)) Demo.start).
  - intros o key opt. apply elem_of_map_to_list.
  - intros opt. vm_compute. discriminate.
Defined.

(** The program with options under [main] and [default]. *)
Lemma run_with_main_default_witness :
  Example.run Example.params Demo.start
  = (Normal tt,
     mkState [mkTransContext [] [] None (Tx Example.dsn) true false None]
       [mkFrame (Some 0) [(TransCtxKey "main.default.7", VTransContext 0)]]
       [EvBegin (Pool Example.dsn);
        EvBind (Tx Example.dsn) [(TransCtxKey "main.default.7", VTransContext 0)];
        EvCommit (Tx Example.dsn)]).
Proof.
  exact (run_with_main_default Example.nanoseconds Example.mysql_New Example.gorm_Open
           () Example.Use map_to_list map_to_list (fun _ => map_to_list) 7
           Demo.never Demo.never Example.params Example.made (Pool Example.dsn)
           Demo.start eq_refl eq_refl).
Defined.
(** ** Panics and probes at concrete inputs *)


(** C5 at work: two calls nested in the outermost one, from the empty
    context and the empty store.  The innermost probe of the program is
    at a place in two nested calls. *)
Lemma C5_InTransaction_inside_and_after_witness :
  (forall ctx k v, Demo.router (WithValue ctx (TransCtxKey k) v) = Demo.router ctx) /\
  Node.InTransaction (heap Demo.start)
    (Manager.findTransContext Demo.ctxKey Demo.background) = false /\
  ordered (heap Demo.start) /\
  (forall t, Manager.findTransContext Demo.ctxKey Demo.background = Some t ->
     t < length (heap Demo.start)) /\
  Demo.tower 2 = plug tower_place (Client.Probe (Client.Ret None)) /\
  nesting tower_place = 2 /\
  exists o s' fs evs,
    Demo.main Demo.never Demo.never Demo.background (Demo.tower 2) Demo.start = (o, s') /\
    cells s' = cells Demo.start ++ fs /\
    trace s' = trace Demo.start ++ evs /\
    (forall d E q, Demo.pool Demo.background = Some d -> Demo.never d = None ->
       Demo.tower 2 = plug E (Client.Probe q) ->
       exists pre post,
         evs = pre ++ [EvProbe (replicate (S (nesting E)) true)] ++ post) /\
    (forall bs, EvProbe bs ∈ evs -> Forall (eq true) bs) /\
    (forall f, f ∈ fs ->
       Node.InTransaction (heap s') (Manager.findTransContext Demo.ctxKey (f_ctx f)) = false) /\
    (ordered (heap Demo.start) ->
     (forall t, Manager.findTransContext Demo.ctxKey Demo.background = Some t ->
        t < length (heap Demo.start)) ->
     ordered (heap s') /\
     Node.InTransaction (heap s') (Manager.findTransContext Demo.ctxKey Demo.background)
     = false).
Proof.
  split; [exact router_stable_demo|]. split; [reflexivity|].
  split; [exact ordered_nil|]. split; [discriminate|].
  split; [reflexivity|]. split; [reflexivity|].
  exact (C5_InTransaction_inside_and_after Demo.router Demo.pool Demo.pool Demo.suffix
           Demo.never Demo.never router_stable_demo (Demo.tower 2) Demo.background
           Demo.start eq_refl).
Defined.
